(** * god-casa: the data-oriented simulation core (simulation.h / simulation.c)

    A shallow embedding of the batch and scalar transforms of
    [simulation.c] and the properties of its specification.

    The C code computes on [float] columns.  Every transform that only
    uses [+ - * /] and comparisons is written once, over an abstract
    arithmetic ([FieldOps]), and read at two instances:
    - [Binary32.ops]: IEEE-754 binary32 with round-to-nearest-even,
      infinities and NaN (the Standard Library's [SpecFloat] at
      precision 24, emax 128).  This is what the compiled code executes
      when every operation rounds to [float] (FLT_EVAL_METHOD 0, no
      contraction into fused multiply-adds).
    - [Exact.ops]: the rationals, i.e. the same formulas without
      rounding, used for statements meant "up to floating tolerance". *)

From Stdlib Require Import ZArith QArith Qfield Bool List Lia Lqa.
From Stdlib Require Import Floats.SpecFloat.
From stdpp Require Import base list.

Local Open Scope Z_scope.

(** ** Arithmetic interface *)

Declare Scope float_scope.
Delimit Scope float_scope with fl.

Class FieldOps (F : Type) := {
  fadd : F -> F -> F;
  fsub : F -> F -> F;
  fmul : F -> F -> F;
  fdiv : F -> F -> F;
  flt : F -> F -> bool;          (* C's [a < b]; [a > b] is [flt b a] *)
  fle : F -> F -> bool;          (* C's [a <= b]; [a >= b] is [fle b a] *)
  flit : Z -> positive -> F      (* the literal n/d, e.g. 0.3f = flit 3 10 *)
}.

Infix "+" := fadd : float_scope.
Infix "-" := fsub : float_scope.
Infix "*" := fmul : float_scope.
Infix "/" := fdiv : float_scope.
Infix "<?" := flt : float_scope.
Infix "<=?" := fle : float_scope.
Notation "a >? b" := (flt b a) : float_scope.
Notation "a >=? b" := (fle b a) : float_scope.

(** [(float)n] for an integer [n]. *)
Definition of_int {F} `{FieldOps F} (n : Z) : F := flit n 1.

(** ** IEEE-754 binary32 *)

Module Binary32.

Definition prec : Z := 24.
Definition emax : Z := 128.

Definition float32 : Type := spec_float.

Definition add : float32 -> float32 -> float32 := SFadd prec emax.
Definition sub : float32 -> float32 -> float32 := SFsub prec emax.
Definition mul : float32 -> float32 -> float32 := SFmul prec emax.
Definition div : float32 -> float32 -> float32 := SFdiv prec emax.
Definition sqrt : float32 -> float32 := SFsqrt prec emax.
Definition ltb : float32 -> float32 -> bool := SFltb.
Definition leb : float32 -> float32 -> bool := SFleb.

(** Integer to float, rounded to nearest even. *)
Definition of_Z (z : Z) : float32 := binary_normalize prec emax z 0 false.

(** A decimal literal n/d: both parts are exact in binary32 for every
    literal of the source, so one correctly rounded division gives the
    float the compiler emits. *)
Definition lit (n : Z) (d : positive) : float32 := div (of_Z n) (of_Z (Zpos d)).

Definition is_nan (x : float32) : bool :=
  match x with S754_nan => true | _ => false end.

Definition is_finite (x : float32) : bool :=
  match x with S754_zero _ | S754_finite _ _ _ => true | _ => false end.

(** Zero of either sign, a positive finite float or +infinity. *)
Definition is_nonneg (x : float32) : bool :=
  match x with
  | S754_zero _ | S754_finite false _ _ | S754_infinity false => true
  | _ => false
  end.

(** A positive finite float or +infinity. *)
Definition is_pos (x : float32) : bool :=
  match x with
  | S754_finite false _ _ | S754_infinity false => true
  | _ => false
  end.

(** The float is a binary32 datum: canonical mantissa, exponent in range. *)
Definition valid (x : float32) : bool := valid_binary prec emax x.

(** The bit pattern of a float ([memcpy] to a [uint32_t]) and back.
    NaN payloads are not modelled: NaN is the quiet NaN 0x7FC00000. *)
Definition sign_bit (s : bool) : Z := if s then Z.shiftl 1 31 else 0.

Definition to_bits (x : float32) : Z :=
  match x with
  | S754_zero s => sign_bit s
  | S754_infinity s => Z.lor (sign_bit s) 0x7F800000
  | S754_nan => 0x7FC00000
  | S754_finite s m e =>
      if Zpos m <? Z.shiftl 1 23
      then Z.lor (sign_bit s) (Zpos m)
      else Z.lor (sign_bit s)
                 (Z.lor (Z.shiftl (e + 150) 23) (Zpos m - Z.shiftl 1 23))
  end.

Definition of_bits (i : Z) : float32 :=
  let s := Z.testbit i 31 in
  let ex := Z.land (Z.shiftr i 23) 0xFF in
  let frac := Z.land i 0x7FFFFF in
  if ex =? 0 then
    match frac with
    | Zpos m => S754_finite s m (-149)
    | _ => S754_zero s
    end
  else if ex =? 255 then
    (if frac =? 0 then S754_infinity s else S754_nan)
  else
    match Z.lor frac (Z.shiftl 1 23) with
    | Zpos m => S754_finite s m (ex - 150)
    | _ => S754_nan
    end.

#[global] Instance ops : FieldOps float32 := {
  fadd := add; fsub := sub; fmul := mul; fdiv := div;
  flt := ltb; fle := leb; flit := lit
}.

End Binary32.

(** ** Exact (rounding-free) arithmetic *)

(** The formulas of the code read over the rationals.  Nothing rounds or
    overflows here, and [Qdiv] returns 0 for a zero divisor, where the C
    division gives an infinity or NaN: a statement at this instance is a
    statement about the formula without rounding, not about the binary32
    code, and it is used only where no divisor is zero. *)

Module Exact.

Definition ltb (a b : Q) : bool := negb (Qle_bool b a).

#[global] Instance ops : FieldOps Q := {
  fadd := Qplus; fsub := Qminus; fmul := Qmult; fdiv := Qdiv;
  flt := ltb; fle := Qle_bool; flit := fun n d => Qmake n d
}.

End Exact.

(** ** Arrays, loops and 32-bit integers *)

Section Arrays.
Context {A : Type}.

(** [col[i]] for an [int] index; reading outside the array is
    undefined in C and yields [d] here. *)
Definition rd (d : A) (col : list A) (i : Z) : A :=
  if i <? 0 then d else default d (col !! Z.to_nat i).

(** [col[i] = v]; writing outside the array is undefined in C and is
    a no-op here. *)
Definition wr (col : list A) (i : Z) (v : A) : list A :=
  if i <? 0 then col else <[Z.to_nat i := v]> col.

(** [for (int i = 0; i < n; i++) s = body i s]. *)
Definition for_loop {S : Type} (n : Z) (body : Z -> S -> S) (s : S) : S :=
  fold_left (fun acc k => body (Z.of_nat k) acc) (seq 0 (Z.to_nat n)) s.

(** Objects reached through pointers: a heap of objects of one struct
    type, addressed by position, so that two pointer arguments of the
    same type may denote the same object.  [modify h ptr f] is a store
    through [ptr]. *)
Definition modify (h : list A) (ptr : nat) (f : A -> A) : list A :=
  alter f ptr h.

End Arrays.

Abbreviation Heap := list (only parsing).

Definition wrap32 (z : Z) : Z := z mod 2 ^ 32.

(** The scalar operations' index guard: [idx < 0 || idx >= count]. *)
Definition out_of_range (idx count : Z) : bool := (idx <? 0) || (idx >=? count).

(** ** The columnar containers of simulation.h

    Each [float *] column is a list; [count] is the C [int].  The
    columns of a container are distinct arrays. *)

Record PopSoA {F : Type} := {
  population : list F;  carrying_cap : list F;  growth_rate : list F;
  susceptible : list F;  infected : list F;  recovered : list F;
  beta : list F;  gamma_rec : list F;
  food_supply : list F;  food_threshold : list F;
  age_young : list F;  age_adult : list F;  age_elder : list F;
  pop_count : Z
}.
Arguments PopSoA : clear implicits.

Record FaithSoA {F : Type} := {
  faith_level : list F;  mana : list F;  mana_regen : list F;
  heresy_rate : list F;  miracle_chance : list F;  devotee_count : list F;
  temple_count : list F;  schism_risk : list F;  conversion_rate : list F;
  divine_favor : list F;
  faith_count : Z
}.
Arguments FaithSoA : clear implicits.

Record CombatSoA {F : Type} := {
  base_atk : list F;  armor : list F;  hp : list F;  max_hp : list F;
  morale : list F;  morale_decay : list F;  hit_chance : list F;
  crit_chance : list F;  crit_mult : list F;  rout_threshold : list F;
  combat_count : Z
}.
Arguments CombatSoA : clear implicits.

Record EconSoA {F : Type} := {
  resource : list F;  max_resource : list F;  gather_rate : list F;
  depletion_rate : list F;  price : list F;  demand : list F;
  supply : list F;  tax_rate : list F;  tax_collected : list F;
  trade_volume : list F;
  econ_count : Z
}.
Arguments EconSoA : clear implicits.

Record MoveSoA {F : Type} := {
  pos_x : list F;  pos_y : list F;  vel_x : list F;  vel_y : list F;
  acc_x : list F;  acc_y : list F;  heading : list F;  speed : list F;
  max_speed : list F;  h_cost : list F;
  move_count : Z
}.
Arguments MoveSoA : clear implicits.

Record DivineSoA {F : Type} := {
  energy : list F;  energy_cap : list F;  regen_rate : list F;
  meteor_cost : list F;  heal_amount : list F;  heal_decay : list F;
  terraform_cost : list F;  smite_power : list F;  blessing_mult : list F;
  cooldown : list F;
  divine_count : Z
}.
Arguments DivineSoA : clear implicits.

Record PsychSoA {F : Type} := {
  happiness : list F;  fear : list F;  loyalty : list F;
  aggression : list F;  utility_work : list F;  utility_fight : list F;
  utility_flee : list F;  threat_level : list F;  memory_decay : list F;
  social_bond : list F;
  psych_count : Z
}.
Arguments PsychSoA : clear implicits.

Record TechSoA {F : Type} := {
  research_pts : list F;  research_rate : list F;  tech_cost : list F;
  tech_level : list F;  golden_age_mult : list F;
  golden_age_timer : list F;  culture : list F;  culture_spread : list F;
  era : list F;  pop_bonus : list F;
  tech_count : Z
}.
Arguments TechSoA : clear implicits.

Record EngineSoA {F : Type} := {
  entropy : list F;  entropy_rate : list F;  grid_x : list F;
  grid_y : list F;  inv_sqrt_val : list F;  inv_sqrt_out : list F;
  stability : list F;  end_timer : list F;  victory_pts : list F;
  chaos_mult : list F;
  rng_state : list Z;            (* uint32_t per faction *)
  engine_count : Z
}.
Arguments EngineSoA : clear implicits.

(** [extern uint32_t global_tick]: the one global of the library, which
    every function of simulation.c can read. *)
Record Globals := { global_tick : Z }.

(** *** In-place stores into one column *)

Section Setters.
Context {F : Type}.

Definition set_population (p : PopSoA F) (v : list F) : PopSoA F :=
  {| population := v; carrying_cap := carrying_cap p;
     growth_rate := growth_rate p; susceptible := susceptible p;
     infected := infected p; recovered := recovered p; beta := beta p;
     gamma_rec := gamma_rec p; food_supply := food_supply p;
     food_threshold := food_threshold p; age_young := age_young p;
     age_adult := age_adult p; age_elder := age_elder p;
     pop_count := pop_count p |}.

Definition set_susceptible (p : PopSoA F) (v : list F) : PopSoA F :=
  {| population := population p; carrying_cap := carrying_cap p;
     growth_rate := growth_rate p; susceptible := v;
     infected := infected p; recovered := recovered p; beta := beta p;
     gamma_rec := gamma_rec p; food_supply := food_supply p;
     food_threshold := food_threshold p; age_young := age_young p;
     age_adult := age_adult p; age_elder := age_elder p;
     pop_count := pop_count p |}.

Definition set_infected (p : PopSoA F) (v : list F) : PopSoA F :=
  {| population := population p; carrying_cap := carrying_cap p;
     growth_rate := growth_rate p; susceptible := susceptible p;
     infected := v; recovered := recovered p; beta := beta p;
     gamma_rec := gamma_rec p; food_supply := food_supply p;
     food_threshold := food_threshold p; age_young := age_young p;
     age_adult := age_adult p; age_elder := age_elder p;
     pop_count := pop_count p |}.

Definition set_recovered (p : PopSoA F) (v : list F) : PopSoA F :=
  {| population := population p; carrying_cap := carrying_cap p;
     growth_rate := growth_rate p; susceptible := susceptible p;
     infected := infected p; recovered := v; beta := beta p;
     gamma_rec := gamma_rec p; food_supply := food_supply p;
     food_threshold := food_threshold p; age_young := age_young p;
     age_adult := age_adult p; age_elder := age_elder p;
     pop_count := pop_count p |}.

Definition set_mana (f : FaithSoA F) (v : list F) : FaithSoA F :=
  {| faith_level := faith_level f; mana := v; mana_regen := mana_regen f;
     heresy_rate := heresy_rate f; miracle_chance := miracle_chance f;
     devotee_count := devotee_count f; temple_count := temple_count f;
     schism_risk := schism_risk f; conversion_rate := conversion_rate f;
     divine_favor := divine_favor f; faith_count := faith_count f |}.

Definition set_base_atk (c : CombatSoA F) (v : list F) : CombatSoA F :=
  {| base_atk := v; armor := armor c; hp := hp c; max_hp := max_hp c;
     morale := morale c; morale_decay := morale_decay c;
     hit_chance := hit_chance c; crit_chance := crit_chance c;
     crit_mult := crit_mult c; rout_threshold := rout_threshold c;
     combat_count := combat_count c |}.

Definition set_hp (c : CombatSoA F) (v : list F) : CombatSoA F :=
  {| base_atk := base_atk c; armor := armor c; hp := v; max_hp := max_hp c;
     morale := morale c; morale_decay := morale_decay c;
     hit_chance := hit_chance c; crit_chance := crit_chance c;
     crit_mult := crit_mult c; rout_threshold := rout_threshold c;
     combat_count := combat_count c |}.

Definition set_max_hp (c : CombatSoA F) (v : list F) : CombatSoA F :=
  {| base_atk := base_atk c; armor := armor c; hp := hp c; max_hp := v;
     morale := morale c; morale_decay := morale_decay c;
     hit_chance := hit_chance c; crit_chance := crit_chance c;
     crit_mult := crit_mult c; rout_threshold := rout_threshold c;
     combat_count := combat_count c |}.

Definition set_morale (c : CombatSoA F) (v : list F) : CombatSoA F :=
  {| base_atk := base_atk c; armor := armor c; hp := hp c;
     max_hp := max_hp c; morale := v; morale_decay := morale_decay c;
     hit_chance := hit_chance c; crit_chance := crit_chance c;
     crit_mult := crit_mult c; rout_threshold := rout_threshold c;
     combat_count := combat_count c |}.

Definition set_resource (e : EconSoA F) (v : list F) : EconSoA F :=
  {| resource := v; max_resource := max_resource e;
     gather_rate := gather_rate e; depletion_rate := depletion_rate e;
     price := price e; demand := demand e; supply := supply e;
     tax_rate := tax_rate e; tax_collected := tax_collected e;
     trade_volume := trade_volume e; econ_count := econ_count e |}.

Definition set_price (e : EconSoA F) (v : list F) : EconSoA F :=
  {| resource := resource e; max_resource := max_resource e;
     gather_rate := gather_rate e; depletion_rate := depletion_rate e;
     price := v; demand := demand e; supply := supply e;
     tax_rate := tax_rate e; tax_collected := tax_collected e;
     trade_volume := trade_volume e; econ_count := econ_count e |}.

Definition set_trade_volume (e : EconSoA F) (v : list F) : EconSoA F :=
  {| resource := resource e; max_resource := max_resource e;
     gather_rate := gather_rate e; depletion_rate := depletion_rate e;
     price := price e; demand := demand e; supply := supply e;
     tax_rate := tax_rate e; tax_collected := tax_collected e;
     trade_volume := v; econ_count := econ_count e |}.

Definition set_vel_x (m : MoveSoA F) (v : list F) : MoveSoA F :=
  {| pos_x := pos_x m; pos_y := pos_y m; vel_x := v; vel_y := vel_y m;
     acc_x := acc_x m; acc_y := acc_y m; heading := heading m;
     speed := speed m; max_speed := max_speed m; h_cost := h_cost m;
     move_count := move_count m |}.

Definition set_vel_y (m : MoveSoA F) (v : list F) : MoveSoA F :=
  {| pos_x := pos_x m; pos_y := pos_y m; vel_x := vel_x m; vel_y := v;
     acc_x := acc_x m; acc_y := acc_y m; heading := heading m;
     speed := speed m; max_speed := max_speed m; h_cost := h_cost m;
     move_count := move_count m |}.

Definition set_acc_x (m : MoveSoA F) (v : list F) : MoveSoA F :=
  {| pos_x := pos_x m; pos_y := pos_y m; vel_x := vel_x m;
     vel_y := vel_y m; acc_x := v; acc_y := acc_y m; heading := heading m;
     speed := speed m; max_speed := max_speed m; h_cost := h_cost m;
     move_count := move_count m |}.

Definition set_acc_y (m : MoveSoA F) (v : list F) : MoveSoA F :=
  {| pos_x := pos_x m; pos_y := pos_y m; vel_x := vel_x m;
     vel_y := vel_y m; acc_x := acc_x m; acc_y := v; heading := heading m;
     speed := speed m; max_speed := max_speed m; h_cost := h_cost m;
     move_count := move_count m |}.

Definition set_speed (m : MoveSoA F) (v : list F) : MoveSoA F :=
  {| pos_x := pos_x m; pos_y := pos_y m; vel_x := vel_x m;
     vel_y := vel_y m; acc_x := acc_x m; acc_y := acc_y m;
     heading := heading m; speed := v; max_speed := max_speed m;
     h_cost := h_cost m; move_count := move_count m |}.

Definition set_h_cost (m : MoveSoA F) (v : list F) : MoveSoA F :=
  {| pos_x := pos_x m; pos_y := pos_y m; vel_x := vel_x m;
     vel_y := vel_y m; acc_x := acc_x m; acc_y := acc_y m;
     heading := heading m; speed := speed m; max_speed := max_speed m;
     h_cost := v; move_count := move_count m |}.

Definition set_energy (d : DivineSoA F) (v : list F) : DivineSoA F :=
  {| energy := v; energy_cap := energy_cap d; regen_rate := regen_rate d;
     meteor_cost := meteor_cost d; heal_amount := heal_amount d;
     heal_decay := heal_decay d; terraform_cost := terraform_cost d;
     smite_power := smite_power d; blessing_mult := blessing_mult d;
     cooldown := cooldown d; divine_count := divine_count d |}.

Definition set_heal_amount (d : DivineSoA F) (v : list F) : DivineSoA F :=
  {| energy := energy d; energy_cap := energy_cap d;
     regen_rate := regen_rate d; meteor_cost := meteor_cost d;
     heal_amount := v; heal_decay := heal_decay d;
     terraform_cost := terraform_cost d; smite_power := smite_power d;
     blessing_mult := blessing_mult d; cooldown := cooldown d;
     divine_count := divine_count d |}.

Definition set_fear (p : PsychSoA F) (v : list F) : PsychSoA F :=
  {| happiness := happiness p; fear := v; loyalty := loyalty p;
     aggression := aggression p; utility_work := utility_work p;
     utility_fight := utility_fight p; utility_flee := utility_flee p;
     threat_level := threat_level p; memory_decay := memory_decay p;
     social_bond := social_bond p; psych_count := psych_count p |}.

Definition set_loyalty (p : PsychSoA F) (v : list F) : PsychSoA F :=
  {| happiness := happiness p; fear := fear p; loyalty := v;
     aggression := aggression p; utility_work := utility_work p;
     utility_fight := utility_fight p; utility_flee := utility_flee p;
     threat_level := threat_level p; memory_decay := memory_decay p;
     social_bond := social_bond p; psych_count := psych_count p |}.

Definition set_aggression (p : PsychSoA F) (v : list F) : PsychSoA F :=
  {| happiness := happiness p; fear := fear p; loyalty := loyalty p;
     aggression := v; utility_work := utility_work p;
     utility_fight := utility_fight p; utility_flee := utility_flee p;
     threat_level := threat_level p; memory_decay := memory_decay p;
     social_bond := social_bond p; psych_count := psych_count p |}.

Definition set_threat_level (p : PsychSoA F) (v : list F) : PsychSoA F :=
  {| happiness := happiness p; fear := fear p; loyalty := loyalty p;
     aggression := aggression p; utility_work := utility_work p;
     utility_fight := utility_fight p; utility_flee := utility_flee p;
     threat_level := v; memory_decay := memory_decay p;
     social_bond := social_bond p; psych_count := psych_count p |}.

Definition set_research_pts (t : TechSoA F) (v : list F) : TechSoA F :=
  {| research_pts := v; research_rate := research_rate t;
     tech_cost := tech_cost t; tech_level := tech_level t;
     golden_age_mult := golden_age_mult t;
     golden_age_timer := golden_age_timer t; culture := culture t;
     culture_spread := culture_spread t; era := era t;
     pop_bonus := pop_bonus t; tech_count := tech_count t |}.

Definition set_tech_cost (t : TechSoA F) (v : list F) : TechSoA F :=
  {| research_pts := research_pts t; research_rate := research_rate t;
     tech_cost := v; tech_level := tech_level t;
     golden_age_mult := golden_age_mult t;
     golden_age_timer := golden_age_timer t; culture := culture t;
     culture_spread := culture_spread t; era := era t;
     pop_bonus := pop_bonus t; tech_count := tech_count t |}.

Definition set_golden_age_mult (t : TechSoA F) (v : list F) : TechSoA F :=
  {| research_pts := research_pts t; research_rate := research_rate t;
     tech_cost := tech_cost t; tech_level := tech_level t;
     golden_age_mult := v;
     golden_age_timer := golden_age_timer t; culture := culture t;
     culture_spread := culture_spread t; era := era t;
     pop_bonus := pop_bonus t; tech_count := tech_count t |}.

Definition set_golden_age_timer (t : TechSoA F) (v : list F) : TechSoA F :=
  {| research_pts := research_pts t; research_rate := research_rate t;
     tech_cost := tech_cost t; tech_level := tech_level t;
     golden_age_mult := golden_age_mult t;
     golden_age_timer := v; culture := culture t;
     culture_spread := culture_spread t; era := era t;
     pop_bonus := pop_bonus t; tech_count := tech_count t |}.

Definition set_entropy (e : EngineSoA F) (v : list F) : EngineSoA F :=
  {| entropy := v; entropy_rate := entropy_rate e; grid_x := grid_x e;
     grid_y := grid_y e; inv_sqrt_val := inv_sqrt_val e;
     inv_sqrt_out := inv_sqrt_out e; stability := stability e;
     end_timer := end_timer e; victory_pts := victory_pts e;
     chaos_mult := chaos_mult e; rng_state := rng_state e;
     engine_count := engine_count e |}.

Definition set_stability (e : EngineSoA F) (v : list F) : EngineSoA F :=
  {| entropy := entropy e; entropy_rate := entropy_rate e;
     grid_x := grid_x e; grid_y := grid_y e;
     inv_sqrt_val := inv_sqrt_val e; inv_sqrt_out := inv_sqrt_out e;
     stability := v; end_timer := end_timer e;
     victory_pts := victory_pts e; chaos_mult := chaos_mult e;
     rng_state := rng_state e; engine_count := engine_count e |}.

Definition set_chaos_mult (e : EngineSoA F) (v : list F) : EngineSoA F :=
  {| entropy := entropy e; entropy_rate := entropy_rate e;
     grid_x := grid_x e; grid_y := grid_y e;
     inv_sqrt_val := inv_sqrt_val e; inv_sqrt_out := inv_sqrt_out e;
     stability := stability e; end_timer := end_timer e;
     victory_pts := victory_pts e; chaos_mult := v;
     rng_state := rng_state e; engine_count := engine_count e |}.

Definition set_rng_state (e : EngineSoA F) (v : list Z) : EngineSoA F :=
  {| entropy := entropy e; entropy_rate := entropy_rate e;
     grid_x := grid_x e; grid_y := grid_y e;
     inv_sqrt_val := inv_sqrt_val e; inv_sqrt_out := inv_sqrt_out e;
     stability := stability e; end_timer := end_timer e;
     victory_pts := victory_pts e; chaos_mult := chaos_mult e;
     rng_state := v; engine_count := engine_count e |}.

End Setters.

(** ** simulation.c over an abstract arithmetic *)

Section Simulation.
Context {F : Type} `{FieldOps F}.

Local Open Scope float_scope.

Definition f0 : F := flit 0 1.
Definition f1 : F := flit 1 1.
Definition MAX_PRICE : F := flit 1000 1.

Local Notation "col @ i" := (rd f0 col i) (at level 9, i at level 9).

(** *** Internal helpers *)

Definition clampf (v lo hi : F) : F :=
  if v <? lo then lo else if v >? hi then hi else v.

Definition lcg_next (s : Z) : Z := wrap32 (s * 1664525 + 1013904223).

(** [lcg_float(&s)]: the draw in [0,1) and the advanced state. *)
Definition lcg_float (s : Z) : F * Z :=
  let s' := lcg_next s in
  (of_int (Z.shiftr s' 8) / of_int (Z.shiftl 1 24), s').

(** *** 1. Population dynamics *)

(** The Euler update [n + dn * dt] of one group, before the clamp. *)
Definition logistic_update (n k r dt : F) : F :=
  let dn := r * n * (f1 - n / k) in
  n + dn * dt.

Definition pop_logistic_growth_body (dt : F) (i : Z) (p : PopSoA F) : PopSoA F :=
  let n := (population p) @ i in
  let k := (carrying_cap p) @ i in
  let r := (growth_rate p) @ i in
  set_population p (wr (population p) i (clampf (logistic_update n k r dt) f0 k)).

Definition pop_logistic_growth (p : PopSoA F) (dt : F) : PopSoA F :=
  for_loop (pop_count p) (pop_logistic_growth_body dt) p.

(** The mass-action update of the three compartments of one group,
    before normalisation: the locals [s], [inf], [r] after their
    [-=] / [+=]. *)
Definition sir_update (n s inf r beta gam dt : F) : F * F * F :=
  let new_inf := beta * s * inf / n in
  let new_rec := gam * inf in
  let s := s - new_inf * dt in
  let inf := inf + (new_inf - new_rec) * dt in
  let r := r + new_rec * dt in
  (s, inf, r).

(** What one iteration stores into the three compartments: [None] when
    the iteration stores nothing ([continue], or [total > 0] fails). *)
Definition pop_sir_step_cell (n s inf r beta gam dt : F) : option (F * F * F) :=
  if n <=? f0 then None else
  let '(s, inf, r) := sir_update n s inf r beta gam dt in
  let total := s + inf + r in
  if total >? f0 then
    Some (clampf (s / total) f0 f1,
          clampf (inf / total) f0 f1,
          clampf (r / total) f0 f1)
  else None.

Definition pop_sir_step_body (dt : F) (i : Z) (p : PopSoA F) : PopSoA F :=
  match pop_sir_step_cell (population p) @ i (susceptible p) @ i
          (infected p) @ i (recovered p) @ i (beta p) @ i
          (gamma_rec p) @ i dt with
  | Some (s', inf', r') =>
      let p1 := set_susceptible p (wr (susceptible p) i s') in
      let p2 := set_infected p1 (wr (infected p1) i inf') in
      set_recovered p2 (wr (recovered p2) i r')
  | None => p
  end.

Definition pop_sir_step (p : PopSoA F) (dt : F) : PopSoA F :=
  for_loop (pop_count p) (pop_sir_step_body dt) p.

(** [src] and [dst] are pointers into one heap of population
    containers and may be the same container. *)
Definition pop_migration (h : Heap (PopSoA F)) (src dst : nat)
    (idx : Z) (rate dt : F) : Heap (PopSoA F) :=
  match h !! src, h !! dst with
  | Some s, Some d =>
      if (idx <? 0)%Z || (idx >=? pop_count s)%Z || (idx >=? pop_count d)%Z
      then h
      else
        let amount := rate * (population s) @ idx * dt in
        let h1 := modify h src (fun s =>
          set_population s (wr (population s) idx
            (clampf ((population s) @ idx - amount) f0 (carrying_cap s) @ idx))) in
        modify h1 dst (fun d =>
          set_population d (wr (population d) idx
            (clampf ((population d) @ idx + amount) f0 (carrying_cap d) @ idx)))
  | _, _ => h
  end.

(** *** 2. Faith and religion *)

(** The flag one iteration stores into [miracle_out[i]]. *)
Definition faith_miracle_check_cell (i : Z) (chance favor : F) : Z :=
  let seed := wrap32 (wrap32 (i + 1) * 2654435761) in
  let roll := fst (lcg_float seed) in
  if roll <? chance * favor then 1%Z else 0%Z.

Definition faith_miracle_check_body (f : FaithSoA F) (i : Z)
    (miracle_out : list Z) : list Z :=
  wr miracle_out i
     (faith_miracle_check_cell i (miracle_chance f) @ i (divine_favor f) @ i).

(** The ambient globals [g] are in scope of every function of the
    translation unit; this one does not mention them. *)
Definition faith_miracle_check (g : Globals) (f : FaithSoA F)
    (miracle_out : list Z) : list Z :=
  for_loop (faith_count f) (faith_miracle_check_body f) miracle_out.

Definition faith_ritual_cost (f : FaithSoA F) (idx : Z) (ritual_mana : F)
    : FaithSoA F :=
  if out_of_range idx (faith_count f) then f else
  set_mana f (wr (mana f) idx
    (clampf ((mana f) @ idx - ritual_mana) f0 (flit 1000 1))).

(** *** 3. Combat and warfare *)

Definition combat_apply_damage (c : CombatSoA F) (attacker defender : Z)
    (raw_dmg : F) : CombatSoA F :=
  if out_of_range attacker (combat_count c) then c else
  if out_of_range defender (combat_count c) then c else
  let dmg := raw_dmg - (armor c) @ defender * flit 1 2 in
  let dmg := if dmg <? f1 then f1 else dmg in
  set_hp c (wr (hp c) defender
    (clampf ((hp c) @ defender - dmg) f0 (max_hp c) @ defender)).

Definition combat_armor_mitigation_body (c : CombatSoA F) (i : Z)
    (dmg_inout : list F) : list F :=
  let mit := (armor c) @ i / ((armor c) @ i + flit 100 1) in
  wr dmg_inout i (dmg_inout @ i * (f1 - mit)).

Definition combat_armor_mitigation (c : CombatSoA F) (dmg_inout : list F)
    : list F :=
  for_loop (combat_count c) (combat_armor_mitigation_body c) dmg_inout.

(** Returns the value stored in [*hit_out]. *)
Definition combat_hit_roll (c : CombatSoA F) (attacker : Z) : Z :=
  if out_of_range attacker (combat_count c) then 0%Z else
  let seed := wrap32 (wrap32 (attacker + 1) * 2246822519) in
  if fst (lcg_float seed) <? (hit_chance c) @ attacker then 1%Z else 0%Z.

(** Returns the value stored in [*dmg_mult_out]. *)
Definition combat_crit_roll (c : CombatSoA F) (attacker : Z) : F :=
  if out_of_range attacker (combat_count c) then f1 else
  let seed := wrap32 (wrap32 (attacker + 1) * 3266489917) in
  if fst (lcg_float seed) <? (crit_chance c) @ attacker
  then (crit_mult c) @ attacker else f1.

Definition combat_morale_boost (c : CombatSoA F) (unit : Z) (amount : F)
    : CombatSoA F :=
  if out_of_range unit (combat_count c) then c else
  set_morale c (wr (morale c) unit
    (clampf ((morale c) @ unit + amount) f0 f1)).

Definition combat_siege_damage (c : CombatSoA F) (building : Z)
    (siege_power dt : F) : CombatSoA F :=
  if out_of_range building (combat_count c) then c else
  set_hp c (wr (hp c) building
    (clampf ((hp c) @ building - siege_power * dt) f0 (max_hp c) @ building)).

(** *** 4. Economy and resources *)

(** The transferred amount of [econ_trade]: the local [actual]. *)
Definition trade_actual (amount res : F) : F :=
  if amount <? res then amount else res.

(** [seller] and [buyer] are pointers into one heap of economy
    containers and may be the same container; every statement reads the
    object its pointer denotes at that moment. *)
Definition econ_trade (h : Heap (EconSoA F)) (seller : nat) (si : Z)
    (buyer : nat) (bi : Z) (amount : F) : Heap (EconSoA F) :=
  match h !! seller, h !! buyer with
  | Some s, Some b =>
      if out_of_range si (econ_count s) then h else
      if out_of_range bi (econ_count b) then h else
      let actual := trade_actual amount (resource s) @ si in
      let h1 := modify h seller (fun s =>
        set_resource s (wr (resource s) si
          (clampf ((resource s) @ si - actual) f0 (max_resource s) @ si))) in
      let h2 := modify h1 buyer (fun b =>
        set_resource b (wr (resource b) bi
          (clampf ((resource b) @ bi + actual) f0 (max_resource b) @ bi))) in
      let h3 := modify h2 seller (fun s =>
        set_trade_volume s (wr (trade_volume s) si
          ((trade_volume s) @ si + actual))) in
      modify h3 buyer (fun b =>
        set_trade_volume b (wr (trade_volume b) bi
          ((trade_volume b) @ bi + actual)))
  | _, _ => h
  end.

(** *** 7. Divine powers *)

(** Returns the container and the value stored in [*can_cast]. *)
Definition divine_meteor_cost (d : DivineSoA F) (god : Z) : DivineSoA F * Z :=
  if out_of_range god (divine_count d) then (d, 0%Z) else
  if (energy d) @ god >=? (meteor_cost d) @ god then
    (set_energy d (wr (energy d) god
       (clampf ((energy d) @ god - (meteor_cost d) @ god) f0 (energy_cap d) @ god)),
     1%Z)
  else (d, 0%Z).

Definition divine_heal_apply (d : DivineSoA F) (c : CombatSoA F)
    (god target_unit : Z) : DivineSoA F * CombatSoA F :=
  if out_of_range god (divine_count d) then (d, c) else
  if out_of_range target_unit (combat_count c) then (d, c) else
  let c' := set_hp c (wr (hp c) target_unit
    (clampf ((hp c) @ target_unit + (heal_amount d) @ god)
            f0 (max_hp c) @ target_unit)) in
  let d' := set_heal_amount d (wr (heal_amount d) god
    (clampf ((heal_amount d) @ god * (f1 - (heal_decay d) @ god))
            f1 (flit 1000000 1))) in
  (d', c').

Definition divine_terraform_cost (d : DivineSoA F) (god tiles : Z)
    : DivineSoA F * Z :=
  if out_of_range god (divine_count d) then (d, 0%Z) else
  let total := (terraform_cost d) @ god * of_int tiles in
  if (energy d) @ god >=? total then
    (set_energy d (wr (energy d) god
       (clampf ((energy d) @ god - total) f0 (energy_cap d) @ god)),
     1%Z)
  else (d, 0%Z).

Definition divine_smite (d : DivineSoA F) (c : CombatSoA F) (god target : Z)
    : DivineSoA F * CombatSoA F :=
  if out_of_range god (divine_count d) then (d, c) else
  if out_of_range target (combat_count c) then (d, c) else
  let dmg := (smite_power d) @ god - (armor c) @ target * flit 1 4 in
  let dmg := if dmg <? f1 then f1 else dmg in
  let c' := set_hp c (wr (hp c) target
    (clampf ((hp c) @ target - dmg) f0 (max_hp c) @ target)) in
  let d' := set_energy d (wr (energy d) god
    (clampf ((energy d) @ god - (smite_power d) @ god * flit 1 10)
            f0 (energy_cap d) @ god)) in
  (d', c').

Definition divine_blessing (d : DivineSoA F) (c : CombatSoA F) (god target : Z)
    : DivineSoA F * CombatSoA F :=
  if out_of_range god (divine_count d) then (d, c) else
  if out_of_range target (combat_count c) then (d, c) else
  let mult := (blessing_mult d) @ god in
  let c1 := set_base_atk c (wr (base_atk c) target ((base_atk c) @ target * mult)) in
  let c2 := set_max_hp c1 (wr (max_hp c1) target ((max_hp c1) @ target * mult)) in
  let c3 := set_hp c2 (wr (hp c2) target
    (clampf ((hp c2) @ target * mult) f0 (max_hp c2) @ target)) in
  let d' := set_energy d (wr (energy d) god
    (clampf ((energy d) @ god - flit 10 1) f0 (energy_cap d) @ god)) in
  (d', c3).

(** *** 8. NPC psychology *)

Definition psych_threat_assess (p : PsychSoA F) (c : CombatSoA F)
    (npc threat_unit : Z) : PsychSoA F :=
  if out_of_range npc (psych_count p) then p else
  if out_of_range threat_unit (combat_count c) then p else
  let hp_frac := (hp c) @ threat_unit / ((max_hp c) @ threat_unit + f1) in
  let atk_norm := (base_atk c) @ threat_unit / flit 20 1 in
  let threat := clampf (hp_frac * atk_norm) f0 f1 in
  let p1 := set_threat_level p (wr (threat_level p) npc
    (clampf ((threat_level p) @ npc + threat * flit 3 10) f0 f1)) in
  set_fear p1 (wr (fear p1) npc
    (clampf ((fear p1) @ npc + threat * flit 1 10) f0 f1)).

Definition psych_loyalty_shift (p : PsychSoA F) (npc : Z)
    (event_loyalty_delta : F) : PsychSoA F :=
  if out_of_range npc (psych_count p) then p else
  let scaled := event_loyalty_delta
                * (flit 1 2 + flit 1 2 * (social_bond p) @ npc) in
  set_loyalty p (wr (loyalty p) npc
    (clampf ((loyalty p) @ npc + scaled) f0 f1)).

Definition psych_aggression_trigger (p : PsychSoA F) (npc : Z)
    (provocation : F) : PsychSoA F :=
  if out_of_range npc (psych_count p) then p else
  let rise := provocation * (f1 - (happiness p) @ npc) in
  set_aggression p (wr (aggression p) npc
    (clampf ((aggression p) @ npc + rise) f0 f1)).

(** *** 9. Progression and tech *)

Definition tech_golden_age_trigger (t : TechSoA F) (nation : Z)
    (threshold : F) : TechSoA F :=
  if out_of_range nation (tech_count t) then t else
  if ((culture t) @ nation >=? threshold)
     && ((golden_age_timer t) @ nation <=? f0) then
    let t1 := set_golden_age_timer t
                (wr (golden_age_timer t) nation (flit 500 1)) in
    set_golden_age_mult t1 (wr (golden_age_mult t1) nation (flit 2 1))
  else t.

Definition tech_diffusion (h : Heap (TechSoA F)) (src dst : nat)
    (si di : Z) (rate dt : F) : Heap (TechSoA F) :=
  match h !! src, h !! dst with
  | Some s, Some d =>
      if out_of_range si (tech_count s) then h else
      if out_of_range di (tech_count d) then h else
      modify h dst (fun d =>
        set_research_pts d (wr (research_pts d) di
          ((research_pts d) @ di + rate * (tech_level s) @ si * dt)))
  | _, _ => h
  end.

(** *** 10. Engine and end game *)

(** The locals [tech_norm] and [pop_pressure] of one iteration of
    [engine_stability_update]. *)
Definition stability_tech_norm (t : TechSoA F) (i : Z) : F :=
  if (i <? tech_count t)%Z
  then clampf ((tech_level t) @ i / flit 50 1) f0 f1
  else flit 1 2.

Definition stability_pop_pressure (p : PopSoA F) (i : Z) : F :=
  if (i <? pop_count p)%Z
  then clampf ((population p) @ i / ((carrying_cap p) @ i + f1)) f0 f1
  else f0.

(** The value one iteration stores into [stability[i]]. *)
Definition engine_stability_update_cell (entropy tech_norm pop_pressure : F) : F :=
  clampf ((f1 - entropy)
          * (flit 1 2 + flit 1 2 * tech_norm)
          * (f1 - flit 1 2 * pop_pressure))
         f0 f1.

Definition engine_stability_update_body (p : PopSoA F) (t : TechSoA F)
    (i : Z) (e : EngineSoA F) : EngineSoA F :=
  let tech_norm := stability_tech_norm t i in
  let pop_pressure := stability_pop_pressure p i in
  set_stability e (wr (stability e) i
    (engine_stability_update_cell (entropy e) @ i tech_norm pop_pressure)).

(** The definition in simulation.c names only [e] and [t] in its
    parameter list while its body reads [p]; the prototype in
    simulation.h has all three, and that is the signature taken here. *)
Definition engine_stability_update (e : EngineSoA F) (p : PopSoA F)
    (t : TechSoA F) : EngineSoA F :=
  for_loop (engine_count e) (engine_stability_update_body p t) e.

Definition engine_chaos_event (e : EngineSoA F) (faction : Z) : EngineSoA F :=
  if out_of_range faction (engine_count e) then e else
  let '(roll, s') := lcg_float (rd 0%Z (rng_state e) faction) in
  let e1 := set_rng_state e (wr (rng_state e) faction s') in
  if roll <? (entropy e1) @ faction then
    set_chaos_mult e1 (wr (chaos_mult e1) faction
      (clampf ((chaos_mult e1) @ faction * (f1 + roll)) f1 (flit 10 1)))
  else
    set_chaos_mult e1 (wr (chaos_mult e1) faction
      (clampf ((chaos_mult e1) @ faction * flit 99 100) f1 (flit 10 1))).

Definition engine_entropy_reset (e : EngineSoA F) (faction : Z) : EngineSoA F :=
  if out_of_range faction (engine_count e) then e else
  let e1 := set_entropy e (wr (entropy e) faction f0) in
  set_chaos_mult e1 (wr (chaos_mult e1) faction f1).

Definition engine_determinism_seed (e : EngineSoA F) (faction : Z) (seed : Z)
    : EngineSoA F :=
  if out_of_range faction (engine_count e) then e else
  set_rng_state e (wr (rng_state e) faction
    (if (seed =? 0)%Z then 1%Z else seed)).

(** *** Transforms that call into libm *)

Section Libm.
Variable sqrtf : F -> F.
Variable expf : F -> F.

(** The unclamped price of one pool: [base * sqrtf(demand / sup)]. *)
Definition market_price_raw (price demand supply : F) : F :=
  let sup := if supply >? f1 then supply else f1 in
  let base := if price >? f0 then price else f1 in
  base * sqrtf (demand / sup).

Definition econ_market_price_body (i : Z) (e : EconSoA F) : EconSoA F :=
  set_price e (wr (price e) i
    (clampf (market_price_raw (price e) @ i (demand e) @ i (supply e) @ i)
            (flit 1 100) MAX_PRICE)).

Definition econ_market_price (e : EconSoA F) : EconSoA F :=
  for_loop (econ_count e) econ_market_price_body e.

Definition tech_cost_exponent (level : F) : F :=
  clampf (level * flit 3 10) f0 (flit 20 1).

Definition tech_cost_scale_body (i : Z) (t : TechSoA F) : TechSoA F :=
  let exponent := tech_cost_exponent (tech_level t) @ i in
  set_tech_cost t (wr (tech_cost t) i (flit 100 1 * expf exponent)).

Definition tech_cost_scale (t : TechSoA F) : TechSoA F :=
  for_loop (tech_count t) tech_cost_scale_body t.

End Libm.

End Simulation.

(** ** 6. Movement and AI (binary32 only: bit-level inverse square root) *)

Module Movement.
Import Binary32.

Local Open Scope float_scope.

Local Notation "col @ i" := (rd (f0 (F := float32)) col i)
  (at level 9, i at level 9).

(** Quake-style inverse square root: the float's bits are reinterpreted
    as a [uint32_t], the subtraction wraps modulo 2^32. *)
Definition fast_inv_sqrt_scalar (x : float32) : float32 :=
  let i := to_bits x in
  let i := wrap32 (0x5f3759df - Z.shiftr i 1) in
  let y := of_bits i in
  y * (flit 3 2 - flit 1 2 * x * y * y).

Definition move_seek_target (m : MoveSoA float32) (unit : Z)
    (tx ty strength : float32) : MoveSoA float32 :=
  if out_of_range unit (move_count m) then m else
  let dx := tx - (pos_x m) @ unit in
  let dy := ty - (pos_y m) @ unit in
  let d2 := dx * dx + dy * dy in
  if d2 <? flit 1 1000000 then m else
  let inv_d := fast_inv_sqrt_scalar d2 in
  let m1 := set_acc_x m (wr (acc_x m) unit
              ((acc_x m) @ unit + strength * dx * inv_d)) in
  set_acc_y m1 (wr (acc_y m1) unit
              ((acc_y m1) @ unit + strength * dy * inv_d)).

Definition move_flee_target (m : MoveSoA float32) (unit : Z)
    (tx ty strength : float32) : MoveSoA float32 :=
  move_seek_target m unit tx ty (SFopp strength).

Definition move_astar_heuristic (m : MoveSoA float32) (unit : Z)
    (gx gy : float32) : MoveSoA float32 :=
  if out_of_range unit (move_count m) then m else
  let dx := gx - (pos_x m) @ unit in
  let dy := gy - (pos_y m) @ unit in
  set_h_cost m (wr (h_cost m) unit (sqrt (dx * dx + dy * dy))).

Definition move_arrival_brake (m : MoveSoA float32) (unit : Z)
    (tx ty slow_radius : float32) : MoveSoA float32 :=
  if out_of_range unit (move_count m) then m else
  let dx := tx - (pos_x m) @ unit in
  let dy := ty - (pos_y m) @ unit in
  let dist := sqrt (dx * dx + dy * dy) in
  if (dist <? slow_radius) && (dist >? flit 1 1000000) then
    let factor := dist / slow_radius in
    let m1 := set_vel_x m (wr (vel_x m) unit ((vel_x m) @ unit * factor)) in
    let m2 := set_vel_y m1 (wr (vel_y m1) unit ((vel_y m1) @ unit * factor)) in
    set_speed m2 (wr (speed m2) unit ((speed m2) @ unit * factor))
  else m.

End Movement.

(** ** Container invariants, one-row containers, the spec's formulas *)

Section Shapes.
Context {F : Type} `{FieldOps F}.

Local Open Scope float_scope.

(** Every listed column holds at least [n] elements, so that the
    indices [0 .. n-1] the transforms visit are inside the arrays. *)
Definition cols_cover (n : Z) (cols : list (list F)) : Prop :=
  Forall (fun col => (n <= Z.of_nat (length col))%Z) cols.

Definition pop_wf (p : PopSoA F) : Prop :=
  cols_cover (pop_count p)
    [population p; carrying_cap p; growth_rate p; susceptible p;
     infected p; recovered p; beta p; gamma_rec p].

Definition faith_wf (f : FaithSoA F) : Prop :=
  cols_cover (faith_count f) [miracle_chance f; divine_favor f; mana f].

Definition combat_wf (c : CombatSoA F) : Prop :=
  cols_cover (combat_count c) [base_atk c; armor c; hp c; max_hp c; morale c].

Definition econ_wf (e : EconSoA F) : Prop :=
  cols_cover (econ_count e)
    [resource e; max_resource e; price e; demand e; supply e; trade_volume e].

Definition divine_wf (d : DivineSoA F) : Prop :=
  cols_cover (divine_count d)
    [energy d; energy_cap d; meteor_cost d; terraform_cost d;
     smite_power d; blessing_mult d].

Definition tech_wf (t : TechSoA F) : Prop :=
  cols_cover (tech_count t) [tech_level t; tech_cost t].


(** Containers with [count = 1]; the columns not named hold 0. *)
Definition pop_row (n k r s inf rec b g : F) : PopSoA F :=
  {| population := [n]; carrying_cap := [k]; growth_rate := [r];
     susceptible := [s]; infected := [inf]; recovered := [rec];
     beta := [b]; gamma_rec := [g]; food_supply := [f0];
     food_threshold := [f0]; age_young := [f0]; age_adult := [f0];
     age_elder := [f0]; pop_count := 1 |}.

Definition faith_row (chance favor : F) : FaithSoA F :=
  {| faith_level := [f0]; mana := [f0]; mana_regen := [f0];
     heresy_rate := [f0]; miracle_chance := [chance];
     devotee_count := [f0]; temple_count := [f0]; schism_risk := [f0];
     conversion_rate := [f0]; divine_favor := [favor]; faith_count := 1 |}.

Definition combat_row (atk arm hitp maxhp mor : F) : CombatSoA F :=
  {| base_atk := [atk]; armor := [arm]; hp := [hitp]; max_hp := [maxhp];
     morale := [mor]; morale_decay := [f0]; hit_chance := [f0];
     crit_chance := [f0]; crit_mult := [f0]; rout_threshold := [f0];
     combat_count := 1 |}.

Definition econ_row (res maxres pr dem sup vol : F) : EconSoA F :=
  {| resource := [res]; max_resource := [maxres]; gather_rate := [f0];
     depletion_rate := [f0]; price := [pr]; demand := [dem];
     supply := [sup]; tax_rate := [f0]; tax_collected := [f0];
     trade_volume := [vol]; econ_count := 1 |}.

Definition divine_row (en cap mcost tcost smite bless : F) : DivineSoA F :=
  {| energy := [en]; energy_cap := [cap]; regen_rate := [f0];
     meteor_cost := [mcost]; heal_amount := [f0]; heal_decay := [f0];
     terraform_cost := [tcost]; smite_power := [smite];
     blessing_mult := [bless]; cooldown := [f0]; divine_count := 1 |}.

Definition tech_row (level : F) : TechSoA F :=
  {| research_pts := [f0]; research_rate := [f0]; tech_cost := [f0];
     tech_level := [level]; golden_age_mult := [f0];
     golden_age_timer := [f0]; culture := [f0]; culture_spread := [f0];
     era := [f0]; pop_bonus := [f0]; tech_count := 1 |}.

Definition engine_row (ent : F) : EngineSoA F :=
  {| entropy := [ent]; entropy_rate := [f0]; grid_x := [f0];
     grid_y := [f0]; inv_sqrt_val := [f0]; inv_sqrt_out := [f0];
     stability := [f0]; end_timer := [f0]; victory_pts := [f0];
     chaos_mult := [f0]; rng_state := [1%Z]; engine_count := 1 |}.

(** The price update in the specification's words:
    price * sqrt(demand / max(supply, 1)), clamped to the ceiling. *)
Definition market_price_spec (sqrtf : F -> F) (price demand supply : F) : F :=
  let sup := if supply >? f1 then supply else f1 in
  let v := price * sqrtf (demand / sup) in
  if v >? MAX_PRICE then MAX_PRICE else v.

(** Stability in the specification's words: the three factors, each
    clamped to [0,1] before they are combined (the combination itself
    is the source's). *)
Definition stability_spec (entropy tech_norm pop_pressure : F) : F :=
  clampf (clampf (f1 - entropy) f0 f1
          * (flit 1 2 + flit 1 2 * clampf tech_norm f0 f1)
          * (f1 - flit 1 2 * clampf pop_pressure f0 f1))
         f0 f1.

End Shapes.

(** A stand-in for libm's [expf] on the clamped exponent range: the
    binary32 neighbours of e^0, e^10 and e^20, stepwise. *)
Definition expf_steps (x : Binary32.float32) : Binary32.float32 :=
  if Binary32.ltb x (Binary32.lit 10 1) then Binary32.lit 1 1
  else if Binary32.ltb x (Binary32.lit 20 1) then Binary32.lit 22026 1
  else Binary32.lit 485165184 1.

(** ** Further transforms of simulation.c

    The remaining containers, stores and transforms used by the second
    part of the properties.  Array arguments ([const float *], [int *])
    are arrays of their own, distinct from the container's columns. *)

Record EnvSoA {F : Type} := {
  temperature : list F;  temp_target : list F;  rainfall : list F;
  humidity : list F;  wind_x : list F;  wind_y : list F;
  fire_intensity : list F;  fuel : list F;  elevation : list F;
  pressure : list F;
  env_count : Z
}.
Arguments EnvSoA : clear implicits.

Section MoreSetters.
Context {F : Type}.

Definition set_food_threshold (p : PopSoA F) (v : list F) : PopSoA F :=
  {| population := population p; carrying_cap := carrying_cap p;
     growth_rate := growth_rate p; susceptible := susceptible p;
     infected := infected p; recovered := recovered p; beta := beta p;
     gamma_rec := gamma_rec p; food_supply := food_supply p;
     food_threshold := v; age_young := age_young p;
     age_adult := age_adult p; age_elder := age_elder p;
     pop_count := pop_count p |}.

Definition set_age_young (p : PopSoA F) (v : list F) : PopSoA F :=
  {| population := population p; carrying_cap := carrying_cap p;
     growth_rate := growth_rate p; susceptible := susceptible p;
     infected := infected p; recovered := recovered p; beta := beta p;
     gamma_rec := gamma_rec p; food_supply := food_supply p;
     food_threshold := food_threshold p; age_young := v;
     age_adult := age_adult p; age_elder := age_elder p;
     pop_count := pop_count p |}.

Definition set_age_adult (p : PopSoA F) (v : list F) : PopSoA F :=
  {| population := population p; carrying_cap := carrying_cap p;
     growth_rate := growth_rate p; susceptible := susceptible p;
     infected := infected p; recovered := recovered p; beta := beta p;
     gamma_rec := gamma_rec p; food_supply := food_supply p;
     food_threshold := food_threshold p; age_young := age_young p;
     age_adult := v; age_elder := age_elder p;
     pop_count := pop_count p |}.

Definition set_age_elder (p : PopSoA F) (v : list F) : PopSoA F :=
  {| population := population p; carrying_cap := carrying_cap p;
     growth_rate := growth_rate p; susceptible := susceptible p;
     infected := infected p; recovered := recovered p; beta := beta p;
     gamma_rec := gamma_rec p; food_supply := food_supply p;
     food_threshold := food_threshold p; age_young := age_young p;
     age_adult := age_adult p; age_elder := v;
     pop_count := pop_count p |}.

Definition set_supply (e : EconSoA F) (v : list F) : EconSoA F :=
  {| resource := resource e; max_resource := max_resource e;
     gather_rate := gather_rate e; depletion_rate := depletion_rate e;
     price := price e; demand := demand e; supply := v;
     tax_rate := tax_rate e; tax_collected := tax_collected e;
     trade_volume := trade_volume e; econ_count := econ_count e |}.

Definition set_tax_collected (e : EconSoA F) (v : list F) : EconSoA F :=
  {| resource := resource e; max_resource := max_resource e;
     gather_rate := gather_rate e; depletion_rate := depletion_rate e;
     price := price e; demand := demand e; supply := supply e;
     tax_rate := tax_rate e; tax_collected := v;
     trade_volume := trade_volume e; econ_count := econ_count e |}.

Definition set_fire_intensity (e : EnvSoA F) (v : list F) : EnvSoA F :=
  {| temperature := temperature e; temp_target := temp_target e;
     rainfall := rainfall e; humidity := humidity e; wind_x := wind_x e;
     wind_y := wind_y e; fire_intensity := v; fuel := fuel e;
     elevation := elevation e; pressure := pressure e;
     env_count := env_count e |}.

Definition set_fuel (e : EnvSoA F) (v : list F) : EnvSoA F :=
  {| temperature := temperature e; temp_target := temp_target e;
     rainfall := rainfall e; humidity := humidity e; wind_x := wind_x e;
     wind_y := wind_y e; fire_intensity := fire_intensity e; fuel := v;
     elevation := elevation e; pressure := pressure e;
     env_count := env_count e |}.

Definition set_era (t : TechSoA F) (v : list F) : TechSoA F :=
  {| research_pts := research_pts t; research_rate := research_rate t;
     tech_cost := tech_cost t; tech_level := tech_level t;
     golden_age_mult := golden_age_mult t;
     golden_age_timer := golden_age_timer t; culture := culture t;
     culture_spread := culture_spread t; era := v;
     pop_bonus := pop_bonus t; tech_count := tech_count t |}.

Definition set_end_timer (e : EngineSoA F) (v : list F) : EngineSoA F :=
  {| entropy := entropy e; entropy_rate := entropy_rate e;
     grid_x := grid_x e; grid_y := grid_y e;
     inv_sqrt_val := inv_sqrt_val e; inv_sqrt_out := inv_sqrt_out e;
     stability := stability e; end_timer := v;
     victory_pts := victory_pts e; chaos_mult := chaos_mult e;
     rng_state := rng_state e; engine_count := engine_count e |}.

Definition set_faith_level (f : FaithSoA F) (v : list F) : FaithSoA F :=
  {| faith_level := v; mana := mana f; mana_regen := mana_regen f;
     heresy_rate := heresy_rate f; miracle_chance := miracle_chance f;
     devotee_count := devotee_count f; temple_count := temple_count f;
     schism_risk := schism_risk f; conversion_rate := conversion_rate f;
     divine_favor := divine_favor f; faith_count := faith_count f |}.

Definition set_devotee_count (f : FaithSoA F) (v : list F) : FaithSoA F :=
  {| faith_level := faith_level f; mana := mana f; mana_regen := mana_regen f;
     heresy_rate := heresy_rate f; miracle_chance := miracle_chance f;
     devotee_count := v; temple_count := temple_count f;
     schism_risk := schism_risk f; conversion_rate := conversion_rate f;
     divine_favor := divine_favor f; faith_count := faith_count f |}.

Definition set_schism_risk (f : FaithSoA F) (v : list F) : FaithSoA F :=
  {| faith_level := faith_level f; mana := mana f; mana_regen := mana_regen f;
     heresy_rate := heresy_rate f; miracle_chance := miracle_chance f;
     devotee_count := devotee_count f; temple_count := temple_count f;
     schism_risk := v; conversion_rate := conversion_rate f;
     divine_favor := divine_favor f; faith_count := faith_count f |}.

Definition set_divine_favor (f : FaithSoA F) (v : list F) : FaithSoA F :=
  {| faith_level := faith_level f; mana := mana f; mana_regen := mana_regen f;
     heresy_rate := heresy_rate f; miracle_chance := miracle_chance f;
     devotee_count := devotee_count f; temple_count := temple_count f;
     schism_risk := schism_risk f; conversion_rate := conversion_rate f;
     divine_favor := v; faith_count := faith_count f |}.

Definition set_happiness (p : PsychSoA F) (v : list F) : PsychSoA F :=
  {| happiness := v; fear := fear p; loyalty := loyalty p;
     aggression := aggression p; utility_work := utility_work p;
     utility_fight := utility_fight p; utility_flee := utility_flee p;
     threat_level := threat_level p; memory_decay := memory_decay p;
     social_bond := social_bond p; psych_count := psych_count p |}.

Definition set_social_bond (p : PsychSoA F) (v : list F) : PsychSoA F :=
  {| happiness := happiness p; fear := fear p; loyalty := loyalty p;
     aggression := aggression p; utility_work := utility_work p;
     utility_fight := utility_fight p; utility_flee := utility_flee p;
     threat_level := threat_level p; memory_decay := memory_decay p;
     social_bond := v; psych_count := psych_count p |}.

End MoreSetters.

Section Transforms.
Context {F : Type} `{FieldOps F}.

Local Open Scope float_scope.

Local Notation "col @ i" := (rd f0 col i) (at level 9, i at level 9).

(** *** 1. Population dynamics, continued *)

Definition pop_starvation_body (dt : F) (i : Z) (p : PopSoA F) : PopSoA F :=
  let deficit := (food_threshold p) @ i - (food_supply p) @ i in
  if deficit <=? f0 then p else
  let frac := deficit / (food_threshold p) @ i in
  set_population p (wr (population p) i
    (clampf ((population p) @ i - (population p) @ i * frac * flit 5 100 * dt)
            f0 (carrying_cap p) @ i)).

Definition pop_starvation (p : PopSoA F) (dt : F) : PopSoA F :=
  for_loop (pop_count p) (pop_starvation_body dt) p.

Definition pop_age_cohort_shift_body (dt : F) (i : Z) (p : PopSoA F)
    : PopSoA F :=
  let shift_rate := flit 2 1000 in
  let young := (age_young p) @ i in
  let adult := (age_adult p) @ i in
  let elder := (age_elder p) @ i in
  let ya := young * shift_rate * dt in
  let ae := adult * shift_rate * dt in
  let p1 := set_age_young p (wr (age_young p) i (clampf (young - ya) f0 f1)) in
  let p2 := set_age_adult p1 (wr (age_adult p1) i
              (clampf (adult + ya - ae) f0 f1)) in
  set_age_elder p2 (wr (age_elder p2) i (clampf (elder + ae) f0 f1)).

Definition pop_age_cohort_shift (p : PopSoA F) (dt : F) : PopSoA F :=
  for_loop (pop_count p) (pop_age_cohort_shift_body dt) p.

Definition pop_birth_rate_body (dt : F) (i : Z) (p : PopSoA F) : PopSoA F :=
  let births := flit 3 100 * (age_adult p) @ i * (population p) @ i * dt in
  let p1 := set_age_young p (wr (age_young p) i
    (clampf ((age_young p) @ i + births / ((population p) @ i + f1)) f0 f1)) in
  set_population p1 (wr (population p1) i
    (clampf ((population p1) @ i + births) f0 (carrying_cap p1) @ i)).

Definition pop_birth_rate (p : PopSoA F) (dt : F) : PopSoA F :=
  for_loop (pop_count p) (pop_birth_rate_body dt) p.

Definition pop_death_rate_body (dt : F) (i : Z) (p : PopSoA F) : PopSoA F :=
  let rate := flit 1 100 + flit 4 100 * (age_elder p) @ i in
  let deaths := rate * (population p) @ i * dt in
  set_population p (wr (population p) i
    (clampf ((population p) @ i - deaths) f0 (carrying_cap p) @ i)).

Definition pop_death_rate (p : PopSoA F) (dt : F) : PopSoA F :=
  for_loop (pop_count p) (pop_death_rate_body dt) p.

Definition pop_carrying_cap_pressure_body (i : Z) (p : PopSoA F) : PopSoA F :=
  let p1 := if (population p) @ i >? (carrying_cap p) @ i
            then set_population p (wr (population p) i (carrying_cap p) @ i)
            else p in
  set_food_threshold p1 (wr (food_threshold p1) i
    ((carrying_cap p1) @ i * flit 1 10)).

Definition pop_carrying_cap_pressure (p : PopSoA F) : PopSoA F :=
  for_loop (pop_count p) pop_carrying_cap_pressure_body p.

Definition pop_epidemic_mortality_body (mortality_rate dt : F) (i : Z)
    (p : PopSoA F) : PopSoA F :=
  let deaths := mortality_rate * (infected p) @ i * (population p) @ i * dt in
  set_population p (wr (population p) i
    (clampf ((population p) @ i - deaths) f0 (carrying_cap p) @ i)).

Definition pop_epidemic_mortality (p : PopSoA F) (mortality_rate dt : F)
    : PopSoA F :=
  for_loop (pop_count p) (pop_epidemic_mortality_body mortality_rate dt) p.

Definition pop_recovery_bonus_body (dt : F) (i : Z) (p : PopSoA F)
    : PopSoA F :=
  let gain := flit 5 1000 * (recovered p) @ i * (population p) @ i * dt in
  set_population p (wr (population p) i
    (clampf ((population p) @ i + gain) f0 (carrying_cap p) @ i)).

Definition pop_recovery_bonus (p : PopSoA F) (dt : F) : PopSoA F :=
  for_loop (pop_count p) (pop_recovery_bonus_body dt) p.

(** *** 2. Faith and religion, continued *)

Definition faith_generate_body (dt : F) (i : Z) (f : FaithSoA F) : FaithSoA F :=
  let gain := (devotee_count f) @ i
              * (f1 + (temple_count f) @ i * flit 1 10) * flit 1 1000 * dt in
  set_faith_level f (wr (faith_level f) i
    (clampf ((faith_level f) @ i + gain) f0 f1)).

Definition faith_generate (f : FaithSoA F) (dt : F) : FaithSoA F :=
  for_loop (faith_count f) (faith_generate_body dt) f.

Definition faith_mana_regen_body (dt : F) (i : Z) (f : FaithSoA F)
    : FaithSoA F :=
  let gain := (mana_regen f) @ i * (divine_favor f) @ i * dt in
  set_mana f (wr (mana f) i (clampf ((mana f) @ i + gain) f0 (flit 1000 1))).

Definition faith_mana_regen (f : FaithSoA F) (dt : F) : FaithSoA F :=
  for_loop (faith_count f) (faith_mana_regen_body dt) f.

Definition faith_conversion_tick_body (dt : F) (i : Z) (f : FaithSoA F)
    : FaithSoA F :=
  let pop_cap := flit 1000 1 in
  let target := pop_cap * (faith_level f) @ i in
  let delta := (conversion_rate f) @ i * (target - (devotee_count f) @ i) * dt in
  set_devotee_count f (wr (devotee_count f) i
    (clampf ((devotee_count f) @ i + delta) f0 pop_cap)).

Definition faith_conversion_tick (f : FaithSoA F) (dt : F) : FaithSoA F :=
  for_loop (faith_count f) (faith_conversion_tick_body dt) f.

Definition faith_schism_accumulate_body (dt : F) (i : Z) (f : FaithSoA F)
    : FaithSoA F :=
  let rise := (f1 - (faith_level f) @ i) * flit 1 100 * dt in
  set_schism_risk f (wr (schism_risk f) i
    (clampf ((schism_risk f) @ i + rise) f0 f1)).

Definition faith_schism_accumulate (f : FaithSoA F) (dt : F) : FaithSoA F :=
  for_loop (faith_count f) (faith_schism_accumulate_body dt) f.

Definition faith_divine_favor_update_body (piety_delta : F) (i : Z)
    (f : FaithSoA F) : FaithSoA F :=
  set_divine_favor f (wr (divine_favor f) i
    (clampf ((divine_favor f) @ i + piety_delta) f0 f1)).

Definition faith_divine_favor_update (f : FaithSoA F) (piety_delta : F)
    : FaithSoA F :=
  for_loop (faith_count f) (faith_divine_favor_update_body piety_delta) f.

Definition faith_devotee_update_body (dt : F) (i : Z) (f : FaithSoA F)
    : FaithSoA F :=
  let target_scale := flit 1000 1 in
  let drift_rate := flit 5 100 in
  let target := (faith_level f) @ i * target_scale in
  let fa := set_devotee_count f (wr (devotee_count f) i
    ((devotee_count f) @ i
     + drift_rate * (target - (devotee_count f) @ i) * dt)) in
  set_devotee_count fa (wr (devotee_count fa) i
    (clampf (devotee_count fa) @ i f0 target_scale)).

Definition faith_devotee_update (f : FaithSoA F) (dt : F) : FaithSoA F :=
  for_loop (faith_count f) (faith_devotee_update_body dt) f.

(** *** 3. Combat and warfare, continued *)

Definition combat_hp_regen_body (regen_rate dt : F) (i : Z) (c : CombatSoA F)
    : CombatSoA F :=
  let heal := regen_rate * (max_hp c) @ i * dt in
  set_hp c (wr (hp c) i (clampf ((hp c) @ i + heal) f0 (max_hp c) @ i)).

Definition combat_hp_regen (c : CombatSoA F) (regen_rate dt : F)
    : CombatSoA F :=
  for_loop (combat_count c) (combat_hp_regen_body regen_rate dt) c.

(** *** 4. Economy and resources, continued *)

Definition econ_gather_body (dt : F) (i : Z) (e : EconSoA F) : EconSoA F :=
  set_resource e (wr (resource e) i
    (clampf ((resource e) @ i + (gather_rate e) @ i * dt)
            f0 (max_resource e) @ i)).

Definition econ_gather (e : EconSoA F) (dt : F) : EconSoA F :=
  for_loop (econ_count e) (econ_gather_body dt) e.

Definition econ_deplete_body (dt : F) (i : Z) (e : EconSoA F) : EconSoA F :=
  let e1 := set_resource e (wr (resource e) i
    (clampf ((resource e) @ i - (depletion_rate e) @ i * dt)
            f0 (max_resource e) @ i)) in
  set_supply e1 (wr (supply e1) i (resource e1) @ i).

Definition econ_deplete (e : EconSoA F) (dt : F) : EconSoA F :=
  for_loop (econ_count e) (econ_deplete_body dt) e.

Definition econ_collect_tax_body (population : list F) (i : Z) (e : EconSoA F)
    : EconSoA F :=
  let tax := (resource e) @ i * (tax_rate e) @ i * population @ i
             * flit 1 1000 in
  let e1 := set_tax_collected e (wr (tax_collected e) i
              ((tax_collected e) @ i + tax)) in
  set_resource e1 (wr (resource e1) i
    (clampf ((resource e1) @ i - tax) f0 (max_resource e1) @ i)).

Definition econ_collect_tax (e : EconSoA F) (population : list F)
    : EconSoA F :=
  for_loop (econ_count e) (econ_collect_tax_body population) e.

Definition econ_resource_cap_body (i : Z) (e : EconSoA F) : EconSoA F :=
  set_resource e (wr (resource e) i
    (clampf (resource e) @ i f0 (max_resource e) @ i)).

Definition econ_resource_cap (e : EconSoA F) : EconSoA F :=
  for_loop (econ_count e) econ_resource_cap_body e.

(** The value one iteration stores into [output_mult[i]]. *)
Definition scarcity_cell (res maxres : F) : F :=
  let cap := if maxres >? f0 then maxres else f1 in
  clampf (res / cap) f0 f1.

Definition econ_scarcity_penalty_body (e : EconSoA F) (i : Z)
    (output_mult : list F) : list F :=
  wr output_mult i (scarcity_cell (resource e) @ i (max_resource e) @ i).

Definition econ_scarcity_penalty (e : EconSoA F) (output_mult : list F)
    : list F :=
  for_loop (econ_count e) (econ_scarcity_penalty_body e) output_mult.

Definition econ_supply_shock_body (keep : F) (i : Z) (e : EconSoA F)
    : EconSoA F :=
  let e1 := set_resource e (wr (resource e) i ((resource e) @ i * keep)) in
  set_supply e1 (wr (supply e1) i (resource e1) @ i).

Definition econ_supply_shock (e : EconSoA F) (shock_factor : F) : EconSoA F :=
  let keep := clampf (f1 - shock_factor) f0 f1 in
  for_loop (econ_count e) (econ_supply_shock_body keep) e.

(** *** 5. Environment and weather *)

Definition env_fire_consume_body (dt : F) (i : Z) (e : EnvSoA F) : EnvSoA F :=
  let consume_rate := flit 1 10 in
  let decay_rate := flit 1 100 in
  if (fire_intensity e) @ i <=? f0 then e else
  let burned := consume_rate * (fire_intensity e) @ i * dt in
  let e1 := set_fuel e (wr (fuel e) i
              (clampf ((fuel e) @ i - burned) f0 f1)) in
  if (fuel e1) @ i <=? f0 then
    set_fire_intensity e1 (wr (fire_intensity e1) i f0)
  else
    set_fire_intensity e1 (wr (fire_intensity e1) i
      (clampf ((fire_intensity e1) @ i - decay_rate * dt) f0 f1)).

Definition env_fire_consume (e : EnvSoA F) (dt : F) : EnvSoA F :=
  for_loop (env_count e) (env_fire_consume_body dt) e.

Definition env_drought_check_body (e : EnvSoA F) (threshold : F) (i : Z)
    (drought_flags : list Z) : list Z :=
  wr drought_flags i (if (rainfall e) @ i <? threshold then 1%Z else 0%Z).

Definition env_drought_check (e : EnvSoA F) (threshold : F)
    (drought_flags : list Z) : list Z :=
  for_loop (env_count e) (env_drought_check_body e threshold) drought_flags.

Definition env_flood_check_body (e : EnvSoA F) (threshold : F) (i : Z)
    (flood_flags : list Z) : list Z :=
  wr flood_flags i (if (rainfall e) @ i >? threshold then 1%Z else 0%Z).

Definition env_flood_check (e : EnvSoA F) (threshold : F)
    (flood_flags : list Z) : list Z :=
  for_loop (env_count e) (env_flood_check_body e threshold) flood_flags.

(** *** 7. Divine powers, continued *)

Definition divine_energy_cap_body (i : Z) (d : DivineSoA F) : DivineSoA F :=
  set_energy d (wr (energy d) i
    (clampf (energy d) @ i f0 (energy_cap d) @ i)).

Definition divine_energy_cap (d : DivineSoA F) : DivineSoA F :=
  for_loop (divine_count d) divine_energy_cap_body d.

(** *** 8. NPC psychology, continued *)

Definition psych_morale_from_psych_body (p : PsychSoA F) (i : Z)
    (c : CombatSoA F) : CombatSoA F :=
  set_morale c (wr (morale c) i
    (clampf ((happiness p) @ i * (f1 - (fear p) @ i) * (loyalty p) @ i)
            f0 f1)).

Definition psych_morale_from_psych (p : PsychSoA F) (c : CombatSoA F)
    : CombatSoA F :=
  let n := if (psych_count p <? combat_count c)%Z
           then psych_count p else combat_count c in
  for_loop n (psych_morale_from_psych_body p) c.

Definition psych_utility_evaluate_body (i : Z) (p : PsychSoA F) : PsychSoA F :=
  let uw := (utility_work p) @ i in
  let uf := (utility_fight p) @ i in
  let ul := (utility_flee p) @ i in
  if (ul >? uf) && (ul >? uw) then
    set_aggression p (wr (aggression p) i
      (clampf ((aggression p) @ i - flit 1 10) f0 f1))
  else if uf >? uw then
    set_aggression p (wr (aggression p) i
      (clampf ((aggression p) @ i + flit 5 100) f0 f1))
  else p.

Definition psych_utility_evaluate (p : PsychSoA F) : PsychSoA F :=
  for_loop (psych_count p) psych_utility_evaluate_body p.

Definition psych_fear_decay_body (dt : F) (i : Z) (p : PsychSoA F)
    : PsychSoA F :=
  let k := (memory_decay p) @ i * dt in
  set_fear p (wr (fear p) i (clampf ((fear p) @ i * (f1 - k)) f0 f1)).

Definition psych_fear_decay (p : PsychSoA F) (dt : F) : PsychSoA F :=
  for_loop (psych_count p) (psych_fear_decay_body dt) p.

Definition psych_happiness_update_body (e : EconSoA F) (i : Z)
    (p : PsychSoA F) : PsychSoA F :=
  let cap := if (max_resource e) @ i >? f0 then (max_resource e) @ i else f1 in
  let ratio := clampf ((resource e) @ i / cap) f0 f1 in
  let happy := flit 1 2 * (f1 + ratio - (fear p) @ i) in
  set_happiness p (wr (happiness p) i
    (clampf ((happiness p) @ i * flit 9 10 + happy * flit 1 10) f0 f1)).

(** The loop runs while [i < p->count && i < e->count]; neither count
    changes, so it runs up to the smaller one. *)
Definition psych_happiness_update (p : PsychSoA F) (e : EconSoA F)
    : PsychSoA F :=
  let n := if (psych_count p <? econ_count e)%Z
           then psych_count p else econ_count e in
  for_loop n (psych_happiness_update_body e) p.

Definition psych_social_bond_update_body (dt : F) (i : Z) (p : PsychSoA F)
    : PsychSoA F :=
  let delta := ((loyalty p) @ i - flit 1 2) * flit 1 100 * dt in
  set_social_bond p (wr (social_bond p) i
    (clampf ((social_bond p) @ i + delta) f0 f1)).

Definition psych_social_bond_update (p : PsychSoA F) (dt : F) : PsychSoA F :=
  for_loop (psych_count p) (psych_social_bond_update_body dt) p.

Definition psych_memory_fade_body (dt : F) (i : Z) (p : PsychSoA F)
    : PsychSoA F :=
  let k := (memory_decay p) @ i * dt in
  let p1 := set_fear p (wr (fear p) i
              (clampf ((fear p) @ i * (f1 - k)) f0 f1)) in
  let p2 := set_aggression p1 (wr (aggression p1) i
              (clampf ((aggression p1) @ i * (f1 - k)) f0 f1)) in
  set_threat_level p2 (wr (threat_level p2) i
    (clampf ((threat_level p2) @ i * (f1 - k)) f0 f1)).

Definition psych_memory_fade (p : PsychSoA F) (dt : F) : PsychSoA F :=
  for_loop (psych_count p) (psych_memory_fade_body dt) p.

(** *** 9. Progression and tech, continued *)

Definition tech_golden_age_tick_body (dt : F) (i : Z) (t : TechSoA F)
    : TechSoA F :=
  if (golden_age_timer t) @ i >? f0 then
    set_golden_age_timer t (wr (golden_age_timer t) i
      (clampf ((golden_age_timer t) @ i - dt) f0 (flit 1000000 1)))
  else t.

Definition tech_golden_age_tick (t : TechSoA F) (dt : F) : TechSoA F :=
  for_loop (tech_count t) (tech_golden_age_tick_body dt) t.

(** *** 10. Engine and end game, continued *)

Definition engine_end_timer_tick_body (dt : F) (i : Z) (e : EngineSoA F)
    : EngineSoA F :=
  if (stability e) @ i <? flit 1 10 then
    set_end_timer e (wr (end_timer e) i
      (clampf ((end_timer e) @ i - dt) f0 (flit 1000000 1)))
  else e.

Definition engine_end_timer_tick (e : EngineSoA F) (dt : F) : EngineSoA F :=
  for_loop (engine_count e) (engine_end_timer_tick_body dt) e.

Definition engine_end_condition_check_body (e : EngineSoA F) (i : Z)
    (end_flags : list Z) : list Z :=
  wr end_flags i (if (end_timer e) @ i <=? f0 then 1%Z else 0%Z).

Definition engine_end_condition_check (e : EngineSoA F) (end_flags : list Z)
    : list Z :=
  for_loop (engine_count e) (engine_end_condition_check_body e) end_flags.

(** *** Further transforms that call into libm *)

Section MoreLibm.
Variable sqrtf : F -> F.
Variable floorf : F -> F.

Definition combat_aoe_damage_body (pos_x pos_y : list F)
    (cx cy radius dmg r2 : F) (i : Z) (c : CombatSoA F) : CombatSoA F :=
  let dx := pos_x @ i - cx in
  let dy := pos_y @ i - cy in
  let d2 := dx * dx + dy * dy in
  if d2 >=? r2 then c else
  let falloff := f1 - sqrtf d2 / radius in
  let actual := dmg * falloff in
  let actual := if actual <? f1 then f1 else actual in
  set_hp c (wr (hp c) i (clampf ((hp c) @ i - actual) f0 (max_hp c) @ i)).

Definition combat_aoe_damage (c : CombatSoA F) (pos_x pos_y : list F)
    (cx cy radius dmg : F) : CombatSoA F :=
  let r2 := radius * radius in
  for_loop (combat_count c)
    (combat_aoe_damage_body pos_x pos_y cx cy radius dmg r2) c.

Definition tech_era_advance_body (i : Z) (t : TechSoA F) : TechSoA F :=
  let expected_era := floorf ((tech_level t) @ i / flit 10 1) in
  if expected_era >? (era t) @ i
  then set_era t (wr (era t) i expected_era)
  else t.

Definition tech_era_advance (t : TechSoA F) : TechSoA F :=
  for_loop (tech_count t) tech_era_advance_body t.

End MoreLibm.

End Transforms.

(** One-row containers for the further transforms. *)

Section MoreShapes.
Context {F : Type} `{FieldOps F}.

Definition env_row (rain int fu : F) : EnvSoA F :=
  {| temperature := [f0]; temp_target := [f0]; rainfall := [rain];
     humidity := [f0]; wind_x := [f0]; wind_y := [f0];
     fire_intensity := [int]; fuel := [fu]; elevation := [f0];
     pressure := [f0]; env_count := 1 |}.

Definition psych_row (happy fr loy : F) : PsychSoA F :=
  {| happiness := [happy]; fear := [fr]; loyalty := [loy];
     aggression := [f0]; utility_work := [f0]; utility_fight := [f0];
     utility_flee := [f0]; threat_level := [f0]; memory_decay := [f0];
     social_bond := [f0]; psych_count := 1 |}.

Definition cohort_row (young adult elder : F) : PopSoA F :=
  {| population := [f0]; carrying_cap := [f0]; growth_rate := [f0];
     susceptible := [f0]; infected := [f0]; recovered := [f0];
     beta := [f0]; gamma_rec := [f0]; food_supply := [f0];
     food_threshold := [f0]; age_young := [young]; age_adult := [adult];
     age_elder := [elder]; pop_count := 1 |}.

Definition tax_row (res maxres rate collected : F) : EconSoA F :=
  {| resource := [res]; max_resource := [maxres]; gather_rate := [f0];
     depletion_rate := [f0]; price := [f0]; demand := [f0];
     supply := [f0]; tax_rate := [rate]; tax_collected := [collected];
     trade_volume := [f0]; econ_count := 1 |}.

Definition move_row (px py vx vy ax ay : F) : MoveSoA F :=
  {| pos_x := [px]; pos_y := [py]; vel_x := [vx]; vel_y := [vy];
     acc_x := [ax]; acc_y := [ay]; heading := [f0]; speed := [f0];
     max_speed := [f0]; h_cost := [f0]; move_count := 1 |}.

End MoreShapes.

(** [x] is NaN or lies in [lo, hi]: what a clamp to [lo, hi] returns
    when [lo <= hi]. *)
Definition nan_or_within (x lo hi : Binary32.float32) : bool :=
  Binary32.is_nan x || (Binary32.leb lo x && Binary32.leb x hi).

(** The six emotional states of NPC [i] are fractions (or NaN). *)
Definition psych_fractions (p : PsychSoA Binary32.float32) (i : Z) : bool :=
  forallb (fun col => nan_or_within (rd f0 col i) f0 f1)
    [happiness p; fear p; loyalty p; aggression p; threat_level p;
     social_bond p].

(** The clamped columns of faction [i] are within their bounds (or
    NaN): faith, schism risk and favour in [0, 1], mana and devotees in
    [0, 1000]. *)
Definition faith_bounded (f : FaithSoA Binary32.float32) (i : Z) : bool :=
  nan_or_within (rd f0 (faith_level f) i) f0 f1
  && nan_or_within (rd f0 (schism_risk f) i) f0 f1
  && nan_or_within (rd f0 (divine_favor f) i) f0 f1
  && nan_or_within (rd f0 (mana f) i) f0 (flit 1000 1)
  && nan_or_within (rd f0 (devotee_count f) i) f0 (flit 1000 1).

(** * Properties *)

(** ** Arrays and loops *)

Section ArrayFacts.
Context {A : Type}.
Implicit Types (col : list A) (i j : Z) (v d : A).

Lemma length_wr col i v : length (wr col i v) = length col.
Proof. unfold wr. destruct (i <? 0); [reflexivity|apply length_insert]. Qed.

Lemma rd_wr_eq d col i v :
  0 <= i < Z.of_nat (length col) -> rd d (wr col i v) i = v.
Proof.
  intros Hi. unfold rd, wr.
  destruct (Z.ltb_spec i 0) as [|_]; [lia|].
  rewrite list_lookup_insert_eq by lia. reflexivity.
Qed.

Lemma rd_wr_ne d col i j v : i <> j -> rd d (wr col i v) j = rd d col j.
Proof.
  intros Hij. unfold rd, wr.
  destruct (Z.ltb_spec j 0) as [|Hj]; [reflexivity|].
  destruct (Z.ltb_spec i 0) as [|Hi]; [reflexivity|].
  rewrite list_lookup_insert_ne by lia. reflexivity.
Qed.

Lemma wr_out_of_range col i v :
  i < 0 \/ Z.of_nat (length col) <= i -> wr col i v = col.
Proof.
  intros Hi. unfold wr. destruct (Z.ltb_spec i 0) as [|Hi0]; [reflexivity|].
  apply list_insert_ge. lia.
Qed.
End ArrayFacts.

Section LoopFacts.
Context {S : Type}.
Implicit Types (body : Z -> S -> S) (s : S) (n : Z).

Lemma for_loop_nonpos n body s : n <= 0 -> for_loop n body s = s.
Proof.
  intros Hn. unfold for_loop. replace (Z.to_nat n) with 0%nat by lia. reflexivity.
Qed.

Lemma for_loop_succ n body s :
  0 <= n -> for_loop (n + 1) body s = body n (for_loop n body s).
Proof.
  intros Hn. unfold for_loop.
  replace (Z.to_nat (n + 1)) with (Datatypes.S (Z.to_nat n)) by lia.
  rewrite seq_S, fold_left_app. simpl. rewrite Z2Nat.id by lia. reflexivity.
Qed.

(** Loop invariants: [P k] holds after [k] iterations. *)
Lemma for_loop_ind (P : Z -> S -> Prop) n body s :
  0 <= n -> P 0 s ->
  (forall k s', 0 <= k < n -> P k s' -> P (k + 1) (body k s')) ->
  P n (for_loop n body s).
Proof.
  intros Hn H0 Hstep.
  assert (forall m : nat, Z.of_nat m <= n ->
            P (Z.of_nat m) (for_loop (Z.of_nat m) body s)) as Hall.
  { induction m as [|m IH]; intros Hm.
    - simpl. rewrite for_loop_nonpos by lia. exact H0.
    - rewrite Nat2Z.inj_succ, <- Z.add_1_r.
      rewrite for_loop_succ by lia. apply Hstep; [lia|]. apply IH. lia. }
  specialize (Hall (Z.to_nat n)). rewrite Z2Nat.id in Hall by lia.
  apply Hall. lia.
Qed.

(** A loop whose iteration [i] rewrites row [i] only: afterwards every
    visited row holds the image of its initial value. *)
Lemma for_loop_rows {R : Type} (row : S -> Z -> R) (Inv : S -> Prop)
    (g : Z -> R -> R) n body s :
  Inv s ->
  (forall i s', 0 <= i < n -> Inv s' ->
     Inv (body i s') /\ row (body i s') i = g i (row s' i) /\
     forall j, j <> i -> row (body i s') j = row s' j) ->
  Inv (for_loop n body s) /\
  forall j, row (for_loop n body s) j
            = if (0 <=? j) && (j <? n) then g j (row s j) else row s j.
Proof.
  intros HI Hbody.
  destruct (Z.le_gt_cases 0 n) as [Hn|Hn].
  2:{ rewrite for_loop_nonpos by lia. split; [exact HI|]. intros j.
      destruct (Z.leb_spec 0 j), (Z.ltb_spec j n); simpl; try reflexivity; lia. }
  apply (for_loop_ind (fun k s' =>
    Inv s' /\ forall j, row s' j
      = if (0 <=? j) && (j <? k) then g j (row s j) else row s j)); [exact Hn| |].
  - split; [exact HI|]. intros j.
    destruct (Z.leb_spec 0 j), (Z.ltb_spec j 0); simpl; try reflexivity; lia.
  - intros k s' Hk [HI' Hrows].
    destruct (Hbody k s' Hk HI') as (HI'' & Hk' & Hother).
    split; [exact HI''|]. intros j.
    destruct (Z.eq_dec j k) as [->|Hjk].
    + rewrite Hk', Hrows.
      destruct (Z.leb_spec 0 k), (Z.ltb_spec k k), (Z.ltb_spec k (k + 1));
        simpl; try reflexivity; lia.
    + rewrite (Hother j Hjk), Hrows.
      destruct (Z.leb_spec 0 j), (Z.ltb_spec j k), (Z.ltb_spec j (k + 1));
        simpl; try reflexivity; lia.
Qed.
End LoopFacts.

(** ** Order and rounding facts of binary32 *)

Module Binary32Facts.
Import Binary32.

Lemma SFcompare_antisym (x y : float32) :
  SFcompare y x = option_map CompOpp (SFcompare x y).
Proof.
  destruct x as [sx|sx| |sx mx ex], y as [sy|sy| |sy my ey]; simpl;
    try reflexivity;
    try (destruct sx; reflexivity); try (destruct sy; reflexivity);
    try (destruct sx, sy; reflexivity).
  destruct sx, sy; simpl; try reflexivity;
    rewrite (Z.compare_antisym ex ey);
    destruct (ex ?= ey) eqn:E; simpl; try reflexivity;
    rewrite (Pos.compare_cont_antisym mx my Eq); simpl;
    try rewrite CompOpp_involutive; reflexivity.
Qed.

Lemma SFcompare_refl (x : float32) :
  is_nan x = false -> SFcompare x x = Some Eq.
Proof.
  destruct x as [s|s| |s m e]; simpl; try discriminate; intros _;
    try (destruct s; reflexivity).
  destruct s; rewrite Z.compare_refl;
    change (Pos.compare_cont Eq m m) with (Pos.compare m m);
    rewrite Pos.compare_refl; reflexivity.
Qed.

Lemma compare_not_nan_l (x y : float32) c :
  SFcompare x y = Some c -> is_nan x = false /\ is_nan y = false.
Proof. destruct x, y; simpl; intros; try discriminate; auto. Qed.

Lemma compare_total (x y : float32) :
  is_nan x = false -> is_nan y = false -> exists c, SFcompare x y = Some c.
Proof. destruct x, y; simpl; intros; try discriminate; eauto. Qed.

Lemma leb_not_nan (x y : float32) :
  leb x y = true -> is_nan x = false /\ is_nan y = false.
Proof.
  unfold leb, SFleb. destruct (SFcompare x y) eqn:E; [|discriminate].
  intros _. eapply compare_not_nan_l; eauto.
Qed.

Lemma ltb_false_leb (x y : float32) :
  is_nan x = false -> is_nan y = false -> ltb x y = false -> leb y x = true.
Proof.
  intros Hx Hy. unfold ltb, leb, SFltb, SFleb.
  rewrite (SFcompare_antisym x y).
  destruct (compare_total x y Hx Hy) as [c ->]. destruct c; simpl; congruence.
Qed.

Lemma leb_ltb_false (x y : float32) : leb x y = true -> ltb y x = false.
Proof.
  unfold ltb, leb, SFltb, SFleb. rewrite (SFcompare_antisym x y).
  destruct (SFcompare x y) as [[]|]; simpl; congruence.
Qed.

Lemma leb_refl (x : float32) : is_nan x = false -> leb x x = true.
Proof. intros Hx. unfold leb, SFleb. rewrite SFcompare_refl; auto. Qed.

Lemma clampf_range (v lo hi : float32) :
  is_nan v = false -> leb lo hi = true ->
  leb lo (clampf v lo hi) = true /\ leb (clampf v lo hi) hi = true.
Proof.
  intros Hv Hlh. destruct (leb_not_nan _ _ Hlh) as [Hlo Hhi].
  unfold clampf. simpl.
  destruct (ltb v lo) eqn:E1.
  - split; [apply leb_refl|]; auto.
  - destruct (ltb hi v) eqn:E2.
    + split; [|apply leb_refl]; auto.
    + split; apply ltb_false_leb; auto.
Qed.

Lemma clampf_id (v lo hi : float32) :
  leb lo v = true -> leb v hi = true -> clampf v lo hi = v.
Proof.
  intros H1 H2. unfold clampf; simpl.
  rewrite (leb_ltb_false _ _ H1), (leb_ltb_false _ _ H2). reflexivity.
Qed.

Lemma clampf_nan (lo hi : float32) : clampf S754_nan lo hi = S754_nan.
Proof. unfold clampf; simpl. destruct hi; reflexivity. Qed.

Lemma between_finite (lo x hi : float32) :
  is_finite lo = true -> is_finite hi = true ->
  leb lo x = true -> leb x hi = true -> is_finite x = true.
Proof.
  destruct lo as [| | |sl ml el], hi as [| | |sh mh eh], x as [sx|sx| |sx mx ex];
    simpl; try discriminate; try reflexivity; intros _ _;
    unfold leb, SFleb; simpl; destruct sx; simpl; try discriminate;
    try (destruct sl; discriminate); try (destruct sh; discriminate); auto.
Qed.

Lemma digits2_pos_size (p : positive) : digits2_pos p = Pos.size p.
Proof. induction p; simpl; congruence. Qed.

Lemma Zdigits2_bound (m k : Z) :
  0 <= m < 2 ^ k -> 0 <= k -> 0 <= Zdigits2 m <= k.
Proof.
  intros [Hm Hlt] Hk. destruct m as [|p|p]; simpl; [lia| |lia].
  rewrite digits2_pos_size. split; [lia|].
  pose proof (Pos.size_le p) as Hs.
  assert (2 ^ Zpos (Pos.size p) <= 2 * Zpos p) as Hz.
  { rewrite <- Pos2Z.inj_pow. change (2 * Zpos p) with (Zpos p~0). exact Hs. }
  destruct (Z_le_gt_dec (Zpos (Pos.size p)) k) as [|Hgt]; [assumption|exfalso].
  assert (2 ^ (k + 1) <= 2 ^ Zpos (Pos.size p)) by (apply Z.pow_le_mono_r; lia).
  rewrite Z.pow_add_r in H by lia. lia.
Qed.

Lemma shr_1_bounds (mrs : shr_record) :
  0 <= shr_m mrs -> 0 <= shr_m (shr_1 mrs) <= shr_m mrs.
Proof.
  destruct mrs as [m r s]; simpl. destruct m as [|[p|p|]|p]; simpl; lia.
Qed.

Lemma iter_shr_1_bounds (p : positive) (mrs : shr_record) :
  0 <= shr_m mrs -> 0 <= shr_m (SpecFloat.iter_pos shr_1 p mrs) <= shr_m mrs.
Proof.
  revert mrs. induction p as [p IH|p IH|]; intros mrs Hm; simpl.
  - pose proof (shr_1_bounds mrs Hm) as H1.
    pose proof (IH _ (proj1 H1)) as H2.
    pose proof (IH _ (proj1 H2)) as H3. lia.
  - pose proof (IH _ Hm) as H2.
    pose proof (IH _ (proj1 H2)) as H3. lia.
  - apply shr_1_bounds; assumption.
Qed.

Lemma shr_record_of_loc_m m l : shr_m (shr_record_of_loc m l) = m.
Proof. destruct l as [|[]]; reflexivity. Qed.

Lemma shr_fexp_bounds (m e : Z) (l : location) :
  0 <= m ->
  let r := shr_fexp prec emax m e l in
  0 <= shr_m (fst r) <= m /\
  (snd r = e \/ snd r = fexp prec emax (Zdigits2 m + e)).
Proof.
  intros Hm. unfold shr_fexp, shr.
  destruct (fexp prec emax (Zdigits2 m + e) - e) as [|p|p] eqn:E; simpl.
  - rewrite shr_record_of_loc_m. split; [lia|auto].
  - pose proof (iter_shr_1_bounds p (shr_record_of_loc m l)) as Hb.
    rewrite shr_record_of_loc_m in Hb. split; [auto|right; lia].
  - rewrite shr_record_of_loc_m. split; [lia|auto].
Qed.

Lemma round_nearest_even_bounds (m : Z) (l : location) :
  m <= round_nearest_even m l <= m + 1.
Proof. destruct l as [|[]]; simpl; try lia. destruct (Z.even m); lia. Qed.

(** Rounding a non-negative mantissa never yields NaN. *)
Lemma binary_round_aux_not_nan (s : bool) (m e : Z) (l : location) :
  0 <= m -> is_nan (binary_round_aux prec emax s m e l) = false.
Proof.
  intros Hm. unfold binary_round_aux.
  pose proof (shr_fexp_bounds m e l Hm) as H1.
  destruct (shr_fexp prec emax m e l) as [mrs' e']. simpl in H1.
  pose proof (round_nearest_even_bounds (shr_m mrs') (loc_of_shr_record mrs')) as H2.
  assert (0 <= round_nearest_even (shr_m mrs') (loc_of_shr_record mrs')) as H3 by lia.
  pose proof (shr_fexp_bounds _ e' loc_Exact H3) as H4.
  destruct (shr_fexp prec emax _ e' loc_Exact) as [mrs'' e'']. simpl in H4.
  destruct (shr_m mrs'') as [|p|p]; [reflexivity| |lia].
  destruct (e'' <=? emax - prec); reflexivity.
Qed.

(** Rounding a mantissa below [2^k] at an exponent that leaves room up
    to [emax] yields zero or a finite float: no overflow. *)
Lemma binary_round_aux_finite (s : bool) (m e k : Z) (l : location) :
  0 <= m < 2 ^ k -> 0 <= k <= 200 -> e <= 50 -> k + e <= 100 -> 2 * k + e <= 150 ->
  is_finite (binary_round_aux prec emax s m e l) = true.
Proof.
  intros Hm Hk He Hke Hk60. unfold binary_round_aux.
  pose proof (shr_fexp_bounds m e l (proj1 Hm)) as H1.
  pose proof (Zdigits2_bound m k Hm (proj1 Hk)) as Hd1.
  destruct (shr_fexp prec emax m e l) as [mrs' e']. simpl in H1.
  pose proof (round_nearest_even_bounds (shr_m mrs') (loc_of_shr_record mrs')) as H2.
  set (m1 := round_nearest_even (shr_m mrs') (loc_of_shr_record mrs')) in *.
  assert (0 <= m1 < 2 ^ (k + 1)) as H3.
  { rewrite Z.pow_add_r by lia. lia. }
  pose proof (shr_fexp_bounds m1 e' loc_Exact (proj1 H3)) as H4.
  pose proof (Zdigits2_bound m1 (k + 1) H3 ltac:(lia)) as Hd2.
  destruct (shr_fexp prec emax m1 e' loc_Exact) as [mrs'' e'']. simpl in H4.
  assert (e'' <= emax - prec) as Hfin.
  { unfold fexp, emin, prec, emax in *. lia. }
  destruct (shr_m mrs'') as [|p|p]; [reflexivity| |lia].
  apply Z.leb_le in Hfin. rewrite Hfin. reflexivity.
Qed.

Lemma is_nonneg_not_nan (x : float32) : is_nonneg x = true -> is_nan x = false.
Proof. destruct x as [| | |[]]; simpl; congruence. Qed.

Lemma is_pos_nonneg (x : float32) : is_pos x = true -> is_nonneg x = true.
Proof. destruct x as [|[]| |[]]; simpl; congruence. Qed.

Lemma binary_round_aux_nonneg (m e : Z) (l : location) :
  0 <= m -> is_nonneg (binary_round_aux prec emax false m e l) = true.
Proof.
  intros Hm. pose proof (binary_round_aux_not_nan false m e l Hm) as Hn.
  unfold binary_round_aux in *.
  destruct (shr_fexp prec emax m e l) as [mrs' e'].
  destruct (shr_fexp prec emax _ e' loc_Exact) as [mrs'' e''].
  destruct (shr_m mrs'') as [|p|p]; [reflexivity| |discriminate].
  destruct (e'' <=? emax - prec); reflexivity.
Qed.

(** [0 <= x] as a comparison: [x] is zero, positive or +infinity. *)
Lemma leb_zero_nonneg (x : float32) : leb (lit 0 1) x = true -> is_nonneg x = true.
Proof. destruct x as [|[]| |[]]; vm_compute; congruence. Qed.

Lemma ltb_zero_pos (x : float32) : ltb (lit 0 1) x = true -> is_pos x = true.
Proof. destruct x as [|[]| |[]]; vm_compute; congruence. Qed.

Lemma ltb_one_pos (x : float32) : ltb (lit 1 1) x = true -> is_pos x = true.
Proof. destruct x as [|[]| |[]]; try (vm_compute; congruence). Qed.

(** A product is NaN only from a NaN operand or from 0 * infinity. *)
Lemma mul_finite_l_not_nan (x y : float32) :
  is_finite x = true -> is_pos x = true -> is_nonneg y = true ->
  is_nonneg (mul x y) = true.
Proof.
  destruct x as [| | |[] mx ex]; simpl; try discriminate. intros _ _.
  destruct y as [sy|[]| |[] my ey]; simpl; try discriminate; intros _; try reflexivity.
  apply binary_round_aux_nonneg. lia.
Qed.

Lemma mul_lit_not_nan (x : float32) (s : bool) (m : positive) (e : Z) :
  is_nan x = false -> is_nan (mul x (S754_finite s m e)) = false.
Proof.
  destruct x as [sx|sx| |sx mx ex]; simpl; try discriminate; intros _; try reflexivity.
  apply binary_round_aux_not_nan. lia.
Qed.

Lemma div_nonneg (x y : float32) :
  is_finite x = true -> is_nonneg x = true -> is_pos y = true ->
  is_nonneg (div x y) = true.
Proof.
  destruct x as [sx| | |[] mx ex]; simpl; try discriminate; intros _ _;
    destruct y as [|[]| |[] my ey]; simpl; try discriminate; intros _;
    try reflexivity.
  unfold div, SFdiv, SFdiv_core_binary.
  match goal with |- context [Z.div_eucl ?a ?b] =>
    pose proof (Z.div_pos a b) as Hq; unfold Z.div in Hq;
    destruct (Z.div_eucl a b) as [q r] eqn:E end.
  simpl. apply binary_round_aux_nonneg. apply Hq; [|lia].
  match goal with |- 0 <= match ?s with _ => _ end =>
    destruct s eqn:Es; try lia end.
  apply Z.shiftl_nonneg. lia.
Qed.

Lemma sqrt_nonneg (x : float32) : is_nonneg x = true -> is_nonneg (sqrt x) = true.
Proof.
  destruct x as [sx|[]| |[] mx ex]; simpl; try discriminate; intros _; try reflexivity.
  unfold sqrt, SFsqrt, SFsqrt_core_binary.
  match goal with |- context [Z.sqrtrem ?a] =>
    pose proof (Z.sqrtrem_sqrt a) as Hq; pose proof (Z.sqrt_nonneg a) as Hs;
    destruct (Z.sqrtrem a) as [q r] eqn:E end.
  simpl in Hq. subst q. apply binary_round_aux_nonneg. exact Hs.
Qed.

Lemma pos_size_lt (p : positive) (k : Z) :
  Zpos (Pos.size p) <= k -> Zpos p < 2 ^ k.
Proof.
  intros Hk. pose proof (Pos.size_gt p) as Hs.
  assert (Zpos p < 2 ^ Zpos (Pos.size p)) as Hz.
  { rewrite <- Pos2Z.inj_pow. exact Hs. }
  assert (2 ^ Zpos (Pos.size p) <= 2 ^ k) by (apply Z.pow_le_mono_r; lia). lia.
Qed.

(** A valid binary32 mantissa has at most 24 bits. *)
Lemma valid_mantissa (s : bool) (m : positive) (e : Z) :
  valid (S754_finite s m e) = true -> Zpos m < 2 ^ 24 /\ e <= 104.
Proof.
  unfold valid, valid_binary, bounded, canonical_mantissa. intros Hv.
  apply andb_true_iff in Hv. destruct Hv as [Hc He].
  apply Z.eqb_eq in Hc. apply Z.leb_le in He.
  rewrite digits2_pos_size in Hc. unfold fexp, emin, prec, emax in *.
  split; [|lia]. apply pos_size_lt. lia.
Qed.

(** 100 * y does not overflow for a binary32 y in [0, 2^29]. *)
Lemma mul_100_finite (y : float32) :
  valid y = true -> leb (lit 0 1) y = true -> leb y (lit 536870912 1) = true ->
  is_finite (mul (lit 100 1) y) = true.
Proof.
  intros Hv H0 Hb. destruct y as [sy|sy| |sy my ey].
  - reflexivity.
  - destruct sy; vm_compute in H0, Hb; congruence.
  - vm_compute in H0; congruence.
  - destruct sy; [vm_compute in H0; congruence|].
    destruct (valid_mantissa _ _ _ Hv) as [Hm _].
    assert (ey <= 6) as He.
    { change (lit 536870912 1) with (S754_finite false 8388608 6) in Hb.
      unfold leb, SFleb, SFcompare in Hb.
      destruct (Z.compare_spec ey 6) as [E|E|E]; [lia|lia|discriminate Hb]. }
    change (lit 100 1) with (S754_finite false 13107200 (-17)).
    unfold mul, SFmul, xorb.
    apply (binary_round_aux_finite false _ _ 48); lia.
Qed.

Lemma binary_round_not_nan (s : bool) (m : positive) (e : Z) :
  is_nan (binary_round prec emax s m e) = false.
Proof.
  unfold binary_round. destruct (shl_align m e _) as [mz ez].
  apply binary_round_aux_not_nan. lia.
Qed.

Lemma binary_normalize_not_nan (m e : Z) (s : bool) :
  is_nan (binary_normalize prec emax m e s) = false.
Proof.
  destruct m; simpl; [reflexivity|apply binary_round_not_nan..].
Qed.

(** Finite times finite is a number (possibly an infinity by overflow). *)
Lemma mul_finite_not_nan (x y : float32) :
  is_finite x = true -> is_finite y = true -> is_nan (mul x y) = false.
Proof.
  destruct x as [sx| | |sx mx ex], y as [sy| | |sy my ey]; simpl;
    try discriminate; intros _ _; try reflexivity.
  apply binary_round_aux_not_nan. lia.
Qed.

(** A finite float plus a number is a number. *)
Lemma add_finite_not_nan (x y : float32) :
  is_finite x = true -> is_nan y = false -> is_nan (add x y) = false.
Proof.
  destruct x as [sx| | |sx mx ex], y as [sy|sy| |sy my ey]; simpl;
    try discriminate; intros _ _; try reflexivity.
  - destruct sx, sy; reflexivity.
  - apply binary_normalize_not_nan.
Qed.

End Binary32Facts.

(** ** The embedding on concrete inputs *)

Example lit_tenth_bits : Binary32.to_bits (Binary32.lit 1 10) = 0x3DCCCCCD.
Proof. reflexivity. Qed.

Example of_bits_tenth : Binary32.of_bits 0x3DCCCCCD = Binary32.lit 1 10.
Proof. reflexivity. Qed.

Example of_bits_smallest_subnormal :
  Binary32.of_bits 1 = S754_finite false 1 (-149).
Proof. reflexivity. Qed.

(** Binary32 rounds: 2^24 + 1 is not representable. *)
Example add_absorbs_one :
  Binary32.add (Binary32.lit 16777216 1) (Binary32.lit 1 1)
  = Binary32.lit 16777216 1.
Proof. reflexivity. Qed.

Example lcg_next_of_1 : lcg_next 1 = 1015568748.
Proof. reflexivity. Qed.

(** The first draw of index 0 in [faith_miracle_check]: 8653646 / 2^25,
    about 0.2579, exactly representable in binary32. *)
Example lcg_float_index_0 :
  lcg_float (F := Binary32.float32) (wrap32 (wrap32 (0 + 1) * 2654435761))
  = (S754_finite false 8653646 (-25), 1107666780).
Proof. reflexivity. Qed.

(** 1/sqrt(4) by the bit trick and one Newton step: about 0.49915. *)
Example fast_inv_sqrt_of_4 :
  Movement.fast_inv_sqrt_scalar (Binary32.lit 4 1)
  = S754_finite false 16748815 (-25).
Proof. reflexivity. Qed.

(** A god with energy 30 pays a meteor of cost 10 and keeps 20. *)
Example meteor_paid :
  let d := divine_row (F := Binary32.float32) (Binary32.lit 30 1)
             (Binary32.lit 100 1) (Binary32.lit 10 1) (Binary32.lit 1 1)
             (Binary32.lit 50 1) (Binary32.lit 2 1) in
  divine_meteor_cost d 0 = (set_energy d [Binary32.lit 20 1], 1).
Proof. reflexivity. Qed.

(** ** Facts of the exact arithmetic *)

Module ExactFacts.

Lemma ltb_lt (a b : Q) : Exact.ltb a b = true <-> (a < b)%Q.
Proof.
  unfold Exact.ltb. rewrite negb_true_iff, <- not_true_iff_false, Qle_bool_iff.
  split; [apply Qnot_le_lt|apply Qlt_not_le].
Qed.

Lemma ltb_ge (a b : Q) : Exact.ltb a b = false <-> (b <= a)%Q.
Proof.
  unfold Exact.ltb. rewrite negb_false_iff, Qle_bool_iff. reflexivity.
Qed.

Lemma clampf_exact_id (v lo hi : Q) :
  (lo <= v)%Q -> (v <= hi)%Q -> clampf (F := Q) v lo hi = v.
Proof.
  intros H1 H2. unfold clampf; simpl.
  apply ltb_ge in H1, H2. rewrite H1, H2. reflexivity.
Qed.

Lemma clampf_exact_range (v lo hi : Q) :
  (lo <= hi)%Q -> (lo <= clampf (F := Q) v lo hi)%Q /\ (clampf (F := Q) v lo hi <= hi)%Q.
Proof.
  intros Hlh. unfold clampf; simpl.
  destruct (Exact.ltb v lo) eqn:E1.
  - split; [apply Qle_refl|exact Hlh].
  - apply ltb_ge in E1. destruct (Exact.ltb hi v) eqn:E2.
    + split; [exact Hlh|apply Qle_refl].
    + apply ltb_ge in E2. split; assumption.
Qed.

Lemma clampf_exact_le (v lo hi : Q) :
  (lo <= v)%Q -> (clampf (F := Q) v lo hi <= v)%Q.
Proof.
  intros Hlo. unfold clampf; simpl.
  apply ltb_ge in Hlo. rewrite Hlo.
  destruct (Exact.ltb hi v) eqn:E2.
  - apply ltb_lt in E2. apply Qlt_le_weak. exact E2.
  - apply Qle_refl.
Qed.

Lemma clampf_exact_ge (a v lo hi : Q) :
  (a <= v)%Q -> (a <= hi)%Q -> (lo <= v)%Q -> (a <= clampf (F := Q) v lo hi)%Q.
Proof.
  intros Hav Hah Hlo. unfold clampf; simpl.
  apply ltb_ge in Hlo. rewrite Hlo.
  destruct (Exact.ltb hi v); assumption.
Qed.

Lemma trade_actual_exact (amount res : Q) :
  (trade_actual (F := Q) amount res <= amount)%Q /\
  (trade_actual (F := Q) amount res <= res)%Q.
Proof.
  unfold trade_actual; simpl. destruct (Exact.ltb amount res) eqn:E.
  - apply ltb_lt in E. split; [apply Qle_refl|apply Qlt_le_weak; exact E].
  - apply ltb_ge in E. split; [exact E|apply Qle_refl].
Qed.

End ExactFacts.

Import Binary32 Binary32Facts ExactFacts.

(** Unfold a guarded scalar operation and discharge its failing guards. *)
Ltac skip_guards :=
  intros;
  repeat match goal with
  | H : _ \/ _ |- _ => destruct H
  end;
  repeat match goal with
  | H : out_of_range ?i ?n = true |- context [out_of_range ?i ?n] => rewrite H
  | |- context [if out_of_range ?i ?n then _ else _] =>
      destruct (out_of_range i n)
  end;
  try reflexivity; try discriminate.

(** ** Scalar operations outside the index range *)

Section OutOfRange.
Context {F : Type} `{FieldOps F}.

Lemma out_of_range_count (n : Z) : out_of_range n n = true.
Proof.
  unfold out_of_range. destruct (Z.geb_spec n n) as [_|Hn]; [|lia].
  apply orb_true_r.
Qed.

Lemma out_of_range_iff (idx n : Z) :
  out_of_range idx n = true <-> idx < 0 \/ n <= idx.
Proof.
  unfold out_of_range. rewrite orb_true_iff, Z.ltb_lt, Z.geb_le. reflexivity.
Qed.

Lemma pop_migration_out_of_range (h : Heap (PopSoA F)) src dst s d idx rate dt :
  h !! src = Some s -> h !! dst = Some d ->
  out_of_range idx (pop_count s) = true \/ out_of_range idx (pop_count d) = true ->
  pop_migration h src dst idx rate dt = h.
Proof.
  intros Hs Hd Hoob. unfold pop_migration. rewrite Hs, Hd.
  rewrite !out_of_range_iff in Hoob.
  destruct (Z.ltb_spec idx 0); [reflexivity|].
  destruct (Z.geb_spec idx (pop_count s)); [reflexivity|].
  destruct (Z.geb_spec idx (pop_count d)); [reflexivity|]. lia.
Qed.

Lemma econ_trade_out_of_range (h : Heap (EconSoA F)) seller buyer s b si bi amount :
  h !! seller = Some s -> h !! buyer = Some b ->
  out_of_range si (econ_count s) = true \/ out_of_range bi (econ_count b) = true ->
  econ_trade h seller si buyer bi amount = h.
Proof.
  intros Hs Hb Hoob. unfold econ_trade. rewrite Hs, Hb.
  destruct (out_of_range si (econ_count s)); [reflexivity|].
  destruct Hoob as [Hoob|Hoob]; [discriminate|]. rewrite Hoob. reflexivity.
Qed.

Lemma tech_diffusion_out_of_range (h : Heap (TechSoA F)) src dst s d si di rate dt :
  h !! src = Some s -> h !! dst = Some d ->
  out_of_range si (tech_count s) = true \/ out_of_range di (tech_count d) = true ->
  tech_diffusion h src dst si di rate dt = h.
Proof.
  intros Hs Hd Hoob. unfold tech_diffusion. rewrite Hs, Hd.
  destruct (out_of_range si (tech_count s)); [reflexivity|].
  destruct Hoob as [Hoob|Hoob]; [discriminate|]. rewrite Hoob. reflexivity.
Qed.

End OutOfRange.

(** C8.  Every scalar operation (one taking an explicit index) called with
    an index outside [0, count) -- in particular with the index equal to
    count -- returns every container unchanged, and the operations with an
    output parameter store the safe default: 0 in [*hit_out] and
    [*can_cast], 1.0 in [*dmg_mult_out].  For the operations with two
    indices either index being out of range suffices. *)
Theorem scalar_ops_out_of_range_noop (F : Type) (ops : FieldOps F) :
  (forall n : Z, out_of_range n n = true) /\
  (* 1. population *)
  (forall (h : Heap (PopSoA F)) src dst s d idx rate dt,
     h !! src = Some s -> h !! dst = Some d ->
     out_of_range idx (pop_count s) = true \/ out_of_range idx (pop_count d) = true ->
     pop_migration h src dst idx rate dt = h) /\
  (* 2. faith *)
  (forall (f : FaithSoA F) idx ritual_mana,
     out_of_range idx (faith_count f) = true ->
     faith_ritual_cost f idx ritual_mana = f) /\
  (* 3. combat *)
  (forall (c : CombatSoA F) attacker defender raw_dmg,
     out_of_range attacker (combat_count c) = true \/
     out_of_range defender (combat_count c) = true ->
     combat_apply_damage c attacker defender raw_dmg = c) /\
  (forall (c : CombatSoA F) attacker,
     out_of_range attacker (combat_count c) = true ->
     combat_hit_roll c attacker = 0) /\
  (forall (c : CombatSoA F) attacker,
     out_of_range attacker (combat_count c) = true ->
     combat_crit_roll c attacker = f1) /\
  (forall (c : CombatSoA F) unit amount,
     out_of_range unit (combat_count c) = true ->
     combat_morale_boost c unit amount = c) /\
  (forall (c : CombatSoA F) building siege_power dt,
     out_of_range building (combat_count c) = true ->
     combat_siege_damage c building siege_power dt = c) /\
  (* 4. economy *)
  (forall (h : Heap (EconSoA F)) seller buyer s b si bi amount,
     h !! seller = Some s -> h !! buyer = Some b ->
     out_of_range si (econ_count s) = true \/ out_of_range bi (econ_count b) = true ->
     econ_trade h seller si buyer bi amount = h) /\
  (* 6. movement *)
  (forall (m : MoveSoA float32) unit tx ty strength,
     out_of_range unit (move_count m) = true ->
     Movement.move_seek_target m unit tx ty strength = m /\
     Movement.move_flee_target m unit tx ty strength = m) /\
  (forall (m : MoveSoA float32) unit gx gy,
     out_of_range unit (move_count m) = true ->
     Movement.move_astar_heuristic m unit gx gy = m) /\
  (forall (m : MoveSoA float32) unit tx ty slow_radius,
     out_of_range unit (move_count m) = true ->
     Movement.move_arrival_brake m unit tx ty slow_radius = m) /\
  (* 7. divine powers *)
  (forall (d : DivineSoA F) god,
     out_of_range god (divine_count d) = true ->
     divine_meteor_cost d god = (d, 0)) /\
  (forall (d : DivineSoA F) (c : CombatSoA F) god target_unit,
     out_of_range god (divine_count d) = true \/
     out_of_range target_unit (combat_count c) = true ->
     divine_heal_apply d c god target_unit = (d, c)) /\
  (forall (d : DivineSoA F) god tiles,
     out_of_range god (divine_count d) = true ->
     divine_terraform_cost d god tiles = (d, 0)) /\
  (forall (d : DivineSoA F) (c : CombatSoA F) god target,
     out_of_range god (divine_count d) = true \/
     out_of_range target (combat_count c) = true ->
     divine_smite d c god target = (d, c) /\
     divine_blessing d c god target = (d, c)) /\
  (* 8. psychology *)
  (forall (p : PsychSoA F) (c : CombatSoA F) npc threat_unit,
     out_of_range npc (psych_count p) = true \/
     out_of_range threat_unit (combat_count c) = true ->
     psych_threat_assess p c npc threat_unit = p) /\
  (forall (p : PsychSoA F) npc delta,
     out_of_range npc (psych_count p) = true ->
     psych_loyalty_shift p npc delta = p /\
     psych_aggression_trigger p npc delta = p) /\
  (* 9. technology *)
  (forall (t : TechSoA F) nation threshold,
     out_of_range nation (tech_count t) = true ->
     tech_golden_age_trigger t nation threshold = t) /\
  (forall (h : Heap (TechSoA F)) src dst s d si di rate dt,
     h !! src = Some s -> h !! dst = Some d ->
     out_of_range si (tech_count s) = true \/ out_of_range di (tech_count d) = true ->
     tech_diffusion h src dst si di rate dt = h) /\
  (* 10. engine *)
  (forall (e : EngineSoA F) faction seed,
     out_of_range faction (engine_count e) = true ->
     engine_chaos_event e faction = e /\
     engine_entropy_reset e faction = e /\
     engine_determinism_seed e faction seed = e).
Proof.
  split; [exact out_of_range_count|].
  split; [intros; eapply pop_migration_out_of_range; eauto|].
  split; [unfold faith_ritual_cost; skip_guards|].
  split; [unfold combat_apply_damage; skip_guards|].
  split; [unfold combat_hit_roll; skip_guards|].
  split; [unfold combat_crit_roll; skip_guards|].
  split; [unfold combat_morale_boost; skip_guards|].
  split; [unfold combat_siege_damage; skip_guards|].
  split; [intros; eapply econ_trade_out_of_range; eauto|].
  split; [unfold Movement.move_flee_target, Movement.move_seek_target;
          intros m unit tx ty strength Hoob; rewrite Hoob; split; reflexivity|].
  split; [unfold Movement.move_astar_heuristic; skip_guards|].
  split; [unfold Movement.move_arrival_brake; skip_guards|].
  split; [unfold divine_meteor_cost; skip_guards|].
  split; [unfold divine_heal_apply; skip_guards|].
  split; [unfold divine_terraform_cost; skip_guards|].
  split; [unfold divine_smite, divine_blessing; intros d c god target Hoob;
          split; skip_guards|].
  split; [unfold psych_threat_assess; skip_guards|].
  split; [unfold psych_loyalty_shift, psych_aggression_trigger;
          intros p npc delta Hoob; rewrite Hoob; split; reflexivity|].
  split; [unfold tech_golden_age_trigger; skip_guards|].
  split; [intros; eapply tech_diffusion_out_of_range; eauto|].
  unfold engine_chaos_event, engine_entropy_reset, engine_determinism_seed.
  intros e faction seed Hoob. rewrite Hoob. repeat split.
Qed.

Lemma scalar_ops_out_of_range_noop_witness :
  let c := combat_row (F := float32) (lit 5 1) (lit 2 1) (lit 80 1) (lit 100 1) (lit 1 2) in
  let d := divine_row (F := float32) (lit 50 1) (lit 100 1) (lit 10 1) (lit 1 1) (lit 30 1) (lit 2 1) in
  out_of_range 1 (combat_count c) = true /\
  out_of_range 1 (divine_count d) = true /\
  combat_morale_boost c 1 (lit 1 4) = c /\
  combat_hit_roll c 1 = 0 /\
  divine_meteor_cost d 1 = (d, 0) /\
  divine_smite d c 1 0 = (d, c).
Proof.
  intros c d.
  pose proof (scalar_ops_out_of_range_noop float32 Binary32.ops) as T.
  destruct T as (_ & _ & _ & _ & Hhit & _ & Hboost & _ & _ & _ & _ & _ & Hmet & _ & _ & Hsm & _).
  split; [reflexivity|]. split; [reflexivity|].
  split; [apply Hboost; reflexivity|].
  split; [apply Hhit; reflexivity|].
  split; [apply Hmet; reflexivity|].
  apply Hsm. left. reflexivity.
Defined.

Lemma out_of_range_false (idx n : Z) : 0 <= idx < n -> out_of_range idx n = false.
Proof.
  intros Hi. unfold out_of_range.
  destruct (Z.ltb_spec idx 0); [lia|]. destruct (Z.geb_spec idx n); [lia|reflexivity].
Qed.

(** ** Miracles: an index-seeded draw *)

Section Miracle.
Context {F : Type} `{FieldOps F}.

Lemma faith_miracle_check_at (g : Globals) (f : FaithSoA F) (out : list Z) (i : Z) :
  faith_count f <= Z.of_nat (length out) ->
  rd 0 (faith_miracle_check g f out) i
  = if (0 <=? i) && (i <? faith_count f)
    then faith_miracle_check_cell i (rd f0 (miracle_chance f) i) (rd f0 (divine_favor f) i)
    else rd 0 out i.
Proof.
  intros Hlen. unfold faith_miracle_check.
  apply (for_loop_rows (fun o j => rd 0 o j)
           (fun o => faith_count f <= Z.of_nat (length o))
           (fun j _ => faith_miracle_check_cell j (rd f0 (miracle_chance f) j)
                         (rd f0 (divine_favor f) j))); [exact Hlen|].
  intros k o Hk Ho. unfold faith_miracle_check_body.
  split; [rewrite length_wr; exact Ho|].
  split; [apply rd_wr_eq; lia|].
  intros j Hj. apply rd_wr_ne. congruence.
Qed.

End Miracle.

(** C10.  The flag [faith_miracle_check] writes for index [i] is a function
    of [i], [miracle_chance[i]] and [divine_favor[i]] alone: the seed is
    rebuilt from the index on every call, no stored generator state is
    read or advanced, and [global_tick] is not read.  Two calls in any two
    ticks, on any two containers that agree on these two cells, write the
    same flag. *)
Theorem faith_miracle_check_index_seeded (F : Type) (ops : FieldOps F)
    (g1 g2 : Globals) (fa fb : FaithSoA F) (out1 out2 : list Z) (i : Z) :
  0 <= i < faith_count fa -> i < faith_count fb ->
  faith_count fa <= Z.of_nat (length out1) ->
  faith_count fb <= Z.of_nat (length out2) ->
  rd f0 (miracle_chance fa) i = rd f0 (miracle_chance fb) i ->
  rd f0 (divine_favor fa) i = rd f0 (divine_favor fb) i ->
  rd 0 (faith_miracle_check g1 fa out1) i
  = faith_miracle_check_cell i (rd f0 (miracle_chance fa) i) (rd f0 (divine_favor fa) i)
  /\ rd 0 (faith_miracle_check g2 fb out2) i = rd 0 (faith_miracle_check g1 fa out1) i.
Proof.
  intros Hi Hi2 Hl1 Hl2 Hc Hf.
  rewrite !faith_miracle_check_at by assumption.
  destruct (Z.leb_spec 0 i); [|lia].
  destruct (Z.ltb_spec i (faith_count fa)); [|lia].
  destruct (Z.ltb_spec i (faith_count fb)); [|lia].
  simpl. rewrite Hc, Hf. split; reflexivity.
Qed.

Lemma faith_miracle_check_index_seeded_witness :
  let fa := faith_row (F := float32) (lit 1 2) (lit 1 1) in
  rd 0 (faith_miracle_check {| global_tick := 7 |} fa [0]) 0
  = rd 0 (faith_miracle_check {| global_tick := 0 |} fa [1]) 0.
Proof.
  intros fa.
  refine (proj2 (faith_miracle_check_index_seeded float32 Binary32.ops
            {| global_tick := 0 |} {| global_tick := 7 |} fa fa [1] [0] 0
            _ _ _ _ _ _)); simpl; try reflexivity; lia.
Defined.

(** ** Divine powers: which actions check before they commit *)

(** C1, as the code has it.  For an in-range god, [divine_meteor_cost] and
    [divine_terraform_cost] are check-then-commit: [*can_cast] is 1 exactly
    when [energy >= cost]; then the cost is deducted (the energy becomes
    [clampf(energy - cost, 0, energy_cap)], nothing else changes), and
    otherwise the container is unchanged.  [divine_smite] and
    [divine_blessing] make no such check: for an in-range god and target
    they always apply their effect and always lower the energy by their
    cost, clamped to [0, energy_cap]. *)
Theorem divine_actions_check_then_commit (F : Type) (ops : FieldOps F)
    (d : DivineSoA F) (c : CombatSoA F) (god target tiles : Z) :
  0 <= god < divine_count d ->
  let en := rd f0 (energy d) god in
  let cap := rd f0 (energy_cap d) god in
  (* meteor *)
  (let cost := rd f0 (meteor_cost d) god in
   let '(d', can_cast) := divine_meteor_cost d god in
   (can_cast = 1 <-> fle cost en = true) /\ (can_cast = 0 <-> fle cost en = false) /\
   (can_cast = 0 -> d' = d) /\
   (can_cast = 1 ->
      d' = set_energy d (wr (energy d) god (clampf (fsub en cost) f0 cap)))) /\
  (* terraform *)
  (let cost := fmul (rd f0 (terraform_cost d) god) (of_int tiles) in
   let '(d', can_cast) := divine_terraform_cost d god tiles in
   (can_cast = 1 <-> fle cost en = true) /\ (can_cast = 0 <-> fle cost en = false) /\
   (can_cast = 0 -> d' = d) /\
   (can_cast = 1 ->
      d' = set_energy d (wr (energy d) god (clampf (fsub en cost) f0 cap)))) /\
  (* smite and blessing: no check *)
  (0 <= target < combat_count c ->
   (let power := rd f0 (smite_power d) god in
    let raw := fsub power (fmul (rd f0 (armor c) target) (flit 1 4)) in
    let dmg := if flt raw f1 then f1 else raw in
    divine_smite d c god target
    = (set_energy d (wr (energy d) god
         (clampf (fsub en (fmul power (flit 1 10))) f0 cap)),
       set_hp c (wr (hp c) target
         (clampf (fsub (rd f0 (hp c) target) dmg) f0 (rd f0 (max_hp c) target))))) /\
   (let mult := rd f0 (blessing_mult d) god in
    let '(d', c') := divine_blessing d c god target in
    d' = set_energy d (wr (energy d) god (clampf (fsub en (flit 10 1)) f0 cap)) /\
    base_atk c' = wr (base_atk c) target (fmul (rd f0 (base_atk c) target) mult) /\
    max_hp c' = wr (max_hp c) target (fmul (rd f0 (max_hp c) target) mult) /\
    hp c' = wr (hp c) target
              (clampf (fmul (rd f0 (hp c) target) mult) f0 (rd f0 (max_hp c') target)))).
Proof.
  intros Hg en cap.
  pose proof (out_of_range_false _ _ Hg) as Hg'.
  split; [|split].
  - unfold divine_meteor_cost. rewrite Hg'. fold en.
    destruct (fle (rd f0 (meteor_cost d) god) en) eqn:E;
      repeat split; intros; try reflexivity; try discriminate; try lia.
  - unfold divine_terraform_cost. rewrite Hg'. fold en.
    destruct (fle (fmul (rd f0 (terraform_cost d) god) (of_int tiles)) en) eqn:E;
      repeat split; intros; try reflexivity; try discriminate; try lia.
  - intros Ht. pose proof (out_of_range_false _ _ Ht) as Ht'. split.
    + unfold divine_smite. rewrite Hg', Ht'. reflexivity.
    + unfold divine_blessing. rewrite Hg', Ht'. repeat split.
Qed.

Lemma divine_actions_check_then_commit_witness :
  let d := divine_row (F := float32) (lit 0 1) (lit 100 1) (lit 10 1) (lit 1 1) (lit 50 1) (lit 2 1) in
  0 <= 0 < divine_count d /\
  divine_meteor_cost d 0 = (d, 0).
Proof.
  intros d. split; [simpl; lia|].
  pose proof (divine_actions_check_then_commit float32 Binary32.ops d
                (combat_row (lit 5 1) (lit 0 1) (lit 100 1) (lit 100 1) (lit 1 2))
                0 0 1 ltac:(simpl; lia)) as T.
  destruct T as (Hm & _).
  destruct (divine_meteor_cost d 0) as [d' can] eqn:E.
  destruct Hm as (_ & H0 & Hsame & _).
  assert (can = 0) as Hcan by (apply H0; reflexivity).
  rewrite (Hsame Hcan), Hcan. reflexivity.
Defined.

(** C1 as stated fails for smite and blessing: a god with energy 0, who can
    afford neither the smite (cost 50 * 0.1 = 5) nor the blessing (cost 10),
    still halves the target's hit points and still doubles its attack, and
    nothing is deducted. *)
Lemma divine_smite_blessing_unchecked :
  let d := divine_row (F := float32) (lit 0 1) (lit 100 1) (lit 10 1) (lit 1 1) (lit 50 1) (lit 2 1) in
  let c := combat_row (F := float32) (lit 5 1) (lit 0 1) (lit 100 1) (lit 100 1) (lit 1 2) in
  ltb (rd f0 (energy d) 0) (mul (rd f0 (smite_power d) 0) (lit 1 10)) = true /\
  hp c = [lit 100 1] /\
  hp (snd (divine_smite d c 0 0)) = [lit 50 1] /\
  energy (fst (divine_smite d c 0 0)) = energy d /\
  ltb (rd f0 (energy d) 0) (lit 10 1) = true /\
  base_atk c = [lit 5 1] /\
  base_atk (snd (divine_blessing d c 0 0)) = [lit 10 1] /\
  energy (fst (divine_blessing d c 0 0)) = energy d.
Proof. vm_compute. repeat split. Qed.

(** ** Trade *)

Section Trade.
Context {F : Type} `{FieldOps F}.


End Trade.


Section SelfTrade.
Context {F : Type} `{FieldOps F}.

(** The four statements of [econ_trade] when seller and buyer are the
    same cell. *)
Lemma econ_trade_self_cell (h : Heap (EconSoA F)) (seller : nat)
    (s : EconSoA F) (si : Z) (amount : F) :
  h !! seller = Some s -> 0 <= si < econ_count s -> econ_wf s ->
  let actual := trade_actual amount (rd f0 (resource s) si) in
  exists s',
    econ_trade h seller si seller si amount !! seller = Some s' /\
    rd f0 (resource s') si
    = clampf (fadd (clampf (fsub (rd f0 (resource s) si) actual) f0
                      (rd f0 (max_resource s) si)) actual) f0
        (rd f0 (max_resource s) si) /\
    rd f0 (trade_volume s') si
    = fadd (fadd (rd f0 (trade_volume s) si) actual) actual.
Proof.
  intros Hs Hsi Hws actual.
  unfold econ_wf, cols_cover in Hws. rewrite !Forall_cons in Hws.
  destruct Hws as (Hrs & _ & _ & _ & _ & Hvs & _).
  unfold econ_trade, modify. rewrite Hs.
  rewrite (out_of_range_false _ _ Hsi). fold actual.
  rewrite !list_lookup_alter_eq, Hs. simpl.
  eexists. split; [reflexivity|]. simpl. split.
  - rewrite rd_wr_eq by (rewrite length_wr; lia).
    rewrite rd_wr_eq by lia. reflexivity.
  - rewrite rd_wr_eq by (rewrite length_wr; lia).
    rewrite rd_wr_eq by lia. reflexivity.
Qed.

End SelfTrade.




(** A trade of a cell with itself runs the same four statements on one
    cell, which here ends with its stock unchanged and its volume raised
    by twice the amount. *)
Example econ_trade_same_cell :
  let e := econ_row (F := float32) (lit 10 1) (lit 100 1) (lit 1 1) f0 f0 f0 in
  econ_trade [e] 0 0 0 0 (lit 3 1)
  = [set_trade_volume e [lit 6 1]].
Proof. vm_compute. reflexivity. Qed.

(** ** Logistic growth *)

Section Logistic.
Context {F : Type} `{FieldOps F}.

Lemma pop_logistic_growth_at (p : PopSoA F) (dt : F) :
  pop_wf p ->
  carrying_cap (pop_logistic_growth p dt) = carrying_cap p /\
  forall i,
    rd f0 (population (pop_logistic_growth p dt)) i
    = if (0 <=? i) && (i <? pop_count p)
      then clampf (logistic_update (rd f0 (population p) i)
                     (rd f0 (carrying_cap p) i) (rd f0 (growth_rate p) i) dt)
                  f0 (rd f0 (carrying_cap p) i)
      else rd f0 (population p) i.
Proof.
  intros Hwf. unfold pop_wf, cols_cover in Hwf. rewrite !Forall_cons in Hwf.
  destruct Hwf as (Hlen & _).
  unfold pop_logistic_growth.
  pose proof (for_loop_rows
    (fun q j => (rd f0 (population q) j, carrying_cap q, growth_rate q))
    (fun q => pop_count p <= Z.of_nat (length (population q)))
    (fun j '(n, kc, rc) =>
       (clampf (logistic_update n (rd f0 kc j) (rd f0 rc j) dt) f0 (rd f0 kc j), kc, rc))
    (pop_count p) (pop_logistic_growth_body dt) p Hlen) as Hloop.
  destruct Hloop as [_ Hrows].
  - intros i q Hi Hq. unfold pop_logistic_growth_body; simpl.
    split; [rewrite length_wr; exact Hq|].
    split; [rewrite rd_wr_eq by lia; reflexivity|].
    intros j Hj. rewrite rd_wr_ne by congruence. reflexivity.
  - split.
    + specialize (Hrows 0). destruct ((0 <=? 0) && (0 <? pop_count p));
        congruence.
    + intros i. specialize (Hrows i).
      destruct ((0 <=? i) && (i <? pop_count p)); congruence.
Qed.

End Logistic.

(** What [pop_logistic_growth] stores: the Euler update
    [n + r n (1 - n/K) dt] clamped to [0, K].  For a non-negative
    capacity the stored population is inside [0, K] exactly when that
    update is a number; a NaN update is stored as it is. *)
Lemma pop_logistic_growth_stores (p : PopSoA float32) (dt : float32) (i : Z) :
  pop_wf p -> 0 <= i < pop_count p ->
  let k := rd f0 (carrying_cap p) i in
  let u := logistic_update (rd f0 (population p) i) k (rd f0 (growth_rate p) i) dt in
  let n' := rd f0 (population (pop_logistic_growth p dt)) i in
  n' = clampf u f0 k /\
  (leb f0 k = true -> is_nan u = false ->
   leb f0 n' = true /\ leb n' k = true) /\
  (is_nan u = true -> is_nan n' = true /\ leb f0 n' = false /\ leb n' k = false).
Proof.
  intros Hwf Hi k u n'.
  destruct (pop_logistic_growth_at p dt Hwf) as [_ Hpop].
  assert (n' = clampf u f0 k) as Heq.
  { subst n'. rewrite Hpop.
    destruct (Z.leb_spec 0 i); [|lia]. destruct (Z.ltb_spec i (pop_count p)); [|lia].
    reflexivity. }
  split; [exact Heq|]. rewrite Heq. split.
  - intros Hk Hu. apply clampf_range; assumption.
  - intros Hu. destruct u; try discriminate. rewrite clampf_nan.
    split; [reflexivity|]. split; [reflexivity|]. destruct k; reflexivity.
Qed.

(** C6.  [pop_logistic_growth] does not keep every population inside
    [0, carrying_cap]: the clamp passes a NaN update through, and the
    update is NaN on finite inputs inside the range.  A group at its
    capacity, [N = K = 3e38], with growth rate 10 and [dt = 1]: [r * N]
    overflows to +infinity, [1 - N/K] is 0, their product is NaN, and NaN
    is stored as the population, which is neither [>= 0] nor [<= K].  An
    empty group with capacity 0 stores 0/0 = NaN in the same way. *)
Theorem pop_logistic_growth_leaves_capacity :
  let big := (lit 300000000000000000000000000000000000000 1 : float32) in
  let p := pop_row (F := float32) big big (lit 10 1) f0 f0 f0 f0 f0 in
  let p' := pop_logistic_growth p (lit 1 1) in
  let z := pop_row (F := float32) f0 f0 (lit 1 10) f0 f0 f0 f0 f0 in
  let z' := pop_logistic_growth z (lit 1 1) in
  (is_finite big = true /\ valid big = true /\
   leb f0 (rd f0 (population p) 0) = true /\
   leb (rd f0 (population p) 0) (rd f0 (carrying_cap p) 0) = true) /\
  (mul (lit 10 1) big = S754_infinity false /\
   sub f1 (div big big) = S754_zero false /\
   logistic_update big big (lit 10 1) (lit 1 1) = S754_nan) /\
  (population p' = [S754_nan] /\ carrying_cap p' = [big] /\
   leb f0 (rd f0 (population p') 0) = false /\
   leb (rd f0 (population p') 0) (rd f0 (carrying_cap p') 0) = false) /\
  (leb f0 (rd f0 (population z) 0) = true /\
   leb (rd f0 (population z) 0) (rd f0 (carrying_cap z) 0) = true /\
   population z' = [S754_nan] /\
   leb f0 (rd f0 (population z') 0) = false /\
   leb (rd f0 (population z') 0) (rd f0 (carrying_cap z') 0) = false).
Proof. vm_compute. repeat split. Qed.

(** The scenario of the specification: a group with population 100 at
    capacity 100 and growth rate 0.1 still has population exactly 100
    after one tick of [dt = 1]. *)
Example pop_logistic_growth_at_capacity :
  population
    (pop_logistic_growth
       (pop_row (lit 100 1) (lit 100 1) (lit 1 10) f0 f0 f0 f0 f0) (lit 1 1))
  = [lit 100 1].
Proof. vm_compute. reflexivity. Qed.

(** C3.  [pop_logistic_growth] divides by the carrying capacity without
    a guard: an empty group with capacity 0 gets the population 0/0 = NaN,
    and [combat_armor_mitigation] divides by [armor + 100]: at armour
    -100 a damage of 10 becomes +infinity. *)
Lemma unguarded_division_yields_nan :
  population
    (pop_logistic_growth
       (pop_row f0 f0 (lit 1 10) f0 f0 f0 f0 f0) (lit 1 1))
  = [S754_nan] /\
  combat_armor_mitigation
    (combat_row (lit 5 1) (lit (-100) 1) (lit 100 1) (lit 100 1) (lit 1 2))
    [lit 10 1]
  = [S754_infinity false].
Proof. vm_compute. split; reflexivity. Qed.

(** ** Market price *)

Section MarketPrice.
Context {F : Type} `{FieldOps F}.
Variable sqrtf : F -> F.

Lemma econ_market_price_at (e : EconSoA F) :
  econ_wf e ->
  forall i,
    rd f0 (price (econ_market_price sqrtf e)) i
    = if (0 <=? i) && (i <? econ_count e)
      then clampf (market_price_raw sqrtf (rd f0 (price e) i)
                     (rd f0 (demand e) i) (rd f0 (supply e) i))
                  (flit 1 100) MAX_PRICE
      else rd f0 (price e) i.
Proof.
  intros Hwf. unfold econ_wf, cols_cover in Hwf. rewrite !Forall_cons in Hwf.
  destruct Hwf as (_ & _ & Hlen & _).
  unfold econ_market_price.
  pose proof (for_loop_rows
    (fun q j => (rd f0 (price q) j, demand q, supply q))
    (fun q => econ_count e <= Z.of_nat (length (price q)))
    (fun j '(pr, dc, sc) =>
       (clampf (market_price_raw sqrtf pr (rd f0 dc j) (rd f0 sc j))
               (flit 1 100) MAX_PRICE, dc, sc))
    (econ_count e) (econ_market_price_body sqrtf) e Hlen) as Hloop.
  destruct Hloop as [_ Hrows].
  - intros i q Hi Hq. unfold econ_market_price_body; simpl.
    split; [rewrite length_wr; exact Hq|].
    split; [rewrite rd_wr_eq by lia; reflexivity|].
    intros j Hj. rewrite rd_wr_ne by congruence. reflexivity.
  - intros i. specialize (Hrows i).
    destruct ((0 <=? i) && (i <? econ_count e)); congruence.
Qed.

End MarketPrice.

(** The unclamped price is a non-negative number (possibly +infinity)
    whenever the old price is finite and the demand finite and >= 0. *)
Lemma market_price_raw_nonneg (pr dem sup : float32) :
  is_finite pr = true -> is_finite dem = true -> leb f0 dem = true ->
  is_nonneg (market_price_raw sqrt pr dem sup) = true.
Proof.
  intros Hp Hd Hd0. unfold market_price_raw.
  change (@flt float32 ops) with ltb. change (@fmul float32 ops) with mul.
  change (@fdiv float32 ops) with div.
  apply mul_finite_l_not_nan.
  - destruct (ltb f0 pr); [exact Hp|reflexivity].
  - destruct (ltb f0 pr) eqn:E; [apply ltb_zero_pos; exact E|reflexivity].
  - apply sqrt_nonneg. apply div_nonneg.
    + exact Hd.
    + apply leb_zero_nonneg. exact Hd0.
    + destruct (ltb f1 sup) eqn:E; [apply ltb_one_pos; exact E|reflexivity].
Qed.

(** C7, as the code has it.  [econ_market_price] sets each price to
    [base * sqrt(demand / max(supply, 1))] clamped to [0.01, MAX_PRICE],
    where [base] is the old price if it is positive and 1 otherwise.  For a
    finite old price and a finite demand >= 0 the new price is a finite
    number in [0.01, 1000]; it is the specification's formula whenever the
    old price is positive and the unclamped value is at least 0.01.  With
    resource 0, demand 10, supply 0 and price 1 the new price is sqrt(10)
    (3.1622777 in binary32): finite and below the ceiling. *)
Theorem econ_market_price_floor_and_ceiling :
  (forall (e : EconSoA float32) (i : Z),
     econ_wf e -> 0 <= i < econ_count e ->
     let pr := rd f0 (price e) i in
     let dem := rd f0 (demand e) i in
     let sup := rd f0 (supply e) i in
     let pr' := rd f0 (price (econ_market_price sqrt e)) i in
     pr' = clampf (market_price_raw sqrt pr dem sup) (lit 1 100) MAX_PRICE /\
     (is_finite pr = true -> is_finite dem = true -> leb f0 dem = true ->
      leb (lit 1 100) pr' = true /\ leb pr' MAX_PRICE = true /\
      is_finite pr' = true) /\
     (ltb f0 pr = true -> leb (lit 1 100) (market_price_raw sqrt pr dem sup) = true ->
      pr' = market_price_spec sqrt pr dem sup)) /\
  (let e := econ_row (F := float32) f0 (lit 100 1) (lit 1 1) (lit 10 1) f0 f0 in
   price (econ_market_price sqrt e) = [S754_finite false 13263554 (-22)] /\
   ltb (S754_finite false 13263554 (-22)) MAX_PRICE = true).
Proof.
  split; [|vm_compute; split; reflexivity].
  intros e i Hwf Hi pr dem sup pr'.
  assert (pr' = clampf (market_price_raw sqrt pr dem sup) (lit 1 100) MAX_PRICE) as Heq.
  { subst pr'. rewrite (econ_market_price_at sqrt e Hwf).
    destruct (Z.leb_spec 0 i); [|lia]. destruct (Z.ltb_spec i (econ_count e)); [|lia].
    reflexivity. }
  split; [exact Heq|]. split.
  - intros Hp Hd Hd0. rewrite Heq.
    pose proof (market_price_raw_nonneg pr dem sup Hp Hd Hd0) as Hnn.
    apply is_nonneg_not_nan in Hnn.
    assert (leb (lit 1 100) (MAX_PRICE (F := float32)) = true) as Hlh
      by (vm_compute; reflexivity).
    destruct (clampf_range (market_price_raw sqrt pr dem sup) (lit 1 100) MAX_PRICE Hnn
                Hlh) as [Hlo Hhi].
    split; [exact Hlo|]. split; [exact Hhi|].
    apply (between_finite (lit 1 100) _ MAX_PRICE); auto.
  - intros Hpos Hraw. rewrite Heq. unfold clampf, market_price_spec.
    change (@flt float32 ops) with ltb.
    rewrite (leb_ltb_false _ _ Hraw).
    unfold market_price_raw. change (@flt float32 ops) with ltb.
    rewrite Hpos. reflexivity.
Qed.

Lemma econ_market_price_floor_and_ceiling_witness :
  let e := econ_row (F := float32) (lit 40 1) (lit 100 1) (lit 2 1) (lit 90 1) (lit 10 1) f0 in
  let pr' := rd f0 (price (econ_market_price sqrt e)) 0 in
  is_finite (rd f0 (price e) 0) = true /\
  leb f0 (rd f0 (demand e) 0) = true /\
  leb (lit 1 100) pr' = true /\ leb pr' MAX_PRICE = true /\ is_finite pr' = true.
Proof.
  intros e pr'. split; [reflexivity|]. split; [reflexivity|].
  refine (proj1 (proj2 (proj1 econ_market_price_floor_and_ceiling e 0 _ _)) _ _ _).
  - repeat constructor; simpl; lia.
  - simpl; lia.
  - reflexivity.
  - reflexivity.
  - reflexivity.
Defined.

(** C7 as stated fails twice.  In its own scenario (resource 0, demand 10,
    supply 0, price 1) the new price is sqrt(10), not the ceiling: the
    supply is floored at 1 before the division, so nothing diverges.  And
    the update is not "price * sqrt(demand / max(supply, 1)) clamped to the
    ceiling": a pool without demand gets the floor price 0.01 where that
    formula gives 0. *)
Lemma econ_market_price_not_spec_formula :
  (let e := econ_row (F := float32) f0 (lit 100 1) (lit 1 1) (lit 10 1) f0 f0 in
   price (econ_market_price sqrt e) <> [MAX_PRICE]) /\
  (let e := econ_row (F := float32) (lit 40 1) (lit 100 1) (lit 1 1) f0 (lit 5 1) f0 in
   price (econ_market_price sqrt e) = [lit 1 100] /\
   market_price_spec sqrt (lit 1 1) f0 (lit 5 1) = S754_zero false /\
   price (econ_market_price sqrt e)
   <> [market_price_spec sqrt (lit 1 1) f0 (lit 5 1)]).
Proof.
  split; [vm_compute; discriminate|].
  vm_compute. split; [reflexivity|]. split; [reflexivity|discriminate].
Qed.

(** ** Stability *)

Section Stability.
Context {F : Type} `{FieldOps F}.


End Stability.

Lemma clampf_idem (v lo hi : float32) :
  leb lo hi = true -> clampf (clampf v lo hi) lo hi = clampf v lo hi.
Proof.
  intros Hlh. destruct (is_nan v) eqn:Hv.
  - destruct v; try discriminate. rewrite !clampf_nan. reflexivity.
  - destruct (clampf_range v lo hi Hv Hlh) as [H1 H2]. apply clampf_id; assumption.
Qed.

(** ** The complement of a fraction *)













(** The range of the entropy is needed: the complement is not clamped
    before the factors are combined, so for an entropy outside its
    documented range [0, 1] the two formulas differ: the code's
    [engine_entropy_increase] clamps the entropy into that range and
    [engine_entropy_reset] sets it to 0.  At entropy -1, technology level 0
    and an empty group the code computes clamp(2 * 0.5 * 1) = 1, where
    three clamped factors give 1 * 0.5 * 1 = 0.5. *)
Lemma engine_stability_complement_unclamped :
  let e := engine_row (F := float32) (lit (-1) 1) in
  let p := pop_row (F := float32) f0 f0 (lit 1 10) f0 f0 f0 f0 f0 in
  let t := tech_row (F := float32) f0 in
  stability (engine_stability_update e p t) = [lit 1 1] /\
  stability_spec (lit (-1) 1) (stability_tech_norm t 0) (stability_pop_pressure p 0)
  = lit 1 2 /\
  stability (engine_stability_update e p t)
  <> [stability_spec (lit (-1) 1) (stability_tech_norm t 0) (stability_pop_pressure p 0)].
Proof. vm_compute. split; [reflexivity|]. split; [reflexivity|discriminate]. Qed.

(** ** Technology cost *)

Section TechCost.
Context {F : Type} `{FieldOps F}.
Variable expf : F -> F.

Lemma tech_cost_scale_at (t : TechSoA F) :
  tech_wf t ->
  forall i,
    rd f0 (tech_cost (tech_cost_scale expf t)) i
    = if (0 <=? i) && (i <? tech_count t)
      then fmul (flit 100 1) (expf (tech_cost_exponent (rd f0 (tech_level t) i)))
      else rd f0 (tech_cost t) i.
Proof.
  intros Hwf. unfold tech_wf, cols_cover in Hwf. rewrite !Forall_cons in Hwf.
  destruct Hwf as (_ & Hlen & _).
  unfold tech_cost_scale.
  pose proof (for_loop_rows
    (fun q j => (rd f0 (tech_cost q) j, tech_level q))
    (fun q => tech_count t <= Z.of_nat (length (tech_cost q)))
    (fun j '(_, lc) =>
       (fmul (flit 100 1) (expf (tech_cost_exponent (rd f0 lc j))), lc))
    (tech_count t) (tech_cost_scale_body expf) t Hlen) as Hloop.
  destruct Hloop as [_ Hrows].
  - intros i q Hi Hq. unfold tech_cost_scale_body; simpl.
    split; [rewrite length_wr; exact Hq|].
    split; [rewrite rd_wr_eq by lia; reflexivity|].
    intros j Hj. rewrite rd_wr_ne by congruence. reflexivity.
  - intros i. specialize (Hrows i).
    destruct ((0 <=? i) && (i <? tech_count t)); congruence.
Qed.

End TechCost.

Lemma leb_one_zero (y : float32) : leb f1 y = true -> leb f0 y = true.
Proof. destruct y as [|[]| |[]]; vm_compute; congruence. Qed.

(** The clamped exponent of a level >= 0 lies in [0, 20]. *)
Lemma tech_cost_exponent_range (level : float32) :
  leb f0 level = true ->
  leb f0 (tech_cost_exponent level) = true /\
  leb (tech_cost_exponent level) (lit 20 1) = true.
Proof.
  intros Hl. unfold tech_cost_exponent. apply clampf_range.
  - destruct (leb_not_nan _ _ Hl) as [_ Hn].
    change (@fmul float32 ops) with mul.
    change (flit 3 10) with (S754_finite false 10066330 (-25)).
    apply mul_lit_not_nan. exact Hn.
  - vm_compute. reflexivity.
Qed.

Section TechCostFinite.
(** libm's [expf], of which only this is used: on [0, 20] it returns a
    binary32 number between 1 and 2^29 (e^20 is about 4.85e8). *)
Variable expf : float32 -> float32.
Hypothesis expf_range : forall x,
  leb f0 x = true -> leb x (lit 20 1) = true ->
  valid (expf x) = true /\ leb f1 (expf x) = true /\
  leb (expf x) (lit 536870912 1) = true.

(** C4.  For every civilisation with [tech_level >= 0], however large,
    [tech_cost_scale] clamps the exponent [tech_level * 0.3] into [0, 20]
    before calling [expf], and stores the finite cost
    [100 * expf(exponent)]: never infinity or NaN. *)
Theorem tech_cost_scale_finite (t : TechSoA float32) (i : Z) :
  tech_wf t -> 0 <= i < tech_count t ->
  let level := rd f0 (tech_level t) i in
  leb f0 level = true ->
  let cost := rd f0 (tech_cost (tech_cost_scale expf t)) i in
  leb f0 (tech_cost_exponent level) = true /\
  leb (tech_cost_exponent level) (lit 20 1) = true /\
  cost = mul (lit 100 1) (expf (tech_cost_exponent level)) /\
  is_finite cost = true.
Proof.
  intros Hwf Hi level Hl cost.
  destruct (tech_cost_exponent_range level Hl) as [H0 H20].
  assert (cost = mul (lit 100 1) (expf (tech_cost_exponent level))) as Heq.
  { subst cost. rewrite (tech_cost_scale_at expf t Hwf).
    destruct (Z.leb_spec 0 i); [|lia]. destruct (Z.ltb_spec i (tech_count t)); [|lia].
    reflexivity. }
  split; [exact H0|]. split; [exact H20|]. split; [exact Heq|].
  rewrite Heq. destruct (expf_range _ H0 H20) as (Hv & H1 & Hb).
  apply mul_100_finite; [exact Hv|apply leb_one_zero; exact H1|exact Hb].
Qed.

End TechCostFinite.

Lemma expf_steps_range (x : float32) :
  leb f0 x = true -> leb x (lit 20 1) = true ->
  valid (expf_steps x) = true /\ leb f1 (expf_steps x) = true /\
  leb (expf_steps x) (lit 536870912 1) = true.
Proof.
  intros _ _. unfold expf_steps.
  destruct (ltb x (lit 10 1)); [vm_compute; auto|].
  destruct (ltb x (lit 20 1)); vm_compute; auto.
Qed.

Lemma tech_cost_scale_finite_witness :
  let t := tech_row (F := float32) (lit 1000 1) in
  leb f0 (rd f0 (tech_level t) 0) = true /\
  tech_cost_exponent (rd f0 (tech_level t) 0) = lit 20 1 /\
  is_finite (rd f0 (tech_cost (tech_cost_scale expf_steps t)) 0) = true.
Proof.
  intros t. split; [reflexivity|]. split; [reflexivity|].
  refine (proj2 (proj2 (proj2
            (tech_cost_scale_finite expf_steps expf_steps_range t 0 _ _ _)))).
  - repeat constructor; simpl; lia.
  - simpl; lia.
  - reflexivity.
Defined.

(** ** SIR step *)

Section Sir.
Context {F : Type} `{FieldOps F}.

(** The three compartments of group [i] after the step: the stored
    triple, or the old values when the iteration stores nothing. *)
Lemma pop_sir_step_at (p : PopSoA F) (dt : F) :
  pop_wf p ->
  population (pop_sir_step p dt) = population p /\
  forall i,
    (rd f0 (susceptible (pop_sir_step p dt)) i,
     rd f0 (infected (pop_sir_step p dt)) i,
     rd f0 (recovered (pop_sir_step p dt)) i)
    = if (0 <=? i) && (i <? pop_count p)
      then match pop_sir_step_cell (rd f0 (population p) i)
                   (rd f0 (susceptible p) i) (rd f0 (infected p) i)
                   (rd f0 (recovered p) i) (rd f0 (beta p) i)
                   (rd f0 (gamma_rec p) i) dt with
           | Some new => new
           | None => (rd f0 (susceptible p) i, rd f0 (infected p) i,
                      rd f0 (recovered p) i)
           end
      else (rd f0 (susceptible p) i, rd f0 (infected p) i, rd f0 (recovered p) i).
Proof.
  intros Hwf. unfold pop_wf, cols_cover in Hwf. rewrite !Forall_cons in Hwf.
  destruct Hwf as (_ & _ & _ & Hls & Hli & Hlr & _).
  unfold pop_sir_step.
  pose proof (for_loop_rows
    (fun q j => (rd f0 (susceptible q) j, rd f0 (infected q) j,
                 rd f0 (recovered q) j, population q, beta q, gamma_rec q))
    (fun q => pop_count p <= Z.of_nat (length (susceptible q)) /\
              pop_count p <= Z.of_nat (length (infected q)) /\
              pop_count p <= Z.of_nat (length (recovered q)))
    (fun j '(s, inf, r, pc, bc, gc) =>
       match pop_sir_step_cell (rd f0 pc j) s inf r (rd f0 bc j) (rd f0 gc j) dt with
       | Some (s', inf', r') => (s', inf', r', pc, bc, gc)
       | None => (s, inf, r, pc, bc, gc)
       end)
    (pop_count p) (pop_sir_step_body dt) p (conj Hls (conj Hli Hlr))) as Hloop.
  destruct Hloop as [_ Hrows].
  - intros i q Hi (Hqs & Hqi & Hqr). unfold pop_sir_step_body.
    destruct (pop_sir_step_cell _ _ _ _ _ _ _) as [[[s' inf'] r']|]; simpl.
    + split; [rewrite !length_wr; auto|].
      split; [rewrite !rd_wr_eq by lia; reflexivity|].
      intros j Hj. rewrite !rd_wr_ne by congruence. reflexivity.
    + split; [auto|]. split; [reflexivity|]. intros; reflexivity.
  - split.
    + specialize (Hrows 0). destruct ((0 <=? 0) && (0 <? pop_count p)).
      * destruct (pop_sir_step_cell _ _ _ _ _ _ _) as [[[s' inf'] r']|]; congruence.
      * congruence.
    + intros i. specialize (Hrows i).
      destruct ((0 <=? i) && (i <? pop_count p)).
      * destruct (pop_sir_step_cell _ _ _ _ _ _ _) as [[[s' inf'] r']|]; congruence.
      * congruence.
Qed.

End Sir.

Lemma exact_fraction (a t : Q) :
  (0 <= a)%Q -> (a <= t)%Q -> (0 < t)%Q -> (0 <= a / t)%Q /\ (a / t <= 1)%Q.
Proof.
  intros Ha Hat Ht. split.
  - apply Qle_shift_div_l; [exact Ht|]. rewrite Qmult_0_l. exact Ha.
  - apply Qle_shift_div_r; [exact Ht|]. rewrite Qmult_1_l. exact Hat.
Qed.

Lemma le_sum3 (a b c : Q) :
  (0 <= a)%Q -> (0 <= b)%Q -> (0 <= c)%Q ->
  (a <= a + b + c)%Q /\ (b <= a + b + c)%Q /\ (c <= a + b + c)%Q.
Proof.
  intros Ha Hb Hc. unfold Qle in *. simpl in *.
  destruct a as [an ad], b as [bn bd], c as [cn cd]. simpl in *. nia.
Qed.

(** What [pop_sir_step] stores.  For a group with [population > 0] whose
    updated compartments have a total [s + inf + r > 0], it stores
    [s/total], [inf/total] and [r/total], each clamped to [0,1]; a group
    with [population <= 0], or whose total is not positive, keeps its
    three compartments.  In binary32 every stored share lies in [0,1]
    unless its quotient is NaN.  The formula without rounding gives shares
    that sum to exactly 1 when no updated compartment is negative, which
    is the case the clamps leave alone. *)
Theorem pop_sir_step_normalises :
  (forall (F : Type) (ops : FieldOps F) (p : PopSoA F) (dt : F) (i : Z),
     pop_wf p -> 0 <= i < pop_count p ->
     let n := rd f0 (population p) i in
     let old := (rd f0 (susceptible p) i, rd f0 (infected p) i,
                 rd f0 (recovered p) i) in
     let '(s, inf, r) :=
       sir_update n (rd f0 (susceptible p) i) (rd f0 (infected p) i)
         (rd f0 (recovered p) i) (rd f0 (beta p) i) (rd f0 (gamma_rec p) i) dt in
     let total := fadd (fadd s inf) r in
     let p' := pop_sir_step p dt in
     let new := (rd f0 (susceptible p') i, rd f0 (infected p') i,
                 rd f0 (recovered p') i) in
     population p' = population p /\
     (fle n f0 = true -> new = old) /\
     (fle n f0 = false -> flt f0 total = false -> new = old) /\
     (fle n f0 = false -> flt f0 total = true ->
      new = (clampf (fdiv s total) f0 f1, clampf (fdiv inf total) f0 f1,
             clampf (fdiv r total) f0 f1))) /\
  (forall q : float32,
     is_nan q = false ->
     leb f0 (clampf q f0 f1) = true /\ leb (clampf q f0 f1) f1 = true) /\
  (forall (p : PopSoA Q) (dt : Q) (i : Z),
     pop_wf p -> 0 <= i < pop_count p ->
     let n := rd f0 (population p) i in
     let '(s, inf, r) :=
       sir_update n (rd f0 (susceptible p) i) (rd f0 (infected p) i)
         (rd f0 (recovered p) i) (rd f0 (beta p) i) (rd f0 (gamma_rec p) i) dt in
     let p' := pop_sir_step p dt in
     (0 < n)%Q -> (0 < s + inf + r)%Q ->
     (0 <= s)%Q -> (0 <= inf)%Q -> (0 <= r)%Q ->
     (rd f0 (susceptible p') i + rd f0 (infected p') i + rd f0 (recovered p') i
      == 1)%Q).
Proof.
  split; [|split].
  - intros F ops p dt i Hwf Hi n old.
    destruct (pop_sir_step_at p dt Hwf) as [Hpop Hrows].
    specialize (Hrows i). simpl in Hrows.
    destruct (Z.leb_spec 0 i); [|lia]. destruct (Z.ltb_spec i (pop_count p)); [|lia].
    simpl andb in Hrows. cbv iota in Hrows.
    unfold pop_sir_step_cell in Hrows. subst n.
    destruct (sir_update _ _ _ _ _ _ dt) as [[s inf] r] eqn:E.
    intros total p' new. subst p' new. rewrite Hrows.
    split; [exact Hpop|].
    split; [intros ->; reflexivity|].
    split; [intros -> Ht; fold total; rewrite Ht; reflexivity|].
    intros -> Ht. fold total. rewrite Ht. reflexivity.
  - intros q Hq. apply clampf_range; [exact Hq|vm_compute; reflexivity].
  - intros p dt i Hwf Hi n.
    destruct (pop_sir_step_at p dt Hwf) as [_ Hrows].
    specialize (Hrows i). simpl in Hrows.
    destruct (Z.leb_spec 0 i); [|lia]. destruct (Z.ltb_spec i (pop_count p)); [|lia].
    simpl andb in Hrows. cbv iota in Hrows.
    unfold pop_sir_step_cell in Hrows. subst n.
    destruct (sir_update _ _ _ _ _ _ dt) as [[s inf] r] eqn:E.
    intros p' Hn Ht Hs Hinf Hr. subst p'.
    change (@fle Q Exact.ops) with Qle_bool in Hrows.
    change (@flt Q Exact.ops) with Exact.ltb in Hrows.
    change (@fadd Q Exact.ops) with Qplus in Hrows.
    change (@fdiv Q Exact.ops) with Qdiv in Hrows.
    change (@f0 Q Exact.ops) with 0%Q in *.
    change (@f1 Q Exact.ops) with 1%Q in *.
    assert (Qle_bool (rd 0%Q (population p) i) 0 = false) as En.
    { apply not_true_iff_false. rewrite Qle_bool_iff. apply Qlt_not_le. exact Hn. }
    assert (Exact.ltb 0 (s + inf + r) = true) as Et by (apply ltb_lt; exact Ht).
    rewrite En, Et in Hrows.
    destruct (le_sum3 s inf r Hs Hinf Hr) as (Ls & Li & Lr).
    destruct (exact_fraction s _ Hs Ls Ht) as [A1 A2].
    destruct (exact_fraction inf _ Hinf Li Ht) as [B1 B2].
    destruct (exact_fraction r _ Hr Lr Ht) as [C1 C2].
    rewrite (clampf_exact_id _ _ _ A1 A2), (clampf_exact_id _ _ _ B1 B2),
      (clampf_exact_id _ _ _ C1 C2) in Hrows.
    injection Hrows as -> -> ->.
    field. intros Ez. rewrite Ez in Ht. revert Ht. apply Qlt_irrefl.
Qed.

Lemma pop_sir_step_normalises_witness :
  let p := (pop_row (F := Q) (1000 # 1) (2000 # 1) 0 (9 # 10) (1 # 10) 0
              (1 # 2) (1 # 10))%Q in
  let p' := pop_sir_step p 1%Q in
  (0 < rd f0 (population p) 0)%Q /\
  (rd f0 (susceptible p') 0 + rd f0 (infected p') 0 + rd f0 (recovered p') 0 == 1)%Q.
Proof.
  intros p p'. split; [reflexivity|].
  assert (pop_wf p) as Hwf by (repeat constructor; simpl; lia).
  assert (0 <= 0 < pop_count p) as Hi by (simpl; lia).
  pose proof (proj2 (proj2 pop_sir_step_normalises) p 1%Q 0 Hwf Hi) as T.
  vm_compute in T. vm_compute.
  apply T; try reflexivity; discriminate.
Defined.

(** C2.  [pop_sir_step] does not keep the three shares normalised to 1,
    which its own comment promises: it divides each updated compartment
    by their total and only then clamps each quotient to [0,1] on its
    own, so a compartment that the update drove below zero is raised to 0
    after the normalisation, and the stored shares no longer sum to 1.
    From the normalised state (0.4, 0.4, 0.2), whose binary32 sum is
    exactly 1, with [beta = 1], [gamma = 0], population 10 and [dt = 30],
    the update gives (-0.08, 0.88, 0.2) with total 1, and the step stores
    0, 0.88 and 0.2 (to the last binary32 digit), whose sum is 1.08.
    Rounding is not the cause: the formula without rounding stores
    0, 22/25 and 1/5, which sum to 27/25. *)
Theorem pop_sir_step_clamp_breaks_sum :
  let p := pop_row (F := float32) (lit 10 1) (lit 100 1) f0
             (lit 4 10) (lit 4 10) (lit 2 10) (lit 1 1) f0 in
  let p' := pop_sir_step p (lit 30 1) in
  let q := (pop_row (F := Q) (10 # 1) (100 # 1) 0 (4 # 10) (4 # 10) (2 # 10)
              1 0)%Q in
  let q' := pop_sir_step q (30 # 1)%Q in
  (ltb f0 (rd f0 (population p) 0) = true /\
   add (add (rd f0 (susceptible p) 0) (rd f0 (infected p) 0))
       (rd f0 (recovered p) 0) = lit 1 1) /\
  (susceptible p' = [S754_zero false] /\
   infected p' = [S754_finite false 14763951 (-24)] /\
   recovered p' = [S754_finite false 13421774 (-26)] /\
   add (add (rd f0 (susceptible p') 0) (rd f0 (infected p') 0))
       (rd f0 (recovered p') 0) = lit 108 100) /\
  ((rd f0 (susceptible q) 0 + rd f0 (infected q) 0 + rd f0 (recovered q) 0 == 1)%Q /\
   (rd f0 (susceptible q') 0 == 0)%Q /\
   (rd f0 (infected q') 0 == 22 # 25)%Q /\
   (rd f0 (recovered q') 0 == 1 # 5)%Q /\
   (rd f0 (susceptible q') 0 + rd f0 (infected q') 0 + rd f0 (recovered q') 0
    == 27 # 25)%Q).
Proof. vm_compute. repeat split. Qed.

(** A group whose three compartments are all 0 has total 0: the step
    stores nothing and the sum stays 0. *)
Example pop_sir_step_empty_compartments :
  let p := pop_row (F := float32) (lit 10 1) (lit 100 1) f0 f0 f0 f0 (lit 1 1) f0 in
  let p' := pop_sir_step p (lit 1 1) in
  ltb f0 (rd f0 (population p) 0) = true /\
  add (add (rd f0 (susceptible p') 0) (rd f0 (infected p') 0))
      (rd f0 (recovered p') 0) = S754_zero false.
Proof. vm_compute. repeat split. Qed.

(** * Further properties of simulation.c *)

(** ** The helpers of simulation.c *)

Lemma ltb_leb_false (x y : float32) : ltb x y = true -> leb y x = false.
Proof.
  unfold ltb, leb, SFltb, SFleb. rewrite (SFcompare_antisym x y).
  destruct (SFcompare x y) as [[]|]; simpl; congruence.
Qed.

Lemma ltb_leb (x y : float32) : ltb x y = true -> leb x y = true.
Proof.
  unfold ltb, leb, SFltb, SFleb.
  destruct (SFcompare x y) as [[]|]; simpl; congruence.
Qed.

Lemma clampf_is_nan (v lo hi : float32) :
  is_nan v = true -> clampf v lo hi = v.
Proof. destruct v; try discriminate. intros _. apply clampf_nan. Qed.

(** X1.  The clamp helper, for bounds [lo <= hi]: a number is mapped
    into [lo, hi], a value already inside is returned as it is, NaN is
    returned as NaN (both comparisons fail), and clamping twice is
    clamping once. *)
Theorem clampf_contract (v lo hi : float32) :
  leb lo hi = true ->
  (is_nan v = false ->
   leb lo (clampf v lo hi) = true /\ leb (clampf v lo hi) hi = true) /\
  (leb lo v = true -> leb v hi = true -> clampf v lo hi = v) /\
  (is_nan v = true -> is_nan (clampf v lo hi) = true) /\
  clampf (clampf v lo hi) lo hi = clampf v lo hi.
Proof.
  intros Hlh. repeat split.
  - apply clampf_range; assumption.
  - apply clampf_range; assumption.
  - apply clampf_id.
  - intros Hv. rewrite clampf_is_nan; assumption.
  - apply clampf_idem. exact Hlh.
Qed.

Lemma clampf_contract_witness :
  leb (lit 0 1) (lit 1 1) = true /\
  clampf (lit 5 1) (lit 0 1) (lit 1 1) = lit 1 1 /\
  clampf (clampf (lit 5 1) (lit 0 1) (lit 1 1)) (lit 0 1) (lit 1 1)
  = clampf (lit 5 1) (lit 0 1) (lit 1 1).
Proof.
  split; [reflexivity|]. split; [reflexivity|].
  apply (clampf_contract (lit 5 1) (lit 0 1) (lit 1 1)). reflexivity.
Defined.

Lemma wrap32_range (z : Z) : 0 <= wrap32 z < 2 ^ 32.
Proof. unfold wrap32. apply Z.mod_pos_bound. lia. Qed.

Lemma wrap32_idem (z : Z) : wrap32 (wrap32 z) = wrap32 z.
Proof. unfold wrap32. apply Z.mod_mod. lia. Qed.

(** X2.  The generator step is injective on the 32-bit states: the
    result is a [uint32_t], it depends on the state modulo 2^32 only,
    and two states with the same successor are the same state (the
    multiplier is odd), so seeded streams never merge. *)
Theorem lcg_next_injective (a b : Z) :
  lcg_next a = lcg_next b ->
  wrap32 a = wrap32 b /\ 0 <= lcg_next a < 2 ^ 32 /\
  lcg_next (wrap32 a) = lcg_next a.
Proof.
  intros Heq. split; [|split].
  - unfold lcg_next, wrap32 in *.
    assert (((a - b) * 1664525) mod 2 ^ 32 = 0) as Hd.
    { replace ((a - b) * 1664525)
        with ((a * 1664525 + 1013904223) - (b * 1664525 + 1013904223)) by ring.
      rewrite Zminus_mod, Heq, Z.sub_diag. reflexivity. }
    apply Z.mod_divide in Hd; [|lia]. destruct Hd as [k Hk].
    assert ((a - b) mod 2 ^ 32 = 0) as Hab.
    { apply Z.mod_divide; [lia|].
      exists (k * 4276115653 - (a - b) * 1657219).
      assert (1664525 * 4276115653 = 1 + 2 ^ 32 * 1657219) as Hinv
        by reflexivity.
      lia. }
    apply Z.mod_divide in Hab; [|lia]. destruct Hab as [j Hj].
    replace a with (b + j * 2 ^ 32) by lia.
    apply Z.mod_add. lia.
  - apply wrap32_range.
  - unfold lcg_next, wrap32.
    rewrite Zplus_mod, Zmult_mod, Z.mod_mod by lia.
    rewrite <- Zmult_mod, <- Zplus_mod. reflexivity.
Qed.

Lemma lcg_next_injective_witness :
  lcg_next 1 = lcg_next 4294967297 /\ wrap32 1 = wrap32 4294967297.
Proof.
  split; [reflexivity|].
  apply (lcg_next_injective 1 4294967297). reflexivity.
Defined.

Lemma binary_round_nonneg (m : positive) (e : Z) :
  is_nonneg (binary_round prec emax false m e) = true.
Proof.
  unfold binary_round. destruct (shl_align m e _) as [mz ez].
  apply binary_round_aux_nonneg. lia.
Qed.

Lemma of_Z_nonneg (m : Z) : 0 <= m -> is_nonneg (of_Z m) = true.
Proof.
  intros Hm. unfold of_Z. destruct m as [|p|p]; simpl;
    [reflexivity|apply binary_round_nonneg|lia].
Qed.

(** A non-negative number over a positive finite float. *)
Lemma div_nonneg_by_finite (x : float32) (my : positive) (ey : Z) :
  is_nonneg x = true -> is_nonneg (div x (S754_finite false my ey)) = true.
Proof.
  destruct x as [sx|[]| |[] mx ex]; simpl; try discriminate; intros _;
    try reflexivity.
  unfold div, SFdiv, SFdiv_core_binary.
  match goal with |- context [Z.div_eucl ?a ?b] =>
    pose proof (Z.div_pos a b) as Hq; unfold Z.div in Hq;
    destruct (Z.div_eucl a b) as [q r] eqn:E end.
  simpl. apply binary_round_aux_nonneg. apply Hq; [|lia].
  match goal with |- 0 <= match ?s with _ => _ end =>
    destruct s eqn:Es; try lia end.
  apply Z.shiftl_nonneg. lia.
Qed.

Lemma lit_nonneg (n : Z) : 0 <= n -> is_nonneg (lit n 1) = true.
Proof.
  intros Hn. unfold lit.
  change (of_Z 1) with (S754_finite false 8388608 (-23)).
  apply div_nonneg_by_finite, of_Z_nonneg, Hn.
Qed.

Lemma shiftr8_range (s : Z) : 0 <= s < 2 ^ 32 -> 0 <= Z.shiftr s 8 < 2 ^ 24.
Proof.
  intros Hs. rewrite Z.shiftr_div_pow2 by lia. split.
  - apply Z.div_pos; lia.
  - apply Z.div_lt_upper_bound; lia.
Qed.

Lemma lcg_float_nonneg (s : Z) :
  is_nonneg (fst (lcg_float (F := float32) s)) = true.
Proof.
  unfold lcg_float, of_int. simpl fst.
  change (flit (Z.shiftl 1 24) 1) with (S754_finite false 8388608 1).
  apply div_nonneg_by_finite. apply lit_nonneg.
  apply shiftr8_range, wrap32_range.
Qed.


(** A non-negative roll is below no probability that is not positive. *)
Lemma nonneg_not_below (r p : float32) :
  is_nonneg r = true -> ltb f0 p = false -> ltb r p = false.
Proof.
  destruct r as [sr|[]| |[] mr er]; simpl; try discriminate; intros _;
    destruct p as [sp|[]| |[] mp ep]; try reflexivity; try discriminate.
Qed.

(** X4.  The three probability rolls never succeed on a probability
    that is not positive (zero, negative or NaN): [faith_miracle_check]
    writes the flag 0, [combat_hit_roll] reports a miss and
    [combat_crit_roll] returns the multiplier 1. *)
Theorem rolls_fail_on_nonpositive_chance :
  (forall (g : Globals) (f : FaithSoA float32) (out : list Z) (i : Z),
     0 <= i < faith_count f ->
     faith_count f <= Z.of_nat (length out) ->
     ltb f0 (mul (rd f0 (miracle_chance f) i) (rd f0 (divine_favor f) i)) = false ->
     rd 0 (faith_miracle_check g f out) i = 0) /\
  (forall (c : CombatSoA float32) (attacker : Z),
     ltb f0 (rd f0 (hit_chance c) attacker) = false ->
     combat_hit_roll c attacker = 0) /\
  (forall (c : CombatSoA float32) (attacker : Z),
     ltb f0 (rd f0 (crit_chance c) attacker) = false ->
     combat_crit_roll c attacker = f1).
Proof.
  split; [|split].
  - intros g f out i Hi Hlen Hp.
    rewrite faith_miracle_check_at by exact Hlen.
    destruct (Z.leb_spec 0 i); [|lia].
    destruct (Z.ltb_spec i (faith_count f)); [|lia].
    simpl andb. cbv iota. unfold faith_miracle_check_cell.
    change (@flt float32 ops) with ltb. change (@fmul float32 ops) with mul.
    rewrite nonneg_not_below; [reflexivity|apply lcg_float_nonneg|exact Hp].
  - intros c attacker Hp. unfold combat_hit_roll.
    destruct (out_of_range attacker (combat_count c)); [reflexivity|].
    change (@flt float32 ops) with ltb.
    rewrite nonneg_not_below; [reflexivity|apply lcg_float_nonneg|exact Hp].
  - intros c attacker Hp. unfold combat_crit_roll.
    destruct (out_of_range attacker (combat_count c)); [reflexivity|].
    change (@flt float32 ops) with ltb.
    rewrite nonneg_not_below; [reflexivity|apply lcg_float_nonneg|exact Hp].
Qed.

Lemma rolls_fail_on_nonpositive_chance_witness :
  let f := faith_row (F := float32) (lit 0 1) (lit 1 1) in
  ltb f0 (mul (rd f0 (miracle_chance f) 0) (rd f0 (divine_favor f) 0)) = false /\
  rd 0 (faith_miracle_check {| global_tick := 3 |} f [1]) 0 = 0.
Proof.
  intros f. split; [reflexivity|].
  apply (proj1 rolls_fail_on_nonpositive_chance {| global_tick := 3 |} f [1] 0).
  - simpl; lia.
  - simpl; lia.
  - reflexivity.
Defined.

Lemma add_one_nonneg (y : float32) :
  is_nonneg y = true -> is_nonneg (add f1 y) = true.
Proof.
  change (@f1 float32 ops) with (S754_finite false 8388608 (-23)).
  destruct y as [sy|[]| |[] my ey]; simpl; try discriminate; intros _;
    try reflexivity.
  apply binary_round_nonneg.
Qed.

(** X5.  [engine_chaos_event] on a valid faction consumes exactly one
    draw of that faction's generator and leaves its chaos multiplier in
    [1, 10], from any positive finite multiplier; entropy and the other
    factions' multipliers are not touched. *)
Theorem engine_chaos_event_mult_bounded (e : EngineSoA float32) (faction : Z) :
  0 <= faction < engine_count e ->
  faction < Z.of_nat (length (chaos_mult e)) ->
  faction < Z.of_nat (length (rng_state e)) ->
  is_finite (rd f0 (chaos_mult e) faction) = true ->
  is_pos (rd f0 (chaos_mult e) faction) = true ->
  let e' := engine_chaos_event e faction in
  leb f1 (rd f0 (chaos_mult e') faction) = true /\
  leb (rd f0 (chaos_mult e') faction) (lit 10 1) = true /\
  rd 0 (rng_state e') faction = lcg_next (rd 0 (rng_state e) faction) /\
  entropy e' = entropy e /\
  forall j, j <> faction ->
    rd f0 (chaos_mult e') j = rd f0 (chaos_mult e) j.
Proof.
  intros Hf Hlen Hlen' Hfin Hpos e'. subst e'. unfold engine_chaos_event.
  rewrite out_of_range_false by exact Hf.
  pose proof (lcg_float_nonneg (rd 0 (rng_state e) faction)) as Hroll.
  assert (snd (lcg_float (F := float32) (rd 0 (rng_state e) faction))
          = lcg_next (rd 0 (rng_state e) faction)) as Hs by reflexivity.
  destruct (lcg_float (rd 0 (rng_state e) faction)) as [roll s'].
  simpl in Hroll, Hs. subst s'.
  assert (leb f1 (lit 10 1) = true) as Hb by reflexivity.
  assert (forall v : float32, is_nan v = false ->
            leb f1 (clampf v f1 (lit 10 1)) = true /\
            leb (clampf v f1 (lit 10 1)) (lit 10 1) = true) as Hcl
    by (intros v Hv; apply clampf_range; assumption).
  destruct (roll <? rd f0 (entropy (set_rng_state e _)) faction)%fl; simpl;
    rewrite !rd_wr_eq by lia.
  - destruct (Hcl (mul (rd f0 (chaos_mult e) faction) (add f1 roll))) as [H1 H2].
    { apply is_nonneg_not_nan, mul_finite_l_not_nan; try assumption.
      apply add_one_nonneg, Hroll. }
    repeat split; try assumption.
    intros j Hj. apply rd_wr_ne. congruence.
  - destruct (Hcl (mul (rd f0 (chaos_mult e) faction) (lit 99 100))) as [H1 H2].
    { apply mul_finite_not_nan; [assumption|reflexivity]. }
    repeat split; try assumption.
    intros j Hj. apply rd_wr_ne. congruence.
Qed.

Lemma engine_chaos_event_mult_bounded_witness :
  let e := engine_entropy_reset (engine_row (F := float32) (lit 1 2)) 0 in
  let e' := engine_chaos_event e 0 in
  leb f1 (rd f0 (chaos_mult e') 0) = true /\
  leb (rd f0 (chaos_mult e') 0) (lit 10 1) = true.
Proof.
  intros e e'.
  pose proof (engine_chaos_event_mult_bounded e 0) as H.
  destruct H as (H1 & H2 & _); [simpl; lia|simpl; lia|simpl; lia|reflexivity|reflexivity|].
  split; assumption.
Defined.

(** ** End game, fire and weather *)

(** Rounding keeps the sign it is given. *)
Lemma binary_round_aux_sign (s : bool) (m e : Z) (l : location) :
  0 <= m ->
  match binary_round_aux prec emax s m e l with
  | S754_zero s' | S754_infinity s' | S754_finite s' _ _ => s' = s
  | S754_nan => False
  end.
Proof.
  intros Hm. unfold binary_round_aux.
  pose proof (shr_fexp_bounds m e l Hm) as H1.
  destruct (shr_fexp prec emax m e l) as [mrs' e']. simpl in H1.
  pose proof (round_nearest_even_bounds (shr_m mrs') (loc_of_shr_record mrs')) as H2.
  assert (0 <= round_nearest_even (shr_m mrs') (loc_of_shr_record mrs')) as H3 by lia.
  pose proof (shr_fexp_bounds _ e' loc_Exact H3) as H4.
  destruct (shr_fexp prec emax _ e' loc_Exact) as [mrs'' e'']. simpl in H4.
  destruct (shr_m mrs'') as [|p|p]; [reflexivity| |lia].
  destruct (e'' <=? emax - prec); reflexivity.
Qed.

Lemma binary_round_neg_le0 (m : positive) (e : Z) :
  leb (binary_round prec emax true m e) f0 = true.
Proof.
  unfold binary_round. destruct (shl_align m e _) as [mz ez].
  pose proof (binary_round_aux_sign true (Zpos mz) ez loc_Exact ltac:(lia)) as Hs.
  destruct (binary_round_aux _ _ _ _ _ _) as [s'|s'| |s' m' e'];
    try contradiction; subst; reflexivity.
Qed.

Lemma clampf_le0 (v : float32) :
  leb v f0 = true -> leb (clampf v f0 (lit 1000000 1)) f0 = true.
Proof.
  destruct v as [s|[]| |[] m e]; try discriminate; intros _;
    try reflexivity; destruct s; reflexivity.
Qed.

(** A value that is not above zero, minus a non-negative step, clamped
    to [0, 1e6], is not above zero. *)
Lemma countdown_expired (t dt : float32) :
  leb t f0 = true -> is_nonneg dt = true ->
  leb (clampf (sub t dt) f0 (lit 1000000 1)) f0 = true.
Proof.
  intros Ht Hdt. apply clampf_le0. revert Ht Hdt.
  destruct t as [st|[]| |[] mt et]; try discriminate; intros _;
    destruct dt as [sd|[]| |[] md ed]; try discriminate; intros _;
    try (destruct st; reflexivity); try (destruct st, sd; reflexivity);
    try reflexivity.
  unfold sub, SFsub. cbv zeta. unfold cond_Zopp.
  match goal with |- context [binary_normalize _ _ ?m ?e _] =>
    assert (m < 0) as Hm by lia; destruct m as [|p|p]; try lia end.
  apply binary_round_neg_le0.
Qed.

Section EndTimer.
Context {F : Type} `{FieldOps F}.

Lemma engine_end_timer_tick_at (e : EngineSoA F) (dt : F) :
  engine_count e <= Z.of_nat (length (end_timer e)) ->
  stability (engine_end_timer_tick e dt) = stability e /\
  engine_count (engine_end_timer_tick e dt) = engine_count e /\
  forall i,
    rd f0 (end_timer (engine_end_timer_tick e dt)) i
    = if (0 <=? i) && (i <? engine_count e)
      then if flt (rd f0 (stability e) i) (flit 1 10)
           then clampf (fsub (rd f0 (end_timer e) i) dt) f0 (flit 1000000 1)
           else rd f0 (end_timer e) i
      else rd f0 (end_timer e) i.
Proof.
  intros Hlen. unfold engine_end_timer_tick.
  pose proof (for_loop_rows
    (fun q j => (rd f0 (end_timer q) j, stability q, engine_count q))
    (fun q => engine_count e <= Z.of_nat (length (end_timer q)))
    (fun j '(t, st, n) =>
       (if flt (rd f0 st j) (flit 1 10)
        then clampf (fsub t dt) f0 (flit 1000000 1) else t, st, n))
    (engine_count e) (engine_end_timer_tick_body dt) e Hlen) as Hloop.
  destruct Hloop as [_ Hrows].
  - intros i q Hi Hq. unfold engine_end_timer_tick_body.
    destruct (flt (rd f0 (stability q) i) (flit 1 10)); simpl.
    + split; [rewrite length_wr; exact Hq|].
      split; [rewrite rd_wr_eq by lia; reflexivity|].
      intros j Hj. rewrite rd_wr_ne by congruence. reflexivity.
    + split; [exact Hq|]. split; [reflexivity|]. intros; reflexivity.
  - split; [|split].
    + specialize (Hrows 0). destruct ((0 <=? 0) && (0 <? engine_count e));
        congruence.
    + specialize (Hrows 0). destruct ((0 <=? 0) && (0 <? engine_count e));
        congruence.
    + intros i. specialize (Hrows i).
      destruct ((0 <=? i) && (i <? engine_count e)); congruence.
Qed.

Lemma engine_end_condition_check_at (e : EngineSoA F) (end_flags : list Z) (i : Z) :
  engine_count e <= Z.of_nat (length end_flags) ->
  rd 0 (engine_end_condition_check e end_flags) i
  = if (0 <=? i) && (i <? engine_count e)
    then (if fle (rd f0 (end_timer e) i) f0 then 1 else 0)
    else rd 0 end_flags i.
Proof.
  intros Hlen. unfold engine_end_condition_check.
  apply (for_loop_rows (fun o j => rd 0 o j)
           (fun o => engine_count e <= Z.of_nat (length o))
           (fun j _ => if fle (rd f0 (end_timer e) j) f0 then 1 else 0));
    [exact Hlen|].
  intros k o Hk Ho. unfold engine_end_condition_check_body.
  split; [rewrite length_wr; exact Ho|].
  split; [apply rd_wr_eq; lia|].
  intros j Hj. apply rd_wr_ne. congruence.
Qed.

End EndTimer.

(** X6.  The end of the game is absorbing: a slot whose end timer has
    run out ([end_timer <= 0]) is flagged by
    [engine_end_condition_check], and no [engine_end_timer_tick] with a
    step [dt >= 0] makes the timer positive again, whatever the slot's
    stability, so the slot is flagged after the tick as well.  A slot
    whose stability is not below 0.1 keeps its timer. *)
Theorem engine_end_timer_expired_stays (e : EngineSoA float32)
    (dt : float32) (end_flags : list Z) (i : Z) :
  engine_count e <= Z.of_nat (length (end_timer e)) ->
  engine_count e <= Z.of_nat (length end_flags) ->
  0 <= i < engine_count e ->
  is_nonneg dt = true ->
  let e' := engine_end_timer_tick e dt in
  (leb (rd f0 (end_timer e) i) f0 = true ->
   leb (rd f0 (end_timer e') i) f0 = true /\
   rd 0 (engine_end_condition_check e end_flags) i = 1 /\
   rd 0 (engine_end_condition_check e' end_flags) i = 1) /\
  (ltb (rd f0 (stability e) i) (lit 1 10) = false ->
   rd f0 (end_timer e') i = rd f0 (end_timer e) i).
Proof.
  intros Hlen Hfl Hi Hdt e'. subst e'.
  destruct (engine_end_timer_tick_at e dt Hlen) as (_ & Hcnt & Hrow).
  assert (((0 <=? i) && (i <? engine_count e)) = true) as Hin.
  { destruct (Z.leb_spec 0 i); [|lia].
    destruct (Z.ltb_spec i (engine_count e)); [reflexivity|lia]. }
  split.
  - intros Hexp.
    assert (leb (rd f0 (end_timer (engine_end_timer_tick e dt)) i) f0 = true)
      as Hexp'.
    { rewrite Hrow, Hin.
      destruct (flt (rd f0 (stability e) i) (flit 1 10)); [|exact Hexp].
      apply countdown_expired; assumption. }
    split; [exact Hexp'|].
    rewrite !engine_end_condition_check_at by (rewrite ?Hcnt; exact Hfl).
    rewrite Hcnt, Hin.
    change (@fle float32 ops) with leb. rewrite Hexp, Hexp'. split; reflexivity.
  - intros Hst. rewrite Hrow, Hin.
    change (@flt float32 ops) with ltb. change (@flit float32 ops) with lit.
    rewrite Hst. reflexivity.
Qed.

Lemma engine_end_timer_expired_stays_witness :
  let e := engine_row (F := float32) (lit 1 1) in
  let e' := engine_end_timer_tick e (lit 1 1) in
  rd 0 (engine_end_condition_check e [0]) 0 = 1 /\
  rd 0 (engine_end_condition_check e' [0]) 0 = 1.
Proof.
  intros e e'.
  pose proof (engine_end_timer_expired_stays e (lit 1 1) [0] 0) as H.
  destruct H as [H _]; [simpl; lia|simpl; lia|simpl; lia|reflexivity|].
  destruct H as (_ & H1 & H2); [reflexivity|].
  split; assumption.
Defined.

Section FireConsume.
Context {F : Type} `{FieldOps F}.

(** What one iteration of [env_fire_consume] leaves in
    ([fire_intensity[i]], [fuel[i]]). *)
Lemma env_fire_consume_at (e : EnvSoA F) (dt : F) :
  env_count e <= Z.of_nat (length (fire_intensity e)) ->
  env_count e <= Z.of_nat (length (fuel e)) ->
  forall i,
    (rd f0 (fire_intensity (env_fire_consume e dt)) i,
     rd f0 (fuel (env_fire_consume e dt)) i)
    = let int := rd f0 (fire_intensity e) i in
      let fu := rd f0 (fuel e) i in
      if (0 <=? i) && (i <? env_count e) then
        if fle int f0 then (int, fu) else
        let fu' := clampf (fsub fu (fmul (fmul (flit 1 10) int) dt)) f0 f1 in
        (if fle fu' f0 then f0
         else clampf (fsub int (fmul (flit 1 100) dt)) f0 f1, fu')
      else (int, fu).
Proof.
  intros Hl1 Hl2. unfold env_fire_consume.
  pose proof (for_loop_rows
    (fun q j => (rd f0 (fire_intensity q) j, rd f0 (fuel q) j))
    (fun q => env_count e <= Z.of_nat (length (fire_intensity q)) /\
              env_count e <= Z.of_nat (length (fuel q)))
    (fun j '(int, fu) =>
       if fle int f0 then (int, fu) else
       let fu' := clampf (fsub fu (fmul (fmul (flit 1 10) int) dt)) f0 f1 in
       (if fle fu' f0 then f0
        else clampf (fsub int (fmul (flit 1 100) dt)) f0 f1, fu'))
    (env_count e) (env_fire_consume_body dt) e (conj Hl1 Hl2)) as Hloop.
  destruct Hloop as [_ Hrows].
  - intros i q Hi [Hq1 Hq2]. unfold env_fire_consume_body. cbv zeta.
    destruct (fle (rd f0 (fire_intensity q) i) f0).
    { split; [split; assumption|]. split; [reflexivity|]. intros; reflexivity. }
    simpl. rewrite (rd_wr_eq f0 (fuel q)) by lia.
    destruct (fle (clampf _ f0 f1) f0); simpl.
    + split; [rewrite !length_wr; split; assumption|].
      split; [rewrite !rd_wr_eq by lia; reflexivity|].
      intros j Hj. rewrite !rd_wr_ne by congruence. reflexivity.
    + split; [rewrite !length_wr; split; assumption|].
      split; [rewrite !rd_wr_eq by lia; reflexivity|].
      intros j Hj. rewrite !rd_wr_ne by congruence. reflexivity.
  - intros i. rewrite Hrows. cbv zeta.
    destruct ((0 <=? i) && (i <? env_count e)); reflexivity.
Qed.

Lemma env_drought_check_at (e : EnvSoA F) (threshold : F) (flags : list Z) (i : Z) :
  env_count e <= Z.of_nat (length flags) ->
  rd 0 (env_drought_check e threshold flags) i
  = if (0 <=? i) && (i <? env_count e)
    then (if flt (rd f0 (rainfall e) i) threshold then 1 else 0)
    else rd 0 flags i.
Proof.
  intros Hlen. unfold env_drought_check.
  apply (for_loop_rows (fun o j => rd 0 o j)
           (fun o => env_count e <= Z.of_nat (length o))
           (fun j _ => if flt (rd f0 (rainfall e) j) threshold then 1 else 0));
    [exact Hlen|].
  intros k o Hk Ho. unfold env_drought_check_body.
  split; [rewrite length_wr; exact Ho|].
  split; [apply rd_wr_eq; lia|].
  intros j Hj. apply rd_wr_ne. congruence.
Qed.

Lemma env_flood_check_at (e : EnvSoA F) (threshold : F) (flags : list Z) (i : Z) :
  env_count e <= Z.of_nat (length flags) ->
  rd 0 (env_flood_check e threshold flags) i
  = if (0 <=? i) && (i <? env_count e)
    then (if flt threshold (rd f0 (rainfall e) i) then 1 else 0)
    else rd 0 flags i.
Proof.
  intros Hlen. unfold env_flood_check.
  apply (for_loop_rows (fun o j => rd 0 o j)
           (fun o => env_count e <= Z.of_nat (length o))
           (fun j _ => if flt threshold (rd f0 (rainfall e) j) then 1 else 0));
    [exact Hlen|].
  intros k o Hk Ho. unfold env_flood_check_body.
  split; [rewrite length_wr; exact Ho|].
  split; [apply rd_wr_eq; lia|].
  intros j Hj. apply rd_wr_ne. congruence.
Qed.

End FireConsume.

(** X7.  [env_fire_consume] never leaves a fire without fuel and never
    lights one: a tile that burns after the pass ([fire_intensity > 0])
    has fuel left (its fuel is not [<= 0]) and was not extinguished
    before the pass; a tile that was extinguished ([fire_intensity <= 0])
    keeps its intensity and its fuel. *)
Theorem env_fire_consume_needs_fuel (e : EnvSoA float32) (dt : float32) (i : Z) :
  env_count e <= Z.of_nat (length (fire_intensity e)) ->
  env_count e <= Z.of_nat (length (fuel e)) ->
  0 <= i < env_count e ->
  let e' := env_fire_consume e dt in
  (ltb f0 (rd f0 (fire_intensity e') i) = true ->
   leb (rd f0 (fuel e') i) f0 = false /\
   leb (rd f0 (fire_intensity e) i) f0 = false) /\
  (leb (rd f0 (fire_intensity e) i) f0 = true ->
   rd f0 (fire_intensity e') i = rd f0 (fire_intensity e) i /\
   rd f0 (fuel e') i = rd f0 (fuel e) i).
Proof.
  intros Hl1 Hl2 Hi e'. subst e'.
  pose proof (env_fire_consume_at e dt Hl1 Hl2 i) as Hrow. cbv zeta in Hrow.
  destruct (Z.leb_spec 0 i); [|lia].
  destruct (Z.ltb_spec i (env_count e)); [|lia]. simpl andb in Hrow. cbv iota in Hrow.
  change (@fle float32 ops) with leb in Hrow.
  destruct (leb (rd f0 (fire_intensity e) i) f0) eqn:Eint.
  - apply pair_equal_spec in Hrow. destruct Hrow as [Hr1 Hr2].
    rewrite Hr1, Hr2. split.
    + intros Hburn. apply ltb_leb_false in Hburn. congruence.
    + intros _. split; reflexivity.
  - split; [|discriminate].
    match type of Hrow with context [leb ?x f0] =>
      destruct (leb x f0) eqn:Efu end;
      apply pair_equal_spec in Hrow; destruct Hrow as [Hr1 Hr2];
      rewrite Hr1, Hr2.
    + intros Hburn. discriminate Hburn.
    + intros _. split; [exact Efu|reflexivity].
Qed.

Lemma env_fire_consume_needs_fuel_witness :
  let e := env_row (F := float32) f0 (lit 1 2) (lit 1 2) in
  let e' := env_fire_consume e (lit 1 1) in
  ltb f0 (rd f0 (fire_intensity e') 0) = true /\
  leb (rd f0 (fuel e') 0) f0 = false.
Proof.
  intros e e'. split; [reflexivity|].
  pose proof (env_fire_consume_needs_fuel e (lit 1 1) 0) as H.
  destruct H as [H _]; [simpl; lia|simpl; lia|simpl; lia|].
  apply H. reflexivity.
Defined.

(** ** Flags, morale and golden ages *)

Lemma ltb_irrefl (x : float32) : ltb x x = false.
Proof.
  destruct (is_nan x) eqn:Hx.
  - destruct x; try discriminate. reflexivity.
  - apply leb_ltb_false, leb_refl, Hx.
Qed.

Lemma ltb_asym (x y : float32) : ltb x y = true -> ltb y x = false.
Proof. intros Hxy. apply leb_ltb_false, ltb_leb, Hxy. Qed.

Lemma in_range_true (i n : Z) : 0 <= i < n -> (0 <=? i) && (i <? n) = true.
Proof.
  intros Hi. destruct (Z.leb_spec 0 i); [|lia].
  destruct (Z.ltb_spec i n); [reflexivity|lia].
Qed.

(** X8.  For one threshold, [env_drought_check] and [env_flood_check]
    write flags 0 or 1 and never flag the same tile both ways; a tile
    whose rainfall equals the threshold, or is NaN, gets neither flag. *)
Theorem env_drought_flood_exclusive (e : EnvSoA float32) (threshold : float32)
    (drought_flags flood_flags : list Z) (i : Z) :
  env_count e <= Z.of_nat (length drought_flags) ->
  env_count e <= Z.of_nat (length flood_flags) ->
  0 <= i < env_count e ->
  let d := rd 0 (env_drought_check e threshold drought_flags) i in
  let f := rd 0 (env_flood_check e threshold flood_flags) i in
  (d = 0 \/ d = 1) /\ (f = 0 \/ f = 1) /\ d + f <= 1 /\
  (rd f0 (rainfall e) i = threshold \/ is_nan (rd f0 (rainfall e) i) = true ->
   d = 0 /\ f = 0).
Proof.
  intros Hl1 Hl2 Hi d f. subst d f.
  rewrite env_drought_check_at, env_flood_check_at by assumption.
  rewrite (in_range_true _ _ Hi).
  change (@flt float32 ops) with ltb.
  destruct (ltb (rd f0 (rainfall e) i) threshold) eqn:Ed.
  - rewrite (ltb_asym _ _ Ed).
    split; [right; reflexivity|]. split; [left; reflexivity|].
    split; [lia|]. intros [Heq|Hnan].
    + rewrite Heq, ltb_irrefl in Ed. discriminate.
    + destruct (rd f0 (rainfall e) i); discriminate.
  - split; [left; reflexivity|].
    destruct (ltb threshold (rd f0 (rainfall e) i)) eqn:Ef.
    + split; [right; reflexivity|]. split; [lia|]. intros [Heq|Hnan].
      * rewrite Heq, ltb_irrefl in Ef. discriminate.
      * destruct (rd f0 (rainfall e) i); try discriminate.
        destruct threshold; discriminate.
    + split; [left; reflexivity|]. split; [lia|]. intros _. split; reflexivity.
Qed.

Lemma env_drought_flood_exclusive_witness :
  let e := env_row (F := float32) (lit 3 1) f0 f0 in
  rd 0 (env_drought_check e (lit 5 1) [7]) 0
  + rd 0 (env_flood_check e (lit 5 1) [7]) 0 <= 1.
Proof.
  intros e.
  apply (env_drought_flood_exclusive e (lit 5 1) [7] [7] 0); simpl; lia.
Defined.

Section MoraleFromPsych.
Context {F : Type} `{FieldOps F}.

Lemma psych_morale_from_psych_at (p : PsychSoA F) (c : CombatSoA F) :
  Z.min (psych_count p) (combat_count c) <= Z.of_nat (length (morale c)) ->
  hp (psych_morale_from_psych p c) = hp c /\
  combat_count (psych_morale_from_psych p c) = combat_count c /\
  forall i,
    rd f0 (morale (psych_morale_from_psych p c)) i
    = if (0 <=? i) && (i <? Z.min (psych_count p) (combat_count c))
      then clampf (fmul (fmul (rd f0 (happiness p) i)
                              (fsub f1 (rd f0 (fear p) i)))
                        (rd f0 (loyalty p) i)) f0 f1
      else rd f0 (morale c) i.
Proof.
  intros Hlen. unfold psych_morale_from_psych. cbv zeta.
  replace (if psych_count p <? combat_count c
           then psych_count p else combat_count c)
    with (Z.min (psych_count p) (combat_count c))
    by (destruct (Z.ltb_spec (psych_count p) (combat_count c)); lia).
  set (n := Z.min _ _) in *.
  pose proof (for_loop_rows
    (fun q j => (rd f0 (morale q) j, hp q, combat_count q))
    (fun q => n <= Z.of_nat (length (morale q)))
    (fun j '(_, h, k) =>
       (clampf (fmul (fmul (rd f0 (happiness p) j)
                           (fsub f1 (rd f0 (fear p) j)))
                     (rd f0 (loyalty p) j)) f0 f1, h, k))
    n (psych_morale_from_psych_body p) c Hlen) as Hloop.
  destruct Hloop as [_ Hrows].
  - intros i q Hi Hq. unfold psych_morale_from_psych_body; simpl.
    split; [rewrite length_wr; exact Hq|].
    split; [rewrite rd_wr_eq by lia; reflexivity|].
    intros j Hj. rewrite rd_wr_ne by congruence. reflexivity.
  - split; [|split].
    + specialize (Hrows 0). destruct ((0 <=? 0) && (0 <? n)); congruence.
    + specialize (Hrows 0). destruct ((0 <=? 0) && (0 <? n)); congruence.
    + intros i. specialize (Hrows i).
      destruct ((0 <=? i) && (i <? n)); congruence.
Qed.

End MoraleFromPsych.

(** X9.  [psych_morale_from_psych] rewrites the morale of the units
    that have a psychology record and of no others: below both counts
    the new morale is [clampf (happiness * (1 - fear) * loyalty) 0 1],
    which lies in [0, 1] whenever that product is a number; from the
    smaller count on, morale is kept, also for units inside the Combat
    container.  Hit points and the unit count are not touched. *)
Theorem psych_morale_from_psych_bounded (p : PsychSoA float32)
    (c : CombatSoA float32) (i : Z) :
  Z.min (psych_count p) (combat_count c) <= Z.of_nat (length (morale c)) ->
  let c' := psych_morale_from_psych p c in
  let m := mul (mul (rd f0 (happiness p) i) (sub f1 (rd f0 (fear p) i)))
               (rd f0 (loyalty p) i) in
  (0 <= i < psych_count p -> i < combat_count c ->
   rd f0 (morale c') i = clampf m f0 f1 /\
   (is_nan m = false ->
    leb f0 (rd f0 (morale c') i) = true /\ leb (rd f0 (morale c') i) f1 = true)) /\
  (psych_count p <= i \/ combat_count c <= i ->
   rd f0 (morale c') i = rd f0 (morale c) i) /\
  hp c' = hp c /\ combat_count c' = combat_count c.
Proof.
  intros Hlen c' m. subst c'.
  destruct (psych_morale_from_psych_at p c Hlen) as (Hhp & Hcnt & Hrow).
  split; [|split; [|split; assumption]].
  - intros Hi Hi'. rewrite Hrow, in_range_true by lia.
    split; [reflexivity|].
    intros Hm. apply clampf_range; [exact Hm|reflexivity].
  - intros Hi. rewrite Hrow.
    destruct (Z.leb_spec 0 i); [|reflexivity].
    destruct (Z.ltb_spec i (Z.min (psych_count p) (combat_count c)));
      [lia|reflexivity].
Qed.

(** X10.  A golden age cannot be restarted while it runs: with a
    positive timer [tech_golden_age_trigger] changes nothing, whatever
    the culture and the threshold; right after a trigger that fired, a
    further trigger with any threshold changes nothing; and triggering
    twice with one threshold is triggering once. *)
Theorem tech_golden_age_no_restart (t : TechSoA float32) (nation : Z)
    (threshold : float32) :
  0 <= nation < tech_count t ->
  nation < Z.of_nat (length (golden_age_timer t)) ->
  (ltb f0 (rd f0 (golden_age_timer t) nation) = true ->
   tech_golden_age_trigger t nation threshold = t) /\
  (leb threshold (rd f0 (culture t) nation) = true ->
   leb (rd f0 (golden_age_timer t) nation) f0 = true ->
   rd f0 (golden_age_timer (tech_golden_age_trigger t nation threshold)) nation
   = lit 500 1 /\
   forall threshold',
     tech_golden_age_trigger (tech_golden_age_trigger t nation threshold)
       nation threshold'
     = tech_golden_age_trigger t nation threshold) /\
  tech_golden_age_trigger (tech_golden_age_trigger t nation threshold)
    nation threshold
  = tech_golden_age_trigger t nation threshold.
Proof.
  intros Hn Hlen.
  assert (forall th', let t1 := tech_golden_age_trigger t nation threshold in
            leb threshold (rd f0 (culture t) nation)
            && leb (rd f0 (golden_age_timer t) nation) f0 = true ->
            rd f0 (golden_age_timer t1) nation = lit 500 1 /\
            tech_golden_age_trigger t1 nation th' = t1) as Hfired.
  { intros th' t1 Hc. subst t1. unfold tech_golden_age_trigger at 1 3 4.
    rewrite out_of_range_false by exact Hn.
    change (@fle float32 ops) with leb. rewrite Hc.
    split; [simpl; apply rd_wr_eq; lia|].
    unfold tech_golden_age_trigger. simpl.
    rewrite out_of_range_false by exact Hn.
    rewrite rd_wr_eq by lia.
    assert (leb (lit 500 1) (lit 0 1) = false) as E500
      by (vm_compute; reflexivity).
    rewrite E500, andb_false_r. reflexivity. }
  split; [|split].
  - intros Hact. unfold tech_golden_age_trigger.
    rewrite out_of_range_false by exact Hn.
    change (@fle float32 ops) with leb.
    rewrite (ltb_leb_false _ _ Hact), andb_false_r. reflexivity.
  - intros Hc Ht. split.
    + apply (Hfired threshold). rewrite Hc, Ht. reflexivity.
    + intros th'. apply Hfired. rewrite Hc, Ht. reflexivity.
  - destruct (leb threshold (rd f0 (culture t) nation)
              && leb (rd f0 (golden_age_timer t) nation) f0) eqn:Hc.
    + apply (Hfired threshold). reflexivity.
    + assert (tech_golden_age_trigger t nation threshold = t) as Hsame.
      { unfold tech_golden_age_trigger.
        rewrite out_of_range_false by exact Hn.
        change (@fle float32 ops) with leb. rewrite Hc. reflexivity. }
      rewrite !Hsame. reflexivity.
Qed.

Lemma tech_golden_age_no_restart_witness :
  let t := tech_row (F := float32) (lit 3 1) in
  tech_golden_age_trigger (tech_golden_age_trigger t 0 f0) 0 f0
  = tech_golden_age_trigger t 0 f0.
Proof.
  intros t.
  apply (tech_golden_age_no_restart t 0 f0); simpl; lia.
Defined.

Lemma psych_morale_from_psych_bounded_witness :
  let p := psych_row (F := float32) (lit 1 1) (lit 1 2) (lit 1 1) in
  let c := combat_row (F := float32) f0 f0 f0 f0 f0 in
  let c' := psych_morale_from_psych p c in
  rd f0 (morale c') 0
  = clampf (mul (mul (lit 1 1) (sub f1 (lit 1 2))) (lit 1 1)) f0 f1 /\
  leb f0 (rd f0 (morale c') 0) = true /\ leb (rd f0 (morale c') 0) f1 = true.
Proof.
  intros p c c'.
  pose proof (psych_morale_from_psych_bounded p c 0) as H.
  destruct H as [H _]; [simpl; lia|].
  destruct H as [Heq Hin]; [simpl; lia|simpl; lia|].
  split; [exact Heq|]. apply Hin. reflexivity.
Defined.

(** ** Passes that clamp to a capacity *)

Lemma rd_wr_cases {A : Type} (d : A) (col : list A) (i j : Z) (v : A) :
  rd d (wr col i v) j = rd d col j \/ (j = i /\ rd d (wr col i v) j = v).
Proof.
  destruct (Z.eq_dec i j) as [<-|Hij].
  - destruct (Z_lt_dec i 0) as [Hneg|Hpos].
    + left. rewrite wr_out_of_range by lia. reflexivity.
    + destruct (Z_lt_dec i (Z.of_nat (length col))) as [Hin|Hout].
      * right. split; [reflexivity|]. apply rd_wr_eq. lia.
      * left. rewrite wr_out_of_range by lia. reflexivity.
  - left. apply rd_wr_ne. exact Hij.
Qed.

Lemma nan_or_within_clampf (v lo hi : float32) :
  leb lo hi = true -> nan_or_within (clampf v lo hi) lo hi = true.
Proof.
  intros Hlh. unfold nan_or_within. destruct (is_nan v) eqn:Hv.
  - rewrite clampf_is_nan by exact Hv. rewrite Hv. reflexivity.
  - destruct (clampf_range v lo hi Hv Hlh) as [H1 H2].
    rewrite H1, H2. apply orb_true_r.
Qed.

(** A pass whose iterations either keep a cell of [col] or store a
    value clamped to [0, cap] keeps every cell that is NaN or inside
    [0, cap] so. *)
Section ClampedPass.
Context {S : Type} (col cap : S -> list float32).

Lemma clamped_pass (body : Z -> S -> S) (s : S) (n : Z) :
  (forall i q, cap (body i q) = cap q /\
     forall j, rd f0 (col (body i q)) j = rd f0 (col q) j \/
               exists v, rd f0 (col (body i q)) j
                         = clampf v f0 (rd f0 (cap q) j)) ->
  cap (for_loop n body s) = cap s /\
  forall j, leb f0 (rd f0 (cap s) j) = true ->
    nan_or_within (rd f0 (col s) j) f0 (rd f0 (cap s) j) = true ->
    nan_or_within (rd f0 (col (for_loop n body s)) j) f0 (rd f0 (cap s) j)
    = true.
Proof.
  intros Hbody.
  destruct (Z.le_gt_cases 0 n) as [Hn|Hn].
  2:{ rewrite for_loop_nonpos by lia. split; [reflexivity|]. intros; assumption. }
  apply (for_loop_ind (fun _ q =>
    cap q = cap s /\
    forall j, leb f0 (rd f0 (cap s) j) = true ->
      nan_or_within (rd f0 (col s) j) f0 (rd f0 (cap s) j) = true ->
      nan_or_within (rd f0 (col q) j) f0 (rd f0 (cap s) j) = true));
    [exact Hn| |].
  - split; [reflexivity|]. intros; assumption.
  - intros k q _ [Hcap Hin]. destruct (Hbody k q) as [Hc Hcells].
    split; [congruence|]. intros j Hk0 Hj.
    destruct (Hcells j) as [Hsame|[v Hv]].
    + rewrite Hsame. apply Hin; assumption.
    + rewrite Hv, Hcap. apply nan_or_within_clampf. exact Hk0.
Qed.

End ClampedPass.

(** One store of a clamped value into the column. *)
Ltac clamped_store :=
  match goal with
  | |- rd ?d (wr ?c ?i ?v) ?j = _ \/ _ =>
      destruct (rd_wr_cases d c i j v) as [Hsame|[-> Hnew]];
      [left; exact Hsame|right; eexists; exact Hnew]
  end.

(** X11.  The population passes keep the population inside
    [0, carrying_cap]: after [pop_starvation], [pop_birth_rate],
    [pop_death_rate], [pop_epidemic_mortality] or [pop_recovery_bonus],
    for any rates and any [dt], a group with a non-negative capacity
    whose population was inside [0, carrying_cap] (or NaN) still is, and
    no capacity is changed. *)
Theorem pop_passes_keep_capacity (p : PopSoA float32)
    (mortality_rate dt : float32) (i : Z) :
  leb f0 (rd f0 (carrying_cap p) i) = true ->
  nan_or_within (rd f0 (population p) i) f0 (rd f0 (carrying_cap p) i) = true ->
  Forall (fun p' =>
            carrying_cap p' = carrying_cap p /\
            nan_or_within (rd f0 (population p') i) f0
              (rd f0 (carrying_cap p) i) = true)
    [pop_starvation p dt; pop_birth_rate p dt; pop_death_rate p dt;
     pop_epidemic_mortality p mortality_rate dt; pop_recovery_bonus p dt].
Proof.
  intros Hcap Hpop.
  assert (forall body : Z -> PopSoA float32 -> PopSoA float32,
    (forall k q, carrying_cap (body k q) = carrying_cap q /\
       forall j, rd f0 (population (body k q)) j = rd f0 (population q) j \/
                 exists v, rd f0 (population (body k q)) j
                           = clampf v f0 (rd f0 (carrying_cap q) j)) ->
    carrying_cap (for_loop (pop_count p) body p) = carrying_cap p /\
    nan_or_within (rd f0 (population (for_loop (pop_count p) body p)) i) f0
      (rd f0 (carrying_cap p) i) = true) as Hpass.
  { intros body Hbody.
    destruct (clamped_pass population carrying_cap body p (pop_count p) Hbody)
      as [Hc Hin].
    split; [exact Hc|]. apply Hin; assumption. }
  repeat apply Forall_cons_2; try apply Forall_nil_2; apply Hpass; intros k q.
  - unfold pop_starvation_body. cbv zeta.
    destruct (_ <=? _)%fl; [split; [reflexivity|]; intros; left; reflexivity|].
    split; [reflexivity|]. intros j. simpl. clamped_store.
  - unfold pop_birth_rate_body. split; [reflexivity|]. intros j. simpl.
    clamped_store.
  - unfold pop_death_rate_body. split; [reflexivity|]. intros j. simpl.
    clamped_store.
  - unfold pop_epidemic_mortality_body. split; [reflexivity|]. intros j. simpl.
    clamped_store.
  - unfold pop_recovery_bonus_body. split; [reflexivity|]. intros j. simpl.
    clamped_store.
Qed.

Lemma pop_passes_keep_capacity_witness :
  let p := pop_row (F := float32) (lit 50 1) (lit 100 1) f0 f0 (lit 1 2) f0 f0 f0 in
  nan_or_within (rd f0 (population (pop_epidemic_mortality p (lit 1 10) (lit 1 1))) 0)
    f0 (lit 100 1) = true.
Proof.
  intros p.
  pose proof (pop_passes_keep_capacity p (lit 1 10) (lit 1 1) 0) as H.
  rewrite !Forall_cons in H.
  destruct H as (_ & _ & _ & [_ H] & _); [reflexivity|reflexivity|].
  exact H.
Defined.

(** X12.  The stock passes keep every stockpile inside
    [0, max_resource]: after [econ_gather], [econ_deplete],
    [econ_collect_tax] or [econ_resource_cap], a pool with a
    non-negative capacity whose stock was inside [0, max_resource] (or
    NaN) still is, and no capacity is changed. *)
Theorem econ_passes_keep_capacity (e : EconSoA float32)
    (population : list float32) (dt : float32) (i : Z) :
  leb f0 (rd f0 (max_resource e) i) = true ->
  nan_or_within (rd f0 (resource e) i) f0 (rd f0 (max_resource e) i) = true ->
  Forall (fun e' =>
            max_resource e' = max_resource e /\
            nan_or_within (rd f0 (resource e') i) f0
              (rd f0 (max_resource e) i) = true)
    [econ_gather e dt; econ_deplete e dt; econ_collect_tax e population;
     econ_resource_cap e].
Proof.
  intros Hcap Hres.
  assert (forall body : Z -> EconSoA float32 -> EconSoA float32,
    (forall k q, max_resource (body k q) = max_resource q /\
       forall j, rd f0 (resource (body k q)) j = rd f0 (resource q) j \/
                 exists v, rd f0 (resource (body k q)) j
                           = clampf v f0 (rd f0 (max_resource q) j)) ->
    max_resource (for_loop (econ_count e) body e) = max_resource e /\
    nan_or_within (rd f0 (resource (for_loop (econ_count e) body e)) i) f0
      (rd f0 (max_resource e) i) = true) as Hpass.
  { intros body Hbody.
    destruct (clamped_pass resource max_resource body e (econ_count e) Hbody)
      as [Hc Hin].
    split; [exact Hc|]. apply Hin; assumption. }
  repeat apply Forall_cons_2; try apply Forall_nil_2; apply Hpass; intros k q.
  - unfold econ_gather_body. split; [reflexivity|]. intros j. simpl.
    clamped_store.
  - unfold econ_deplete_body. split; [reflexivity|]. intros j. simpl.
    clamped_store.
  - unfold econ_collect_tax_body. split; [reflexivity|]. intros j. simpl.
    clamped_store.
  - unfold econ_resource_cap_body. split; [reflexivity|]. intros j. simpl.
    clamped_store.
Qed.

Lemma econ_passes_keep_capacity_witness :
  let e := econ_row (F := float32) (lit 5 1) (lit 10 1) f0 f0 f0 f0 in
  nan_or_within (rd f0 (resource (econ_gather e (lit 1 1))) 0) f0 (lit 10 1)
  = true.
Proof.
  intros e.
  pose proof (econ_passes_keep_capacity e [] (lit 1 1) 0) as H.
  rewrite !Forall_cons in H.
  destruct H as ([_ H] & _); [reflexivity|reflexivity|].
  exact H.
Defined.

(** ** Conservation without rounding *)

(** Read the abstract operations at the exact instance. *)
Ltac exact_ops :=
  change (@fadd Q Exact.ops) with Qplus in *;
  change (@fsub Q Exact.ops) with Qminus in *;
  change (@fmul Q Exact.ops) with Qmult in *;
  change (@fdiv Q Exact.ops) with Qdiv in *;
  change (@flt Q Exact.ops) with Exact.ltb in *;
  change (@fle Q Exact.ops) with Qle_bool in *;
  change (@f0 Q Exact.ops) with 0%Q in *;
  change (@f1 Q Exact.ops) with 1%Q in *.

Section CohortShift.
Context {F : Type} `{FieldOps F}.

Lemma pop_age_cohort_shift_at (p : PopSoA F) (dt : F) :
  cols_cover (pop_count p) [age_young p; age_adult p; age_elder p] ->
  forall i,
    (rd f0 (age_young (pop_age_cohort_shift p dt)) i,
     rd f0 (age_adult (pop_age_cohort_shift p dt)) i,
     rd f0 (age_elder (pop_age_cohort_shift p dt)) i)
    = let young := rd f0 (age_young p) i in
      let adult := rd f0 (age_adult p) i in
      let elder := rd f0 (age_elder p) i in
      if (0 <=? i) && (i <? pop_count p) then
        let ya := fmul (fmul young (flit 2 1000)) dt in
        let ae := fmul (fmul adult (flit 2 1000)) dt in
        (clampf (fsub young ya) f0 f1,
         clampf (fsub (fadd adult ya) ae) f0 f1,
         clampf (fadd elder ae) f0 f1)
      else (young, adult, elder).
Proof.
  intros Hwf. unfold cols_cover in Hwf. rewrite !Forall_cons in Hwf.
  destruct Hwf as (Hy & Ha & He & _).
  unfold pop_age_cohort_shift.
  pose proof (for_loop_rows
    (fun q j => (rd f0 (age_young q) j, rd f0 (age_adult q) j,
                 rd f0 (age_elder q) j))
    (fun q => pop_count p <= Z.of_nat (length (age_young q)) /\
              pop_count p <= Z.of_nat (length (age_adult q)) /\
              pop_count p <= Z.of_nat (length (age_elder q)))
    (fun j '(young, adult, elder) =>
       let ya := fmul (fmul young (flit 2 1000)) dt in
       let ae := fmul (fmul adult (flit 2 1000)) dt in
       (clampf (fsub young ya) f0 f1,
        clampf (fsub (fadd adult ya) ae) f0 f1,
        clampf (fadd elder ae) f0 f1))
    (pop_count p) (pop_age_cohort_shift_body dt) p
    (conj Hy (conj Ha He))) as Hloop.
  destruct Hloop as [_ Hrows].
  - intros i q Hi (Hq1 & Hq2 & Hq3). unfold pop_age_cohort_shift_body; simpl.
    split; [rewrite !length_wr; auto|].
    split; [rewrite !rd_wr_eq by lia; reflexivity|].
    intros j Hj. rewrite !rd_wr_ne by congruence. reflexivity.
  - intros i. rewrite Hrows. cbv zeta.
    destruct ((0 <=? i) && (i <? pop_count p)); reflexivity.
Qed.

End CohortShift.

(** X13.  Without rounding, [pop_age_cohort_shift] moves people between
    the cohorts and loses none: for non-negative cohort fractions with
    sum at most 1 and a step with [0 <= 0.002 * dt <= 1], the young
    cohort shrinks, the elder cohort grows, all three stay in [0, 1], and
    young + adult + elder is unchanged. *)
Theorem pop_age_cohort_shift_conserves (p : PopSoA Q) (dt : Q) (i : Z) :
  cols_cover (pop_count p) [age_young p; age_adult p; age_elder p] ->
  0 <= i < pop_count p ->
  let young := rd f0 (age_young p) i in
  let adult := rd f0 (age_adult p) i in
  let elder := rd f0 (age_elder p) i in
  (0 <= young)%Q -> (0 <= adult)%Q -> (0 <= elder)%Q ->
  (young + adult + elder <= 1)%Q ->
  (0 <= dt)%Q -> (dt <= 500)%Q ->
  let p' := pop_age_cohort_shift p dt in
  let young' := rd f0 (age_young p') i in
  let adult' := rd f0 (age_adult p') i in
  let elder' := rd f0 (age_elder p') i in
  (young' + adult' + elder' == young + adult + elder)%Q /\
  (0 <= young' <= young)%Q /\ (0 <= adult')%Q /\ (elder <= elder')%Q.
Proof.
  intros Hwf Hi young adult elder Hy Ha He Hsum Hdt0 Hdt1 p' young' adult' elder'.
  pose proof (pop_age_cohort_shift_at p dt Hwf i) as Hrow. cbv zeta in Hrow.
  rewrite (in_range_true _ _ Hi) in Hrow.
  fold p' in Hrow. fold young' adult' elder' in Hrow.
  fold young adult elder in Hrow.
  apply pair_equal_spec in Hrow. destruct Hrow as [Hrow He'].
  apply pair_equal_spec in Hrow. destruct Hrow as [Hy' Ha'].
  clearbody young' adult' elder' young adult elder. clear p'.
  exact_ops. change (@flit Q Exact.ops 2 1000) with (2 # 1000)%Q in *.
  set (ya := (young * (2 # 1000) * dt)%Q) in *.
  set (ae := (adult * (2 # 1000) * dt)%Q) in *.
  assert (0 <= ya <= young)%Q as Hya by (unfold ya; split; nra).
  assert (0 <= ae <= adult)%Q as Hae by (unfold ae; split; nra).
  clearbody ya ae.
  rewrite clampf_exact_id in Hy', Ha', He' by lra.
  subst young' adult' elder'. repeat split; lra.
Qed.

Lemma pop_age_cohort_shift_conserves_witness :
  let p := cohort_row (F := Q) (3 # 10) (5 # 10) (2 # 10) in
  let p' := pop_age_cohort_shift p 10%Q in
  (rd f0 (age_young p') 0 + rd f0 (age_adult p') 0 + rd f0 (age_elder p') 0
   == (3 # 10) + (5 # 10) + (2 # 10))%Q.
Proof.
  intros p p'.
  refine (proj1 (pop_age_cohort_shift_conserves p 10%Q 0 _ _ _ _ _ _ _ _)).
  - repeat constructor; simpl; lia.
  - simpl; lia.
  - vm_compute; discriminate.
  - vm_compute; discriminate.
  - vm_compute; discriminate.
  - vm_compute; discriminate.
  - vm_compute; discriminate.
  - vm_compute; discriminate.
Defined.

Section Migration.
Context {F : Type} `{FieldOps F}.

(** The two populations after a migration between two distinct
    containers. *)
Lemma pop_migration_cells (h : Heap (PopSoA F)) (src dst : nat)
    (s d : PopSoA F) (idx : Z) (rate dt : F) :
  h !! src = Some s -> h !! dst = Some d -> src <> dst ->
  0 <= idx < pop_count s -> idx < pop_count d ->
  pop_count s <= Z.of_nat (length (population s)) ->
  pop_count d <= Z.of_nat (length (population d)) ->
  let amount := fmul (fmul rate (rd f0 (population s) idx)) dt in
  exists s' d',
    pop_migration h src dst idx rate dt !! src = Some s' /\
    pop_migration h src dst idx rate dt !! dst = Some d' /\
    rd f0 (population s') idx
    = clampf (fsub (rd f0 (population s) idx) amount) f0
        (rd f0 (carrying_cap s) idx) /\
    rd f0 (population d') idx
    = clampf (fadd (rd f0 (population d) idx) amount) f0
        (rd f0 (carrying_cap d) idx).
Proof.
  intros Hs Hd Hne Hi Hi' Hls Hld amount.
  unfold pop_migration, modify. rewrite Hs, Hd.
  destruct (Z.ltb_spec idx 0); [lia|].
  destruct (Z.geb_spec idx (pop_count s)); [lia|].
  destruct (Z.geb_spec idx (pop_count d)); [lia|]. simpl orb. cbv iota.
  fold amount.
  repeat first [ rewrite list_lookup_alter_eq
               | rewrite list_lookup_alter_ne by congruence ].
  rewrite Hs, Hd. simpl.
  eexists _, _. split; [reflexivity|]. split; [reflexivity|]. simpl.
  split; apply rd_wr_eq; lia.
Qed.

(** A migration from a container to itself. *)
Lemma pop_migration_self_cell (h : Heap (PopSoA F)) (src : nat)
    (s : PopSoA F) (idx : Z) (rate dt : F) :
  h !! src = Some s ->
  0 <= idx < pop_count s ->
  pop_count s <= Z.of_nat (length (population s)) ->
  let amount := fmul (fmul rate (rd f0 (population s) idx)) dt in
  exists s',
    pop_migration h src src idx rate dt !! src = Some s' /\
    rd f0 (population s') idx
    = clampf (fadd (clampf (fsub (rd f0 (population s) idx) amount) f0
                      (rd f0 (carrying_cap s) idx)) amount) f0
        (rd f0 (carrying_cap s) idx).
Proof.
  intros Hs Hi Hls amount.
  unfold pop_migration, modify. rewrite Hs.
  destruct (Z.ltb_spec idx 0); [lia|].
  destruct (Z.geb_spec idx (pop_count s)); [lia|]. simpl orb. cbv iota.
  fold amount.
  rewrite !list_lookup_alter_eq, Hs. simpl.
  eexists. split; [reflexivity|]. simpl.
  rewrite rd_wr_eq by (rewrite length_wr; lia).
  rewrite rd_wr_eq by lia. reflexivity.
Qed.

End Migration.

(** X14.  Without rounding, [pop_migration] between two distinct
    containers moves [amount = rate * population * dt] people out of the
    source; for [0 <= amount <= population] and both groups within
    capacity, the source loses exactly [amount], the destination gains
    [amount] up to its carrying capacity, and what does not fit is lost:
    the total never grows, and is conserved when the destination has
    room.  Under the same conditions a migration from a container to
    itself changes nothing. *)
Theorem pop_migration_conserves (h : Heap (PopSoA Q)) (src dst : nat)
    (s d : PopSoA Q) (idx : Z) (rate dt : Q) :
  h !! src = Some s -> h !! dst = Some d ->
  0 <= idx < pop_count s -> idx < pop_count d ->
  pop_count s <= Z.of_nat (length (population s)) ->
  pop_count d <= Z.of_nat (length (population d)) ->
  let ns := rd f0 (population s) idx in
  let nd := rd f0 (population d) idx in
  let amount := (rate * ns * dt)%Q in
  (0 <= amount <= ns)%Q ->
  (ns <= rd f0 (carrying_cap s) idx)%Q ->
  (0 <= nd <= rd f0 (carrying_cap d) idx)%Q ->
  (src <> dst ->
   exists s' d',
     pop_migration h src dst idx rate dt !! src = Some s' /\
     pop_migration h src dst idx rate dt !! dst = Some d' /\
     rd f0 (population s') idx = (ns - amount)%Q /\
     (nd <= rd f0 (population d') idx <= nd + amount)%Q /\
     (rd f0 (population s') idx + rd f0 (population d') idx <= ns + nd)%Q /\
     ((nd + amount <= rd f0 (carrying_cap d) idx)%Q ->
      (rd f0 (population s') idx + rd f0 (population d') idx == ns + nd)%Q)) /\
  (src = dst ->
   exists s',
     pop_migration h src dst idx rate dt !! src = Some s' /\
     (rd f0 (population s') idx == ns)%Q).
Proof.
  intros Hs Hd Hi Hi' Hls Hld ns nd amount Ham Hcs Hnd. split.
  - intros Hne.
    destruct (pop_migration_cells h src dst s d idx rate dt Hs Hd Hne Hi Hi' Hls Hld)
      as (s' & d' & Hs' & Hd' & Hps & Hpd).
    exists s', d'. split; [exact Hs'|]. split; [exact Hd'|].
    rewrite Hps, Hpd. clear Hps Hpd. exact_ops.
    fold ns nd amount. clearbody amount. clearbody ns nd.
    rewrite (clampf_exact_id (ns - amount)%Q) by lra.
    split; [reflexivity|].
    pose proof (clampf_exact_le (nd + amount)%Q 0%Q (rd 0%Q (carrying_cap d) idx)
                  ltac:(lra)) as Hle.
    pose proof (clampf_exact_ge nd (nd + amount)%Q 0%Q (rd 0%Q (carrying_cap d) idx)
                  ltac:(lra) ltac:(lra) ltac:(lra)) as Hge.
    split; [split; assumption|]. split; [lra|].
    intros Hroom. rewrite clampf_exact_id by lra. lra.
  - intros <-. assert (d = s) by congruence. subst d.
    destruct (pop_migration_self_cell h src s idx rate dt Hs Hi Hls)
      as (s' & Hs' & Hps).
    exists s'. split; [exact Hs'|]. rewrite Hps. clear Hps. exact_ops.
    fold ns amount. clearbody amount. clearbody ns nd.
    rewrite (clampf_exact_id (ns - amount)%Q) by lra.
    rewrite clampf_exact_id by lra. lra.
Qed.

Lemma pop_migration_conserves_witness :
  let s := pop_row (F := Q) 100%Q 200%Q 0%Q 0%Q 0%Q 0%Q 0%Q 0%Q in
  let d := pop_row (F := Q) 50%Q 60%Q 0%Q 0%Q 0%Q 0%Q 0%Q 0%Q in
  exists s' d',
    pop_migration [s; d] 0 1 0 (1 # 5)%Q 1%Q !! 0%nat = Some s' /\
    pop_migration [s; d] 0 1 0 (1 # 5)%Q 1%Q !! 1%nat = Some d' /\
    (rd f0 (population s') 0 + rd f0 (population d') 0 <= 100 + 50)%Q.
Proof.
  intros s d.
  destruct (pop_migration_conserves [s; d] 0%nat 1%nat s d 0 (1 # 5)%Q 1%Q
              eq_refl eq_refl) as [H _].
  - simpl; lia.
  - simpl; lia.
  - simpl; lia.
  - simpl; lia.
  - vm_compute. split; discriminate.
  - vm_compute. discriminate.
  - vm_compute. split; discriminate.
  - destruct (H ltac:(discriminate)) as (s' & d' & Hs' & Hd' & _ & _ & Hle & _).
    exists s', d'. split; [exact Hs'|]. split; [exact Hd'|]. exact Hle.
Defined.

(** The condition [amount <= population] is needed: the code does not
    cap the amount at the source's population.  Without rounding, a
    source of 10 people with [rate = 2] and [dt = 1] is emptied by the
    lower clamp while the destination receives all 20, and the same
    migration from a container to itself leaves 20 where 10 were. *)
Example pop_migration_overdraw :
  let s := (pop_row (F := Q) (10 # 1) (100 # 1) 0 0 0 0 0 0)%Q in
  let d := (pop_row (F := Q) 0 (100 # 1) 0 0 0 0 0 0)%Q in
  List.map population (pop_migration [s; d] 0 1 0 (2 # 1)%Q 1%Q)
  = [[0%Q]; [(20 # 1)%Q]] /\
  List.map population (pop_migration [s] 0 0 0 (2 # 1)%Q 1%Q) = [[(20 # 1)%Q]].
Proof. vm_compute. split; reflexivity. Qed.

Section CollectTax.
Context {F : Type} `{FieldOps F}.

Lemma econ_collect_tax_at (e : EconSoA F) (population : list F) :
  cols_cover (econ_count e) [resource e; tax_collected e] ->
  forall i,
    (rd f0 (resource (econ_collect_tax e population)) i,
     rd f0 (tax_collected (econ_collect_tax e population)) i)
    = let res := rd f0 (resource e) i in
      let tc := rd f0 (tax_collected e) i in
      if (0 <=? i) && (i <? econ_count e) then
        let tax := fmul (fmul (fmul res (rd f0 (tax_rate e) i))
                              (rd f0 population i)) (flit 1 1000) in
        (clampf (fsub res tax) f0 (rd f0 (max_resource e) i), fadd tc tax)
      else (res, tc).
Proof.
  intros Hwf. unfold cols_cover in Hwf. rewrite !Forall_cons in Hwf.
  destruct Hwf as (Hr & Ht & _).
  unfold econ_collect_tax.
  pose proof (for_loop_rows
    (fun q j => (rd f0 (resource q) j, rd f0 (tax_collected q) j,
                 tax_rate q, max_resource q))
    (fun q => econ_count e <= Z.of_nat (length (resource q)) /\
              econ_count e <= Z.of_nat (length (tax_collected q)))
    (fun j '(res, tc, tr, mx) =>
       let tax := fmul (fmul (fmul res (rd f0 tr j)) (rd f0 population j))
                       (flit 1 1000) in
       (clampf (fsub res tax) f0 (rd f0 mx j), fadd tc tax, tr, mx))
    (econ_count e) (econ_collect_tax_body population) e (conj Hr Ht)) as Hloop.
  destruct Hloop as [_ Hrows].
  - intros i q Hi (Hq1 & Hq2). unfold econ_collect_tax_body; simpl.
    split; [rewrite !length_wr; auto|].
    split; [rewrite !rd_wr_eq by lia; reflexivity|].
    intros j Hj. rewrite !rd_wr_ne by congruence. reflexivity.
  - intros i. specialize (Hrows i). cbv zeta.
    destruct ((0 <=? i) && (i <? econ_count e)); congruence.
Qed.

End CollectTax.

(** X15.  Without rounding, [econ_collect_tax] books
    [tax = resource * tax_rate * population * 0.001] as revenue for every
    pool.  When [0 <= tax <= resource] the tax is taken out of the
    stock, so stock plus revenue is unchanged.  When the tax exceeds the
    stock, the stock is emptied but the full tax is still booked:
    revenue grows by more than was taken. *)
Theorem econ_collect_tax_conserves (e : EconSoA Q) (population : list Q) (i : Z) :
  cols_cover (econ_count e) [resource e; tax_collected e] ->
  0 <= i < econ_count e ->
  let res := rd f0 (resource e) i in
  let tc := rd f0 (tax_collected e) i in
  let tax := (res * rd f0 (tax_rate e) i * rd f0 population i * (1 # 1000))%Q in
  (0 <= res <= rd f0 (max_resource e) i)%Q ->
  let e' := econ_collect_tax e population in
  rd f0 (tax_collected e') i = (tc + tax)%Q /\
  ((0 <= tax <= res)%Q ->
   (rd f0 (resource e') i + rd f0 (tax_collected e') i == res + tc)%Q) /\
  ((res < tax)%Q ->
   (rd f0 (resource e') i == 0)%Q /\
   (res + tc < rd f0 (resource e') i + rd f0 (tax_collected e') i)%Q).
Proof.
  intros Hwf Hi res tc tax Hres e'.
  pose proof (econ_collect_tax_at e population Hwf i) as Hrow. cbv zeta in Hrow.
  rewrite (in_range_true _ _ Hi) in Hrow.
  apply pair_equal_spec in Hrow. destruct Hrow as [Hr Ht].
  fold e' in Hr, Ht. rewrite Hr, Ht. clear Hr Ht. exact_ops.
  change (@flit Q Exact.ops 1 1000) with (1 # 1000)%Q.
  fold res tc. fold tax. clearbody tax. clearbody res tc. clear e'.
  split; [reflexivity|]. split.
  - intros Htax. rewrite clampf_exact_id by lra. lra.
  - intros Htax.
    assert (clampf (F := Q) (res - tax)%Q 0%Q (rd 0%Q (max_resource e) i) = 0%Q)
      as Hz.
    { unfold clampf; simpl.
      assert (Exact.ltb (res - tax) 0 = true) as -> by (apply ltb_lt; lra).
      reflexivity. }
    rewrite Hz. split; lra.
Qed.

Lemma econ_collect_tax_conserves_witness :
  let e := tax_row (F := Q) 100%Q 200%Q (1 # 10)%Q 7%Q in
  let e' := econ_collect_tax e [50%Q] in
  (rd f0 (resource e') 0 + rd f0 (tax_collected e') 0 == 100 + 7)%Q.
Proof.
  intros e e'.
  pose proof (econ_collect_tax_conserves e [50%Q] 0) as H.
  destruct H as (_ & H & _).
  - repeat constructor; simpl; lia.
  - simpl; lia.
  - vm_compute. split; discriminate.
  - apply H. vm_compute. split; discriminate.
Defined.

(** X16.  Without rounding, [combat_apply_damage] and [divine_smite]
    always cost the target at least one hit point: from hit points in
    [0, max_hp], whatever the raw damage and the armour, the target ends
    at 0 or at least one point lower, and never below 0.  In binary32
    the guarantee is lost for large values: at 2^25 hit points a hit of
    1 is rounded away. *)
Theorem damage_at_least_one :
  (forall (c : CombatSoA Q) (attacker defender : Z) (raw_dmg : Q),
     0 <= attacker < combat_count c -> 0 <= defender < combat_count c ->
     combat_count c <= Z.of_nat (length (hp c)) ->
     let h := rd f0 (hp c) defender in
     (0 <= h <= rd f0 (max_hp c) defender)%Q ->
     let h' := rd f0 (hp (combat_apply_damage c attacker defender raw_dmg))
                 defender in
     (0 <= h')%Q /\ (h' == 0 \/ h' <= h - 1)%Q) /\
  (forall (d : DivineSoA Q) (c : CombatSoA Q) (god target : Z),
     0 <= god < divine_count d -> 0 <= target < combat_count c ->
     combat_count c <= Z.of_nat (length (hp c)) ->
     let h := rd f0 (hp c) target in
     (0 <= h <= rd f0 (max_hp c) target)%Q ->
     let h' := rd f0 (hp (snd (divine_smite d c god target))) target in
     (0 <= h')%Q /\ (h' == 0 \/ h' <= h - 1)%Q) /\
  hp (combat_apply_damage
        (combat_row (F := float32) f0 f0 (lit 33554432 1) (lit 33554432 1) f0)
        0 0 f0)
  = [lit 33554432 1].
Proof.
  assert (forall h mx dmg0 : Q,
            (0 <= h <= mx)%Q ->
            let dmg := if Exact.ltb dmg0 1 then 1%Q else dmg0 in
            let h' := clampf (F := Q) (h - dmg)%Q 0%Q mx in
            (0 <= h')%Q /\ (h' == 0 \/ h' <= h - 1)%Q) as Hcell.
  { intros h mx dmg0 Hh dmg h'.
    assert (1 <= dmg)%Q as Hdmg.
    { unfold dmg. destruct (Exact.ltb dmg0 1) eqn:E; [lra|].
      apply ltb_ge in E. exact E. }
    clearbody dmg. unfold h', clampf; simpl.
    destruct (Exact.ltb (h - dmg) 0) eqn:E1; [split; [lra|left; reflexivity]|].
    apply ltb_ge in E1.
    destruct (Exact.ltb mx (h - dmg)) eqn:E2.
    - apply ltb_lt in E2. lra.
    - split; [exact E1|right; lra]. }
  split; [|split].
  - intros c attacker defender raw_dmg Ha Hd Hlen h Hh h'. subst h'.
    unfold combat_apply_damage.
    rewrite !out_of_range_false by assumption. simpl.
    rewrite rd_wr_eq by lia. exact_ops.
    apply Hcell. exact Hh.
  - intros d c god target Hg Ht Hlen h Hh h'. subst h'.
    unfold divine_smite.
    rewrite !out_of_range_false by assumption. simpl.
    rewrite rd_wr_eq by lia. exact_ops.
    apply Hcell. exact Hh.
  - vm_compute. reflexivity.
Qed.

Lemma damage_at_least_one_witness :
  let c := combat_row (F := Q) 0%Q 4%Q 10%Q 10%Q 0%Q in
  (0 <= rd f0 (hp (combat_apply_damage c 0 0 1%Q)) 0)%Q.
Proof.
  intros c.
  refine (proj1 (proj1 damage_at_least_one c 0 0 1%Q _ _ _ _)).
  - simpl; lia.
  - simpl; lia.
  - simpl; lia.
  - vm_compute. split; discriminate.
Defined.

(** X17.  A trade of a pool with itself (seller and buyer are the same
    container and the same index) is not rejected: without rounding, for
    a non-negative amount and a stock within capacity, the stock ends
    unchanged while the pool's trade volume grows by twice the traded
    amount. *)
Theorem econ_trade_with_itself (h : Heap (EconSoA Q)) (seller : nat)
    (s : EconSoA Q) (si : Z) (amount : Q) :
  h !! seller = Some s -> 0 <= si < econ_count s -> econ_wf s ->
  (0 <= amount)%Q ->
  (0 <= rd f0 (resource s) si <= rd f0 (max_resource s) si)%Q ->
  let actual := trade_actual amount (rd f0 (resource s) si) in
  exists s',
    econ_trade h seller si seller si amount !! seller = Some s' /\
    (rd f0 (resource s') si == rd f0 (resource s) si)%Q /\
    (rd f0 (trade_volume s') si == rd f0 (trade_volume s) si + 2 * actual)%Q.
Proof.
  intros Hs Hsi Hws Ham Hres actual.
  destruct (econ_trade_self_cell h seller s si amount Hs Hsi Hws)
    as (s' & Hs' & Hr & Hv).
  exists s'. split; [exact Hs'|]. rewrite Hr, Hv. clear Hr Hv.
  fold actual. exact_ops.
  destruct (trade_actual_exact amount (rd 0%Q (resource s) si)) as [Ha1 Ha2].
  assert (0 <= actual)%Q as Ha0.
  { unfold actual, trade_actual; simpl.
    destruct (Exact.ltb amount _); [exact Ham|apply Hres]. }
  fold actual in Ha1, Ha2. clearbody actual.
  rewrite (clampf_exact_id (rd 0%Q (resource s) si - actual)%Q) by lra.
  rewrite clampf_exact_id by lra. split; lra.
Qed.

Lemma econ_trade_with_itself_witness :
  let e := econ_row (F := Q) 10%Q 100%Q 1%Q 0%Q 0%Q 0%Q in
  exists s',
    econ_trade [e] 0 0 0 0 3%Q !! 0%nat = Some s' /\
    (rd f0 (resource s') 0 == 10)%Q.
Proof.
  intros e.
  destruct (econ_trade_with_itself [e] 0%nat e 0 3%Q eq_refl)
    as (s' & Hs' & Hr & _).
  - simpl; lia.
  - repeat constructor; simpl; lia.
  - vm_compute. discriminate.
  - vm_compute. split; discriminate.
  - exists s'. split; [exact Hs'|exact Hr].
Defined.

(** ** Guards and caps *)

(** A finite float over a positive one is a number. *)
Lemma div_finite_pos_not_nan (x y : float32) :
  is_finite x = true -> is_pos y = true -> is_nan (div x y) = false.
Proof.
  destruct x as [sx| | |sx mx ex]; simpl; try discriminate; intros _;
    destruct y as [|[]| |[] my ey]; simpl; try discriminate; intros _;
    try reflexivity.
  unfold div, SFdiv, SFdiv_core_binary.
  match goal with |- context [Z.div_eucl ?a ?b] =>
    pose proof (Z.div_pos a b) as Hq; unfold Z.div in Hq;
    destruct (Z.div_eucl a b) as [q r] eqn:E end.
  simpl. apply binary_round_aux_not_nan. apply Hq; [|lia].
  match goal with |- 0 <= match ?s with _ => _ end =>
    destruct s eqn:Es; try lia end.
  apply Z.shiftl_nonneg. lia.
Qed.

Section Scarcity.
Context {F : Type} `{FieldOps F}.

Lemma econ_scarcity_penalty_at (e : EconSoA F) (out : list F) (i : Z) :
  econ_count e <= Z.of_nat (length out) ->
  rd f0 (econ_scarcity_penalty e out) i
  = if (0 <=? i) && (i <? econ_count e)
    then scarcity_cell (rd f0 (resource e) i) (rd f0 (max_resource e) i)
    else rd f0 out i.
Proof.
  intros Hlen. unfold econ_scarcity_penalty.
  apply (for_loop_rows (fun o j => rd f0 o j)
           (fun o => econ_count e <= Z.of_nat (length o))
           (fun j _ => scarcity_cell (rd f0 (resource e) j)
                         (rd f0 (max_resource e) j))); [exact Hlen|].
  intros k o Hk Ho. unfold econ_scarcity_penalty_body.
  split; [rewrite length_wr; exact Ho|].
  split; [apply rd_wr_eq; lia|].
  intros j Hj. apply rd_wr_ne. congruence.
Qed.

End Scarcity.

(** X18.  [econ_scarcity_penalty] never divides by a capacity that is
    not positive: for every finite stock the multiplier it writes is a
    number in [0, 1], whatever [max_resource] holds (zero, negative,
    infinite or NaN); with a positive finite capacity it is
    [resource / max_resource] clamped. *)
Theorem econ_scarcity_penalty_guarded (e : EconSoA float32)
    (output_mult : list float32) (i : Z) :
  econ_count e <= Z.of_nat (length output_mult) ->
  0 <= i < econ_count e ->
  is_finite (rd f0 (resource e) i) = true ->
  let out := rd f0 (econ_scarcity_penalty e output_mult) i in
  leb f0 out = true /\ leb out f1 = true /\
  (ltb f0 (rd f0 (max_resource e) i) = true ->
   out = clampf (div (rd f0 (resource e) i) (rd f0 (max_resource e) i)) f0 f1) /\
  (ltb f0 (rd f0 (max_resource e) i) = false ->
   out = clampf (div (rd f0 (resource e) i) f1) f0 f1).
Proof.
  intros Hlen Hi Hfin out. subst out.
  rewrite econ_scarcity_penalty_at, (in_range_true _ _ Hi) by exact Hlen.
  unfold scarcity_cell. change (@flt float32 ops) with ltb.
  change (@fdiv float32 ops) with div.
  assert (leb (@f0 float32 ops) f1 = true) as H01 by reflexivity.
  destruct (ltb f0 (rd f0 (max_resource e) i)) eqn:Ecap.
  - destruct (clampf_range (div (rd f0 (resource e) i) (rd f0 (max_resource e) i))
                f0 f1) as [H1 H2]; [|exact H01|].
    { apply div_finite_pos_not_nan; [exact Hfin|]. apply ltb_zero_pos, Ecap. }
    repeat split; try assumption. discriminate.
  - destruct (clampf_range (div (rd f0 (resource e) i) f1) f0 f1) as [H1 H2];
      [|exact H01|].
    { apply div_finite_pos_not_nan; [exact Hfin|reflexivity]. }
    repeat split; try assumption. discriminate.
Qed.

Lemma econ_scarcity_penalty_guarded_witness :
  let e := econ_row (F := float32) (lit 5 1) f0 f0 f0 f0 f0 in
  let out := rd f0 (econ_scarcity_penalty e [f0]) 0 in
  leb f0 out = true /\ leb out f1 = true.
Proof.
  intros e out.
  pose proof (econ_scarcity_penalty_guarded e [f0] 0) as H.
  destruct H as (H1 & H2 & _); [simpl; lia|simpl; lia|reflexivity|].
  split; assumption.
Defined.

Section Pressure.
Context {F : Type} `{FieldOps F}.

Lemma pop_carrying_cap_pressure_at (p : PopSoA F) :
  cols_cover (pop_count p) [population p; food_threshold p] ->
  carrying_cap (pop_carrying_cap_pressure p) = carrying_cap p /\
  forall i,
    (rd f0 (population (pop_carrying_cap_pressure p)) i,
     rd f0 (food_threshold (pop_carrying_cap_pressure p)) i)
    = let n := rd f0 (population p) i in
      let k := rd f0 (carrying_cap p) i in
      if (0 <=? i) && (i <? pop_count p)
      then (if flt k n then k else n, fmul k (flit 1 10))
      else (n, rd f0 (food_threshold p) i).
Proof.
  intros Hwf. unfold cols_cover in Hwf. rewrite !Forall_cons in Hwf.
  destruct Hwf as (Hn & Hf & _).
  unfold pop_carrying_cap_pressure.
  pose proof (for_loop_rows
    (fun q j => (rd f0 (population q) j, rd f0 (food_threshold q) j,
                 carrying_cap q))
    (fun q => pop_count p <= Z.of_nat (length (population q)) /\
              pop_count p <= Z.of_nat (length (food_threshold q)))
    (fun j '(n, _, kc) =>
       (if flt (rd f0 kc j) n then rd f0 kc j else n,
        fmul (rd f0 kc j) (flit 1 10), kc))
    (pop_count p) pop_carrying_cap_pressure_body p (conj Hn Hf)) as Hloop.
  destruct Hloop as [_ Hrows].
  - intros i q Hi (Hq1 & Hq2). unfold pop_carrying_cap_pressure_body.
    destruct (flt (rd f0 (carrying_cap q) i) (rd f0 (population q) i)); simpl.
    + split; [rewrite !length_wr; auto|].
      split; [rewrite !rd_wr_eq by lia; reflexivity|].
      intros j Hj. rewrite !rd_wr_ne by congruence. reflexivity.
    + split; [rewrite !length_wr; auto|].
      split; [rewrite !rd_wr_eq by lia; reflexivity|].
      intros j Hj. rewrite !rd_wr_ne by congruence. reflexivity.
  - split.
    + specialize (Hrows 0). destruct ((0 <=? 0) && (0 <? pop_count p));
        congruence.
    + intros i. specialize (Hrows i). cbv zeta.
      destruct ((0 <=? i) && (i <? pop_count p)); congruence.
Qed.

End Pressure.

(** X19.  [pop_carrying_cap_pressure] is a one-sided cap: afterwards no
    population exceeds its carrying capacity, a population at or below
    capacity is kept as it is (also a negative one: there is no lower
    bound, unlike the clamping passes), the food threshold becomes a
    tenth of the capacity, and capacities are not changed. *)
Theorem pop_carrying_cap_pressure_caps (p : PopSoA float32) (i : Z) :
  cols_cover (pop_count p) [population p; food_threshold p] ->
  0 <= i < pop_count p ->
  let p' := pop_carrying_cap_pressure p in
  let n := rd f0 (population p) i in
  let k := rd f0 (carrying_cap p) i in
  ltb k (rd f0 (population p') i) = false /\
  (ltb k n = true -> rd f0 (population p') i = k) /\
  (leb n k = true -> rd f0 (population p') i = n) /\
  rd f0 (food_threshold p') i = mul k (lit 1 10) /\
  carrying_cap p' = carrying_cap p.
Proof.
  intros Hwf Hi p' n k. subst p'.
  destruct (pop_carrying_cap_pressure_at p Hwf) as [Hcap Hrow].
  specialize (Hrow i). cbv zeta in Hrow.
  rewrite (in_range_true _ _ Hi) in Hrow.
  apply pair_equal_spec in Hrow. destruct Hrow as [Hn Hf].
  rewrite Hn, Hf. fold n k. change (@flt float32 ops) with ltb.
  split; [|split; [|split; [|split]]].
  - destruct (ltb k n) eqn:E; [apply ltb_irrefl|exact E].
  - intros ->. reflexivity.
  - intros Hle. rewrite (leb_ltb_false _ _ Hle). reflexivity.
  - reflexivity.
  - exact Hcap.
Qed.

Lemma pop_carrying_cap_pressure_caps_witness :
  let p := pop_row (F := float32) (lit 150 1) (lit 100 1) f0 f0 f0 f0 f0 f0 in
  rd f0 (population (pop_carrying_cap_pressure p)) 0 = lit 100 1.
Proof.
  intros p.
  pose proof (pop_carrying_cap_pressure_caps p 0) as H.
  destruct H as (_ & H & _).
  - repeat constructor; simpl; lia.
  - simpl; lia.
  - apply H. reflexivity.
Defined.

Section Caps.
Context {F : Type} `{FieldOps F}.

Lemma econ_resource_cap_at (e : EconSoA F) :
  econ_count e <= Z.of_nat (length (resource e)) ->
  max_resource (econ_resource_cap e) = max_resource e /\
  econ_count (econ_resource_cap e) = econ_count e /\
  econ_count e <= Z.of_nat (length (resource (econ_resource_cap e))) /\
  forall i,
    rd f0 (resource (econ_resource_cap e)) i
    = if (0 <=? i) && (i <? econ_count e)
      then clampf (rd f0 (resource e) i) f0 (rd f0 (max_resource e) i)
      else rd f0 (resource e) i.
Proof.
  intros Hlen. unfold econ_resource_cap.
  pose proof (for_loop_rows
    (fun q j => (rd f0 (resource q) j, max_resource q, econ_count q))
    (fun q => econ_count e <= Z.of_nat (length (resource q)))
    (fun j '(r, mx, n) => (clampf r f0 (rd f0 mx j), mx, n))
    (econ_count e) econ_resource_cap_body e Hlen) as Hloop.
  destruct Hloop as [Hinv Hrows].
  - intros i q Hi Hq. unfold econ_resource_cap_body; simpl.
    split; [rewrite length_wr; exact Hq|].
    split; [rewrite rd_wr_eq by lia; reflexivity|].
    intros j Hj. rewrite rd_wr_ne by congruence. reflexivity.
  - split; [|split; [|split]].
    + specialize (Hrows 0). destruct ((0 <=? 0) && (0 <? econ_count e));
        congruence.
    + specialize (Hrows 0). destruct ((0 <=? 0) && (0 <? econ_count e));
        congruence.
    + exact Hinv.
    + intros i. specialize (Hrows i).
      destruct ((0 <=? i) && (i <? econ_count e)); congruence.
Qed.

Lemma divine_energy_cap_at (d : DivineSoA F) :
  divine_count d <= Z.of_nat (length (energy d)) ->
  energy_cap (divine_energy_cap d) = energy_cap d /\
  divine_count (divine_energy_cap d) = divine_count d /\
  divine_count d <= Z.of_nat (length (energy (divine_energy_cap d))) /\
  forall i,
    rd f0 (energy (divine_energy_cap d)) i
    = if (0 <=? i) && (i <? divine_count d)
      then clampf (rd f0 (energy d) i) f0 (rd f0 (energy_cap d) i)
      else rd f0 (energy d) i.
Proof.
  intros Hlen. unfold divine_energy_cap.
  pose proof (for_loop_rows
    (fun q j => (rd f0 (energy q) j, energy_cap q, divine_count q))
    (fun q => divine_count d <= Z.of_nat (length (energy q)))
    (fun j '(r, mx, n) => (clampf r f0 (rd f0 mx j), mx, n))
    (divine_count d) divine_energy_cap_body d Hlen) as Hloop.
  destruct Hloop as [Hinv Hrows].
  - intros i q Hi Hq. unfold divine_energy_cap_body; simpl.
    split; [rewrite length_wr; exact Hq|].
    split; [rewrite rd_wr_eq by lia; reflexivity|].
    intros j Hj. rewrite rd_wr_ne by congruence. reflexivity.
  - split; [|split; [|split]].
    + specialize (Hrows 0). destruct ((0 <=? 0) && (0 <? divine_count d));
        congruence.
    + specialize (Hrows 0). destruct ((0 <=? 0) && (0 <? divine_count d));
        congruence.
    + exact Hinv.
    + intros i. specialize (Hrows i).
      destruct ((0 <=? i) && (i <? divine_count d)); congruence.
Qed.

End Caps.

(** X20.  The two hard caps are projections: for a non-negative
    capacity, [econ_resource_cap] (and [divine_energy_cap]) puts every
    stock (energy) that is a number inside [0, capacity], leaves a value
    already inside untouched, and running the cap a second time changes
    nothing. *)
Theorem hard_caps_idempotent :
  (forall (e : EconSoA float32) (i : Z),
     econ_count e <= Z.of_nat (length (resource e)) ->
     0 <= i < econ_count e ->
     leb f0 (rd f0 (max_resource e) i) = true ->
     let r := rd f0 (resource e) i in
     let r' := rd f0 (resource (econ_resource_cap e)) i in
     (is_nan r = false ->
      leb f0 r' = true /\ leb r' (rd f0 (max_resource e) i) = true) /\
     (leb f0 r = true -> leb r (rd f0 (max_resource e) i) = true -> r' = r) /\
     rd f0 (resource (econ_resource_cap (econ_resource_cap e))) i = r') /\
  (forall (d : DivineSoA float32) (i : Z),
     divine_count d <= Z.of_nat (length (energy d)) ->
     0 <= i < divine_count d ->
     leb f0 (rd f0 (energy_cap d) i) = true ->
     let r := rd f0 (energy d) i in
     let r' := rd f0 (energy (divine_energy_cap d)) i in
     (is_nan r = false ->
      leb f0 r' = true /\ leb r' (rd f0 (energy_cap d) i) = true) /\
     (leb f0 r = true -> leb r (rd f0 (energy_cap d) i) = true -> r' = r) /\
     rd f0 (energy (divine_energy_cap (divine_energy_cap d))) i = r').
Proof.
  split.
  - intros e i Hlen Hi Hcap r r'. subst r r'.
    destruct (econ_resource_cap_at e Hlen) as (Hmx & Hcnt & Hlen' & Hrow).
    rewrite <- Hcnt in Hlen'.
    destruct (econ_resource_cap_at (econ_resource_cap e) Hlen')
      as (_ & _ & _ & Hrow2).
    rewrite Hrow2, Hcnt, Hmx, !Hrow, (in_range_true _ _ Hi).
    split; [|split].
    + intros Hr. apply clampf_range; assumption.
    + apply clampf_id.
    + apply clampf_idem. exact Hcap.
  - intros d i Hlen Hi Hcap r r'. subst r r'.
    destruct (divine_energy_cap_at d Hlen) as (Hmx & Hcnt & Hlen' & Hrow).
    rewrite <- Hcnt in Hlen'.
    destruct (divine_energy_cap_at (divine_energy_cap d) Hlen')
      as (_ & _ & _ & Hrow2).
    rewrite Hrow2, Hcnt, Hmx, !Hrow, (in_range_true _ _ Hi).
    split; [|split].
    + intros Hr. apply clampf_range; assumption.
    + apply clampf_id.
    + apply clampf_idem. exact Hcap.
Qed.

Lemma hard_caps_idempotent_witness :
  let e := econ_row (F := float32) (lit 500 1) (lit 100 1) f0 f0 f0 f0 in
  rd f0 (resource (econ_resource_cap (econ_resource_cap e))) 0
  = rd f0 (resource (econ_resource_cap e)) 0.
Proof.
  intros e.
  pose proof (proj1 hard_caps_idempotent e 0) as H.
  destruct H as (_ & _ & H); [simpl; lia|simpl; lia|reflexivity|].
  exact H.
Defined.

Section Era.
Context {F : Type} `{FieldOps F}.
Variable floorf : F -> F.

Lemma tech_era_advance_at (t : TechSoA F) :
  tech_count t <= Z.of_nat (length (era t)) ->
  tech_level (tech_era_advance floorf t) = tech_level t /\
  forall i,
    rd f0 (era (tech_era_advance floorf t)) i
    = if (0 <=? i) && (i <? tech_count t)
      then (let expected := floorf (fdiv (rd f0 (tech_level t) i) (flit 10 1)) in
            if flt (rd f0 (era t) i) expected then expected
            else rd f0 (era t) i)
      else rd f0 (era t) i.
Proof.
  intros Hlen. unfold tech_era_advance.
  pose proof (for_loop_rows
    (fun q j => (rd f0 (era q) j, tech_level q))
    (fun q => tech_count t <= Z.of_nat (length (era q)))
    (fun j '(er, lv) =>
       (let expected := floorf (fdiv (rd f0 lv j) (flit 10 1)) in
        if flt er expected then expected else er, lv))
    (tech_count t) (tech_era_advance_body floorf) t Hlen) as Hloop.
  destruct Hloop as [_ Hrows].
  - intros i q Hi Hq. unfold tech_era_advance_body. cbv zeta.
    destruct (flt (rd f0 (era q) i) _); simpl.
    + split; [rewrite length_wr; exact Hq|].
      split; [rewrite rd_wr_eq by lia; reflexivity|].
      intros j Hj. rewrite rd_wr_ne by congruence. reflexivity.
    + split; [exact Hq|]. split; [reflexivity|]. intros; reflexivity.
  - split.
    + specialize (Hrows 0). destruct ((0 <=? 0) && (0 <? tech_count t));
        congruence.
    + intros i. specialize (Hrows i). cbv zeta in *.
      destruct ((0 <=? i) && (i <? tech_count t)); congruence.
Qed.

End Era.

(** X21.  Eras only move forward: whatever libm's [floorf] returns,
    after [tech_era_advance] the era of a nation is at least what it
    was (for an era that is a number), it is never NaN, and it is not
    below [floorf(tech_level / 10)]; tech levels are not changed. *)
Theorem tech_era_advance_monotone (floorf : float32 -> float32)
    (t : TechSoA float32) (i : Z) :
  tech_count t <= Z.of_nat (length (era t)) ->
  0 <= i < tech_count t ->
  is_nan (rd f0 (era t) i) = false ->
  let t' := tech_era_advance floorf t in
  leb (rd f0 (era t) i) (rd f0 (era t') i) = true /\
  is_nan (rd f0 (era t') i) = false /\
  ltb (rd f0 (era t') i) (floorf (div (rd f0 (tech_level t) i) (lit 10 1)))
  = false /\
  tech_level t' = tech_level t.
Proof.
  intros Hlen Hi Hera t'. subst t'.
  destruct (tech_era_advance_at floorf t Hlen) as [Hlv Hrow].
  rewrite Hrow, (in_range_true _ _ Hi). cbv zeta.
  change (@flt float32 ops) with ltb. change (@fdiv float32 ops) with div.
  change (@flit float32 ops) with lit.
  destruct (ltb (rd f0 (era t) i) _) eqn:E.
  - split; [apply ltb_leb, E|]. split; [|split; [apply ltb_irrefl|exact Hlv]].
    apply ltb_leb, leb_not_nan in E. apply E.
  - split; [apply leb_refl, Hera|]. split; [exact Hera|]. split; [exact E|exact Hlv].
Qed.

Lemma tech_era_advance_monotone_witness :
  let t := tech_row (F := float32) (lit 25 1) in
  leb (rd f0 (era t) 0) (rd f0 (era (tech_era_advance (fun x => x) t)) 0) = true.
Proof.
  intros t.
  apply (tech_era_advance_monotone (fun x => x) t 0);
    [simpl; lia|simpl; lia|reflexivity].
Defined.

(** ** Area damage and steering *)

Lemma for_loop_skip {S : Type} (n : Z) (body : Z -> S -> S) (s : S) :
  (forall i q, 0 <= i < n -> body i q = q) -> for_loop n body s = s.
Proof.
  intros Hskip. destruct (Z.le_gt_cases 0 n) as [Hn|Hn].
  - apply (for_loop_ind (fun _ q => q = s)); [exact Hn|reflexivity|].
    intros k q Hk ->. apply Hskip. exact Hk.
  - apply for_loop_nonpos. lia.
Qed.

Lemma sub_finite_not_nan (x y : float32) :
  is_finite x = true -> is_finite y = true -> is_nan (sub x y) = false.
Proof.
  destruct x as [sx| | |sx mx ex], y as [sy| | |sy my ey]; simpl;
    try discriminate; intros _ _; try reflexivity.
  - destruct sx, sy; reflexivity.
  - apply binary_normalize_not_nan.
Qed.

Lemma mul_self_nonneg (x : float32) :
  is_nan x = false -> is_nonneg (mul x x) = true.
Proof.
  destruct x as [s|s| |s m e]; simpl; try discriminate; intros _;
    try (destruct s; reflexivity).
  rewrite xorb_nilpotent. apply binary_round_aux_nonneg. lia.
Qed.

Lemma add_nonneg (x y : float32) :
  is_nonneg x = true -> is_nonneg y = true -> is_nonneg (add x y) = true.
Proof.
  destruct x as [sx|[]| |[] mx ex]; simpl; try discriminate; intros _;
    destruct y as [sy|[]| |[] my ey]; simpl; try discriminate; intros _;
    try reflexivity.
  - destruct sx, sy; reflexivity.
  - apply binary_round_nonneg.
Qed.

(** Nothing non-negative is below a square that is not above zero. *)
Lemma leb_zero_square (r2 d2 : float32) :
  leb r2 f0 = true -> is_nonneg d2 = true -> leb r2 d2 = true.
Proof.
  destruct r2 as [sr|[]| |[] mr er]; try discriminate; intros _;
    destruct d2 as [sd|[]| |[] md ed]; try discriminate; intros _; reflexivity.
Qed.

(** X22.  An area attack with no extent harms nobody: when
    [radius * radius] is not above zero (a radius of 0, or one so small
    that its square underflows), [combat_aoe_damage] leaves the whole
    container unchanged for finite positions and centre, whatever the
    damage and whatever libm's [sqrtf] returns; the falloff
    [1 - sqrtf(d2) / radius] is never evaluated. *)
Theorem combat_aoe_damage_zero_radius (sqrtf : float32 -> float32)
    (c : CombatSoA float32) (pos_x pos_y : list float32)
    (cx cy radius dmg : float32) :
  leb (mul radius radius) f0 = true ->
  is_finite cx = true -> is_finite cy = true ->
  (forall i, 0 <= i < combat_count c ->
     is_finite (rd f0 pos_x i) = true /\ is_finite (rd f0 pos_y i) = true) ->
  combat_aoe_damage sqrtf c pos_x pos_y cx cy radius dmg = c.
Proof.
  intros Hr Hcx Hcy Hpos. unfold combat_aoe_damage. cbv zeta.
  apply for_loop_skip. intros i q Hi. unfold combat_aoe_damage_body. cbv zeta.
  destruct (Hpos i Hi) as [Hx Hy].
  change (@fle float32 ops) with leb. change (@fmul float32 ops) with mul.
  change (@fadd float32 ops) with add. change (@fsub float32 ops) with sub.
  rewrite leb_zero_square; [reflexivity|exact Hr|].
  apply add_nonneg; apply mul_self_nonneg, sub_finite_not_nan; assumption.
Qed.

Lemma combat_aoe_damage_zero_radius_witness :
  let c := combat_row (F := float32) f0 f0 (lit 10 1) (lit 10 1) f0 in
  combat_aoe_damage sqrt c [lit 3 1] [lit 4 1] (lit 3 1) (lit 4 1) f0 (lit 50 1)
  = c.
Proof.
  intros c.
  apply (combat_aoe_damage_zero_radius sqrt c); try reflexivity.
  intros i Hi. simpl in Hi. assert (i = 0) as -> by lia.
  split; reflexivity.
Defined.

Lemma sub_self_zero (x : float32) :
  is_finite x = true -> exists s, sub x x = S754_zero s.
Proof.
  destruct x as [s| | |s m e]; simpl; try discriminate; intros _.
  - destruct s; eexists; reflexivity.
  - exists false. unfold sub, SFsub. cbv zeta. rewrite Z.sub_diag. reflexivity.
Qed.

(** The squared distance of a finite point to itself is below 1e-6, and
    the distance is not above it. *)
Lemma own_position_guards (x y : float32) :
  is_finite x = true -> is_finite y = true ->
  let dx := sub x x in
  let dy := sub y y in
  ltb (add (mul dx dx) (mul dy dy)) (lit 1 1000000) = true /\
  ltb (lit 1 1000000) (sqrt (add (mul dx dx) (mul dy dy))) = false.
Proof.
  intros Hx Hy dx dy. subst dx dy.
  destruct (sub_self_zero x Hx) as [sx ->].
  destruct (sub_self_zero y Hy) as [sy ->].
  destruct sx, sy; split; vm_compute; reflexivity.
Qed.

(** X23.  Steering at a unit's own position is a no-op: for a unit at a
    finite position, [move_seek_target] and [move_flee_target] towards
    exactly that position, and [move_arrival_brake] at it, leave the
    container unchanged (the zero offset is caught by the 1e-6 guards,
    so no inverse square root of 0 reaches the accelerations). *)
Theorem steering_at_own_position (m : MoveSoA float32) (unit : Z)
    (strength slow_radius : float32) :
  is_finite (rd f0 (pos_x m) unit) = true ->
  is_finite (rd f0 (pos_y m) unit) = true ->
  let tx := rd f0 (pos_x m) unit in
  let ty := rd f0 (pos_y m) unit in
  Movement.move_seek_target m unit tx ty strength = m /\
  Movement.move_flee_target m unit tx ty strength = m /\
  Movement.move_arrival_brake m unit tx ty slow_radius = m.
Proof.
  intros Hx Hy tx ty. subst tx ty.
  destruct (own_position_guards _ _ Hx Hy) as [Hd2 Hdist].
  assert (forall s, Movement.move_seek_target m unit (rd f0 (pos_x m) unit)
                      (rd f0 (pos_y m) unit) s = m) as Hseek.
  { intros s. unfold Movement.move_seek_target.
    destruct (out_of_range unit (move_count m)); [reflexivity|]. cbv zeta.
    change (@flt float32 ops) with ltb. change (@fmul float32 ops) with mul.
    change (@fadd float32 ops) with add. change (@fsub float32 ops) with sub.
    change (@flit float32 ops) with lit.
    rewrite Hd2. reflexivity. }
  split; [apply Hseek|]. split; [apply Hseek|].
  unfold Movement.move_arrival_brake.
  destruct (out_of_range unit (move_count m)); [reflexivity|]. cbv zeta.
  change (@flt float32 ops) with ltb. change (@fmul float32 ops) with mul.
  change (@fadd float32 ops) with add. change (@fsub float32 ops) with sub.
  change (@flit float32 ops) with lit.
  change (@Binary32.sqrt) with sqrt. rewrite Hdist, andb_false_r. reflexivity.
Qed.

Lemma steering_at_own_position_witness :
  let m := move_row (F := float32) (lit 3 1) (lit 4 1) (lit 1 1) (lit 1 1) f0 f0 in
  Movement.move_seek_target m 0 (lit 3 1) (lit 4 1) (lit 2 1) = m.
Proof.
  intros m.
  apply (steering_at_own_position m 0 (lit 2 1) (lit 1 1)); reflexivity.
Defined.

Lemma binary_round_aux_negb (s : bool) (m e : Z) (l : location) :
  binary_round_aux prec emax (negb s) m e l
  = SFopp (binary_round_aux prec emax s m e l).
Proof.
  unfold binary_round_aux.
  destruct (shr_fexp prec emax m e l) as [mrs' e'].
  destruct (shr_fexp prec emax _ e' loc_Exact) as [mrs'' e''].
  destruct (shr_m mrs'') as [|p|p]; try reflexivity.
  destruct (e'' <=? emax - prec); reflexivity.
Qed.

(** Negating a factor negates the product, exactly. *)
Lemma mul_opp_l (a b : float32) : mul (SFopp a) b = SFopp (mul a b).
Proof.
  destruct a as [sa|sa| |sa ma ea], b as [sb|sb| |sb mb eb]; simpl;
    try reflexivity; try (destruct sa, sb; reflexivity).
  replace (xorb (negb sa) sb) with (negb (xorb sa sb))
    by (destruct sa, sb; reflexivity).
  apply binary_round_aux_negb.
Qed.

(** X24.  Fleeing is seeking with the opposite force, exactly: for a
    unit further than the 1e-6 guard from the target,
    [move_seek_target] adds the force
    [strength * d * fast_inv_sqrt(d2)] to each acceleration component
    and [move_flee_target] adds its negation, bit for bit. *)
Theorem move_flee_is_opposite_force (m : MoveSoA float32) (unit : Z)
    (tx ty strength : float32) :
  0 <= unit < move_count m ->
  move_count m <= Z.of_nat (length (acc_x m)) ->
  move_count m <= Z.of_nat (length (acc_y m)) ->
  let dx := sub tx (rd f0 (pos_x m) unit) in
  let dy := sub ty (rd f0 (pos_y m) unit) in
  let d2 := add (mul dx dx) (mul dy dy) in
  ltb d2 (lit 1 1000000) = false ->
  let fx := mul (mul strength dx) (Movement.fast_inv_sqrt_scalar d2) in
  let fy := mul (mul strength dy) (Movement.fast_inv_sqrt_scalar d2) in
  let ms := Movement.move_seek_target m unit tx ty strength in
  let mf := Movement.move_flee_target m unit tx ty strength in
  rd f0 (acc_x ms) unit = add (rd f0 (acc_x m) unit) fx /\
  rd f0 (acc_y ms) unit = add (rd f0 (acc_y m) unit) fy /\
  rd f0 (acc_x mf) unit = add (rd f0 (acc_x m) unit) (SFopp fx) /\
  rd f0 (acc_y mf) unit = add (rd f0 (acc_y m) unit) (SFopp fy).
Proof.
  intros Hu Hlx Hly dx dy d2 Hfar fx fy ms mf.
  assert (forall s,
    let m' := Movement.move_seek_target m unit tx ty s in
    rd f0 (acc_x m') unit
    = add (rd f0 (acc_x m) unit)
          (mul (mul s dx) (Movement.fast_inv_sqrt_scalar d2)) /\
    rd f0 (acc_y m') unit
    = add (rd f0 (acc_y m) unit)
          (mul (mul s dy) (Movement.fast_inv_sqrt_scalar d2))) as Hseek.
  { intros s m'. subst m'. unfold Movement.move_seek_target.
    rewrite out_of_range_false by exact Hu. cbv zeta.
    change (@flt float32 ops) with ltb. change (@fmul float32 ops) with mul.
    change (@fadd float32 ops) with add. change (@fsub float32 ops) with sub.
    change (@flit float32 ops) with lit.
    fold dx dy. fold d2. rewrite Hfar. simpl.
    rewrite !rd_wr_eq by lia. split; reflexivity. }
  destruct (Hseek strength) as [Hsx Hsy].
  destruct (Hseek (SFopp strength)) as [Hfx Hfy].
  rewrite !mul_opp_l in Hfx, Hfy.
  repeat split; assumption.
Qed.

Lemma move_flee_is_opposite_force_witness :
  let m := move_row (F := float32) f0 f0 f0 f0 (lit 1 1) (lit 1 1) in
  rd f0 (acc_x (Movement.move_flee_target m 0 (lit 3 1) (lit 4 1) (lit 2 1))) 0
  = add (lit 1 1)
        (SFopp (mul (mul (lit 2 1) (lit 3 1))
                    (Movement.fast_inv_sqrt_scalar (lit 25 1)))).
Proof.
  intros m.
  pose proof (move_flee_is_opposite_force m 0 (lit 3 1) (lit 4 1) (lit 2 1)) as H.
  destruct H as (_ & _ & H & _); [simpl; lia|simpl; lia|simpl; lia|reflexivity|].
  exact H.
Defined.

(** ** Bounded state across a whole engine *)

Lemma nan_or_within_kept (x x' lo hi : float32) :
  leb lo hi = true ->
  x' = x \/ (exists v, x' = clampf v lo hi) ->
  nan_or_within x lo hi = true -> nan_or_within x' lo hi = true.
Proof.
  intros Hlh [->|[v ->]] Hx; [exact Hx|].
  apply nan_or_within_clampf. exact Hlh.
Qed.

(** A loop whose iterations keep a cell or store a value clamped to
    fixed bounds: so does the whole loop. *)
Lemma kept_or_clamped_loop {S : Type} (col : S -> list float32)
    (lo hi : float32) (body : Z -> S -> S) (s : S) (n : Z) :
  (forall k q j, rd f0 (col (body k q)) j = rd f0 (col q) j \/
                 exists v, rd f0 (col (body k q)) j = clampf v lo hi) ->
  forall j, rd f0 (col (for_loop n body s)) j = rd f0 (col s) j \/
            exists v, rd f0 (col (for_loop n body s)) j = clampf v lo hi.
Proof.
  intros Hbody j.
  destruct (Z.le_gt_cases 0 n) as [Hn|Hn].
  2:{ rewrite for_loop_nonpos by lia. left; reflexivity. }
  apply (for_loop_ind (fun _ q =>
    rd f0 (col q) j = rd f0 (col s) j \/
    exists v, rd f0 (col q) j = clampf v lo hi)); [exact Hn|left; reflexivity|].
  intros k q _ IH. destruct (Hbody k q j) as [Hsame|Hcl].
  - rewrite Hsame. exact IH.
  - right. exact Hcl.
Qed.

Lemma rd_wr_wr_cases {A : Type} (d : A) (col : list A) (i j : Z) (a b : A) :
  rd d (wr (wr col i a) i b) j = rd d col j \/
  (j = i /\ rd d (wr (wr col i a) i b) j = b).
Proof.
  destruct (rd_wr_cases d (wr col i a) i j b) as [Hsame|Hnew]; [|right; exact Hnew].
  destruct (Z.eq_dec i j) as [<-|Hij].
  - destruct (Z_lt_dec i 0) as [Hneg|Hpos].
    + left. rewrite !wr_out_of_range by (rewrite ?length_wr; lia). reflexivity.
    + destruct (Z_lt_dec i (Z.of_nat (length col))) as [Hin|Hout].
      * right. split; [reflexivity|]. apply rd_wr_eq. rewrite length_wr. lia.
      * left. rewrite !wr_out_of_range by (rewrite ?length_wr; lia). reflexivity.
  - left. rewrite !rd_wr_ne by exact Hij. reflexivity.
Qed.

(** Close a goal "cell kept, or clamped value stored" after [simpl]. *)
Ltac kept_or_clamped :=
  repeat match goal with
  | |- context [if ?b then _ else _] => destruct b
  end;
  simpl;
  first
    [ left; reflexivity
    | match goal with
      | |- rd ?d (wr (wr ?c ?i ?a) ?i ?v) ?j = _ \/ _ =>
          destruct (rd_wr_wr_cases d c i j a v) as [Hsame|[-> Hnew]];
          [left; exact Hsame|right; eexists; exact Hnew]
      | |- rd ?d (wr ?c ?i ?v) ?j = _ \/ _ =>
          destruct (rd_wr_cases d c i j v) as [Hsame|[-> Hnew]];
          [left; exact Hsame|right; eexists; exact Hnew]
      end ].

Ltac loop_kept_or_clamped :=
  match goal with
  | |- rd _ (?proj (for_loop ?n ?body ?s)) ?i = _ \/ (exists v, _ = clampf v ?lo ?hi) =>
      apply (kept_or_clamped_loop proj lo hi body s n);
      let k := fresh "k" in let q := fresh "q" in let j := fresh "j" in
      intros k q j
  end.

Lemma psych_fractions_kept (p p' : PsychSoA float32) (i : Z) :
  (forall proj : PsychSoA float32 -> list float32,
     In proj [happiness; fear; loyalty; aggression; threat_level; social_bond] ->
     rd f0 (proj p') i = rd f0 (proj p) i \/
     exists v, rd f0 (proj p') i = clampf v f0 f1) ->
  psych_fractions p i = true -> psych_fractions p' i = true.
Proof.
  intros Hk. unfold psych_fractions. cbn [forallb].
  rewrite !andb_true_iff. intros (H1 & H2 & H3 & H4 & H5 & H6 & _).
  assert (leb (@f0 float32 ops) f1 = true) as H01 by reflexivity.
  repeat split;
    match goal with
    | |- nan_or_within (rd _ (?proj _) _) _ _ = true =>
        apply (nan_or_within_kept (rd f0 (proj p) i) _ f0 f1 H01);
        [apply (Hk proj); cbn [In]; tauto|assumption]
    end.
Qed.

(** X25.  The emotional state of an NPC stays made of fractions: if
    happiness, fear, loyalty, aggression, threat level and social bond
    of an NPC are in [0, 1] (or NaN), they still are after any of the
    psychology transforms, for any inputs. *)
Theorem psych_transforms_keep_fractions (p : PsychSoA float32)
    (e : EconSoA float32) (c : CombatSoA float32) (npc threat_unit : Z)
    (dt delta provocation : float32) (i : Z) :
  psych_fractions p i = true ->
  Forall (fun p' => psych_fractions p' i = true)
    [psych_utility_evaluate p; psych_fear_decay p dt;
     psych_happiness_update p e; psych_social_bond_update p dt;
     psych_memory_fade p dt; psych_threat_assess p c npc threat_unit;
     psych_loyalty_shift p npc delta;
     psych_aggression_trigger p npc provocation].
Proof.
  intros Hinv.
  repeat apply Forall_cons_2; try apply Forall_nil_2;
    (apply (psych_fractions_kept p); [|exact Hinv]);
    intros proj Hproj; cbn [In] in Hproj;
    repeat (destruct Hproj as [<-|Hproj]); try contradiction.
  all: unfold psych_utility_evaluate, psych_fear_decay, psych_happiness_update,
         psych_social_bond_update, psych_memory_fade, psych_threat_assess,
         psych_loyalty_shift, psych_aggression_trigger; cbv zeta.
  all: try loop_kept_or_clamped.
  all: unfold psych_utility_evaluate_body, psych_fear_decay_body,
         psych_happiness_update_body, psych_social_bond_update_body,
         psych_memory_fade_body; cbv zeta.
  all: kept_or_clamped.
Qed.

Lemma psych_transforms_keep_fractions_witness :
  let p := psych_row (F := float32) (lit 1 2) (lit 1 1) (lit 1 4) in
  psych_fractions (psych_fear_decay p (lit 3 1)) 0 = true.
Proof.
  intros p.
  pose proof (psych_transforms_keep_fractions p
                (econ_row f0 f0 f0 f0 f0 f0) (combat_row f0 f0 f0 f0 f0)
                0 0 (lit 3 1) f0 f0 0) as H.
  rewrite !Forall_cons in H.
  destruct H as (_ & H & _); [reflexivity|].
  exact H.
Defined.

Lemma faith_bounded_kept (f f' : FaithSoA float32) (i : Z) :
  (forall proj : FaithSoA float32 -> list float32,
     In proj [faith_level; schism_risk; divine_favor] ->
     rd f0 (proj f') i = rd f0 (proj f) i \/
     exists v, rd f0 (proj f') i = clampf v f0 f1) ->
  (forall proj : FaithSoA float32 -> list float32,
     In proj [mana; devotee_count] ->
     rd f0 (proj f') i = rd f0 (proj f) i \/
     exists v, rd f0 (proj f') i = clampf v f0 (flit 1000 1)) ->
  faith_bounded f i = true -> faith_bounded f' i = true.
Proof.
  intros Hk1 Hk2. unfold faith_bounded.
  rewrite !andb_true_iff. intros ((((H1 & H2) & H3) & H4) & H5).
  assert (leb (@f0 float32 ops) f1 = true) as H01 by reflexivity.
  assert (leb (@f0 float32 ops) (flit 1000 1) = true) as H0k by reflexivity.
  repeat split.
  - apply (nan_or_within_kept (rd f0 (faith_level f) i) _ f0 f1 H01);
      [apply (Hk1 faith_level); cbn [In]; tauto|assumption].
  - apply (nan_or_within_kept (rd f0 (schism_risk f) i) _ f0 f1 H01);
      [apply (Hk1 schism_risk); cbn [In]; tauto|assumption].
  - apply (nan_or_within_kept (rd f0 (divine_favor f) i) _ f0 f1 H01);
      [apply (Hk1 divine_favor); cbn [In]; tauto|assumption].
  - apply (nan_or_within_kept (rd f0 (mana f) i) _ f0 (flit 1000 1) H0k);
      [apply (Hk2 mana); cbn [In]; tauto|assumption].
  - apply (nan_or_within_kept (rd f0 (devotee_count f) i) _ f0 (flit 1000 1) H0k);
      [apply (Hk2 devotee_count); cbn [In]; tauto|assumption].
Qed.

(** X26.  The faith transforms keep their columns bounded: if a
    faction's faith level, schism risk and divine favour are in [0, 1]
    and its mana and devotee count in [0, 1000] (or NaN), they still are
    after [faith_generate], [faith_mana_regen], [faith_conversion_tick],
    [faith_schism_accumulate], [faith_divine_favor_update],
    [faith_devotee_update] or [faith_ritual_cost], for any inputs. *)
Theorem faith_transforms_keep_bounds (f : FaithSoA float32)
    (dt piety_delta ritual_mana : float32) (idx i : Z) :
  faith_bounded f i = true ->
  Forall (fun f' => faith_bounded f' i = true)
    [faith_generate f dt; faith_mana_regen f dt; faith_conversion_tick f dt;
     faith_schism_accumulate f dt; faith_divine_favor_update f piety_delta;
     faith_devotee_update f dt; faith_ritual_cost f idx ritual_mana].
Proof.
  intros Hinv.
  repeat apply Forall_cons_2; try apply Forall_nil_2;
    (apply (faith_bounded_kept f); [| |exact Hinv]);
    intros proj Hproj; cbn [In] in Hproj;
    repeat (destruct Hproj as [<-|Hproj]); try contradiction.
  all: unfold faith_generate, faith_mana_regen, faith_conversion_tick,
         faith_schism_accumulate, faith_divine_favor_update,
         faith_devotee_update, faith_ritual_cost; cbv zeta.
  all: try loop_kept_or_clamped.
  all: unfold faith_generate_body, faith_mana_regen_body,
         faith_conversion_tick_body, faith_schism_accumulate_body,
         faith_divine_favor_update_body, faith_devotee_update_body; cbv zeta.
  all: kept_or_clamped.
Qed.

Lemma faith_transforms_keep_bounds_witness :
  let f := faith_row (F := float32) (lit 1 2) (lit 1 1) in
  faith_bounded (faith_divine_favor_update f (lit 7 1)) 0 = true.
Proof.
  intros f.
  pose proof (faith_transforms_keep_bounds f f0 (lit 7 1) f0 0 0) as H.
  rewrite !Forall_cons in H.
  destruct H as (_ & _ & _ & _ & H & _); [reflexivity|].
  exact H.
Defined.

(** X27.  The functions that write hit points store them through
    [clampf(_, 0, max_hp)], so they can put them nowhere outside
    [0, max_hp] except at NaN: a unit with a non-negative [max_hp] whose
    hit points are inside [0, max_hp] or NaN has them inside [0, max_hp]
    or NaN after [combat_apply_damage], [combat_siege_damage],
    [combat_hp_regen], [combat_aoe_damage], [divine_heal_apply] or
    [divine_smite], for any targets, amounts and steps; none of them
    changes [max_hp].  NaN is not excluded, and it does arise from hit
    points inside the range: [combat_hp_regen] on hit points 10 with
    [max_hp = regen_rate = 3e38] and [dt = 0] computes
    [10 + infinity * 0] and stores NaN. *)
Theorem hit_points_stay_within_max (sqrtf : float32 -> float32)
    (c : CombatSoA float32) (d : DivineSoA float32)
    (attacker defender building god target : Z)
    (raw_dmg siege_power regen_rate dt cx cy radius dmg : float32)
    (pos_x pos_y : list float32) (i : Z) :
  leb f0 (rd f0 (max_hp c) i) = true ->
  nan_or_within (rd f0 (hp c) i) f0 (rd f0 (max_hp c) i) = true ->
  Forall (fun c' =>
            max_hp c' = max_hp c /\
            nan_or_within (rd f0 (hp c') i) f0 (rd f0 (max_hp c) i) = true)
    [combat_apply_damage c attacker defender raw_dmg;
     combat_siege_damage c building siege_power dt;
     combat_hp_regen c regen_rate dt;
     combat_aoe_damage sqrtf c pos_x pos_y cx cy radius dmg;
     snd (divine_heal_apply d c god target);
     snd (divine_smite d c god target)] /\
  (let big := (lit 300000000000000000000000000000000000000 1 : float32) in
   let u := combat_row (F := float32) f0 f0 (lit 10 1) big f0 in
   is_finite big = true /\
   leb f0 (rd f0 (hp u) 0) = true /\
   leb (rd f0 (hp u) 0) (rd f0 (max_hp u) 0) = true /\
   hp (combat_hp_regen u big f0) = [S754_nan]).
Proof.
  intros Hcap Hhp. split; [|vm_compute; repeat split].
  assert (forall c' : CombatSoA float32,
    max_hp c' = max_hp c ->
    (rd f0 (hp c') i = rd f0 (hp c) i \/
     exists v, rd f0 (hp c') i = clampf v f0 (rd f0 (max_hp c) i)) ->
    max_hp c' = max_hp c /\
    nan_or_within (rd f0 (hp c') i) f0 (rd f0 (max_hp c) i) = true) as Hone.
  { intros c' Hmx Hk. split; [exact Hmx|].
    apply (nan_or_within_kept (rd f0 (hp c) i)); assumption. }
  assert (forall body : Z -> CombatSoA float32 -> CombatSoA float32,
    (forall k q, max_hp (body k q) = max_hp q /\
       forall j, rd f0 (hp (body k q)) j = rd f0 (hp q) j \/
                 exists v, rd f0 (hp (body k q)) j
                           = clampf v f0 (rd f0 (max_hp q) j)) ->
    max_hp (for_loop (combat_count c) body c) = max_hp c /\
    nan_or_within (rd f0 (hp (for_loop (combat_count c) body c)) i) f0
      (rd f0 (max_hp c) i) = true) as Hpass.
  { intros body Hbody.
    destruct (clamped_pass hp max_hp body c (combat_count c) Hbody) as [Hc Hin].
    split; [exact Hc|]. apply Hin; assumption. }
  repeat apply Forall_cons_2; try apply Forall_nil_2.
  - apply Hone; unfold combat_apply_damage;
      repeat (destruct (out_of_range _ _); [first [reflexivity|left; reflexivity]|]);
      [reflexivity|]. simpl. kept_or_clamped.
  - apply Hone; unfold combat_siege_damage;
      repeat (destruct (out_of_range _ _); [first [reflexivity|left; reflexivity]|]);
      [reflexivity|]. simpl. kept_or_clamped.
  - apply Hpass. intros k q. unfold combat_hp_regen_body.
    split; [reflexivity|]. intros j. simpl. clamped_store.
  - unfold combat_aoe_damage. cbv zeta. apply Hpass. intros k q.
    unfold combat_aoe_damage_body. cbv zeta.
    destruct (_ >=? _)%fl; [split; [reflexivity|]; intros; left; reflexivity|].
    split; [reflexivity|]. intros j. simpl. clamped_store.
  - apply Hone; unfold divine_heal_apply;
      repeat (destruct (out_of_range _ _); [first [reflexivity|left; reflexivity]|]);
      [reflexivity|]. simpl. kept_or_clamped.
  - apply Hone; unfold divine_smite;
      repeat (destruct (out_of_range _ _); [first [reflexivity|left; reflexivity]|]);
      [reflexivity|]. simpl. kept_or_clamped.
Qed.

Lemma hit_points_stay_within_max_witness :
  let c := combat_row (F := float32) f0 f0 (lit 8 1) (lit 10 1) f0 in
  nan_or_within (rd f0 (hp (combat_hp_regen c (lit 1 1) (lit 1 1))) 0)
    f0 (lit 10 1) = true.
Proof.
  intros c.
  pose proof (hit_points_stay_within_max sqrt c
                (divine_row f0 f0 f0 f0 f0 f0) 0 0 0 0 0
                f0 f0 (lit 1 1) (lit 1 1) f0 f0 f0 f0 [] [] 0) as H.
  rewrite !Forall_cons in H.
  destruct H as [(_ & _ & [_ H] & _) _]; [reflexivity|reflexivity|].
  exact H.
Defined.

(** ** Timers, shocks and seeds *)

Section GoldenAgeTick.
Context {F : Type} `{FieldOps F}.

Lemma tech_golden_age_tick_at (t : TechSoA F) (dt : F) :
  tech_count t <= Z.of_nat (length (golden_age_timer t)) ->
  golden_age_mult (tech_golden_age_tick t dt) = golden_age_mult t /\
  forall i,
    rd f0 (golden_age_timer (tech_golden_age_tick t dt)) i
    = if (0 <=? i) && (i <? tech_count t)
      then (if flt f0 (rd f0 (golden_age_timer t) i)
            then clampf (fsub (rd f0 (golden_age_timer t) i) dt) f0
                   (flit 1000000 1)
            else rd f0 (golden_age_timer t) i)
      else rd f0 (golden_age_timer t) i.
Proof.
  intros Hlen. unfold tech_golden_age_tick.
  pose proof (for_loop_rows
    (fun q j => (rd f0 (golden_age_timer q) j, golden_age_mult q))
    (fun q => tech_count t <= Z.of_nat (length (golden_age_timer q)))
    (fun j '(tm, gm) =>
       (if flt f0 tm then clampf (fsub tm dt) f0 (flit 1000000 1) else tm, gm))
    (tech_count t) (tech_golden_age_tick_body dt) t Hlen) as Hloop.
  destruct Hloop as [_ Hrows].
  - intros i q Hi Hq. unfold tech_golden_age_tick_body.
    destruct (flt f0 (rd f0 (golden_age_timer q) i)); simpl.
    + split; [rewrite length_wr; exact Hq|].
      split; [rewrite rd_wr_eq by lia; reflexivity|].
      intros j Hj. rewrite rd_wr_ne by congruence. reflexivity.
    + split; [exact Hq|]. split; [reflexivity|]. intros; reflexivity.
  - split.
    + specialize (Hrows 0). destruct ((0 <=? 0) && (0 <? tech_count t));
        congruence.
    + intros i. specialize (Hrows i).
      destruct ((0 <=? i) && (i <? tech_count t)); congruence.
Qed.

End GoldenAgeTick.

Lemma sub_pos_finite_not_nan (x y : float32) :
  is_pos x = true -> is_finite y = true -> is_nan (sub x y) = false.
Proof.
  destruct x as [|[]| |[] mx ex]; simpl; try discriminate; intros _;
    destruct y as [sy| | |sy my ey]; simpl; try discriminate; intros _;
    try reflexivity.
  apply binary_normalize_not_nan.
Qed.

(** X28.  [tech_golden_age_tick] counts running golden ages down and
    touches nothing else: a timer that is not positive is kept (it never
    drifts below zero), a positive timer ends in [0, 1e6] for any finite
    step, and the stored multiplier is never reset, also when the age
    runs out. *)
Theorem tech_golden_age_tick_counts_down (t : TechSoA float32)
    (dt : float32) (i : Z) :
  tech_count t <= Z.of_nat (length (golden_age_timer t)) ->
  0 <= i < tech_count t ->
  let t' := tech_golden_age_tick t dt in
  (ltb f0 (rd f0 (golden_age_timer t) i) = false ->
   rd f0 (golden_age_timer t') i = rd f0 (golden_age_timer t) i) /\
  (ltb f0 (rd f0 (golden_age_timer t) i) = true -> is_finite dt = true ->
   leb f0 (rd f0 (golden_age_timer t') i) = true /\
   leb (rd f0 (golden_age_timer t') i) (lit 1000000 1) = true) /\
  golden_age_mult t' = golden_age_mult t.
Proof.
  intros Hlen Hi t'. subst t'.
  destruct (tech_golden_age_tick_at t dt Hlen) as [Hgm Hrow].
  rewrite Hrow, (in_range_true _ _ Hi). change (@flt float32 ops) with ltb.
  split; [|split; [|exact Hgm]].
  - intros ->. reflexivity.
  - intros Hact Hdt. rewrite Hact. apply clampf_range; [|reflexivity].
    apply sub_pos_finite_not_nan; [|exact Hdt]. apply ltb_zero_pos, Hact.
Qed.

Lemma tech_golden_age_tick_counts_down_witness :
  let t := tech_golden_age_trigger (tech_row (F := float32) (lit 3 1)) 0 f0 in
  let t' := tech_golden_age_tick t (lit 1 1) in
  leb f0 (rd f0 (golden_age_timer t') 0) = true /\
  leb (rd f0 (golden_age_timer t') 0) (lit 1000000 1) = true.
Proof.
  intros t t'.
  pose proof (tech_golden_age_tick_counts_down t (lit 1 1) 0) as H.
  destruct H as (_ & H & _); [simpl; lia|simpl; lia|].
  apply H; reflexivity.
Defined.

Section SupplyShock.
Context {F : Type} `{FieldOps F}.

Lemma econ_supply_shock_at (e : EconSoA F) (shock_factor : F) :
  cols_cover (econ_count e) [resource e; supply e] ->
  forall i,
    (rd f0 (resource (econ_supply_shock e shock_factor)) i,
     rd f0 (supply (econ_supply_shock e shock_factor)) i)
    = if (0 <=? i) && (i <? econ_count e)
      then (let r := fmul (rd f0 (resource e) i)
                          (clampf (fsub f1 shock_factor) f0 f1) in (r, r))
      else (rd f0 (resource e) i, rd f0 (supply e) i).
Proof.
  intros Hwf. unfold cols_cover in Hwf. rewrite !Forall_cons in Hwf.
  destruct Hwf as (Hr & Hs & _).
  unfold econ_supply_shock. cbv zeta.
  set (keep := clampf (fsub f1 shock_factor) f0 f1).
  pose proof (for_loop_rows
    (fun q j => (rd f0 (resource q) j, rd f0 (supply q) j))
    (fun q => econ_count e <= Z.of_nat (length (resource q)) /\
              econ_count e <= Z.of_nat (length (supply q)))
    (fun j '(r, _) => (fmul r keep, fmul r keep))
    (econ_count e) (econ_supply_shock_body keep) e (conj Hr Hs)) as Hloop.
  destruct Hloop as [_ Hrows].
  - intros i q Hi (Hq1 & Hq2). unfold econ_supply_shock_body; simpl.
    split; [rewrite !length_wr; auto|].
    split; [rewrite !rd_wr_eq by lia; reflexivity|].
    intros j Hj. rewrite !rd_wr_ne by congruence. reflexivity.
  - intros i. rewrite Hrows.
    destruct ((0 <=? i) && (i <? econ_count e)); reflexivity.
Qed.

End SupplyShock.

(** X29.  Without rounding, a supply shock can only remove stock: the
    shock factor is clamped into [0, 1] first, so a non-negative stock
    ends between 0 and what it was, a factor of 1 or more empties the
    pool, a factor of 0 or less changes nothing, and the supply column
    mirrors the new stock. *)
Theorem econ_supply_shock_only_removes (e : EconSoA Q) (shock_factor : Q) (i : Z) :
  cols_cover (econ_count e) [resource e; supply e] ->
  0 <= i < econ_count e ->
  let r := rd f0 (resource e) i in
  (0 <= r)%Q ->
  let e' := econ_supply_shock e shock_factor in
  let r' := rd f0 (resource e') i in
  rd f0 (supply e') i = r' /\
  (0 <= r' <= r)%Q /\
  ((1 <= shock_factor)%Q -> (r' == 0)%Q) /\
  ((shock_factor <= 0)%Q -> (r' == r)%Q).
Proof.
  intros Hwf Hi r Hr e' r'. subst r' e'.
  pose proof (econ_supply_shock_at e shock_factor Hwf i) as Hrow.
  rewrite (in_range_true _ _ Hi) in Hrow. cbv zeta in Hrow.
  apply pair_equal_spec in Hrow. destruct Hrow as [Hres Hsup].
  rewrite Hsup, Hres. clear Hsup Hres. exact_ops. fold r.
  destruct (clampf_exact_range (1 - shock_factor)%Q 0%Q 1%Q ltac:(lra))
    as [Hk0 Hk1].
  split; [reflexivity|]. split; [split; nra|]. split.
  - intros Hs.
    assert (clampf (F := Q) (1 - shock_factor)%Q 0%Q 1%Q == 0)%Q as Hz.
    { unfold clampf; simpl.
      destruct (Exact.ltb (1 - shock_factor) 0) eqn:E1; [reflexivity|].
      apply ltb_ge in E1.
      assert (Exact.ltb 1 (1 - shock_factor) = false) as -> by (apply ltb_ge; lra).
      lra. }
    rewrite Hz. ring.
  - intros Hs.
    assert (clampf (F := Q) (1 - shock_factor)%Q 0%Q 1%Q == 1)%Q as Hz.
    { unfold clampf; simpl.
      assert (Exact.ltb (1 - shock_factor) 0 = false) as -> by (apply ltb_ge; lra).
      destruct (Exact.ltb 1 (1 - shock_factor)) eqn:E2; [reflexivity|].
      apply ltb_ge in E2. lra. }
    rewrite Hz. ring.
Qed.

Lemma econ_supply_shock_only_removes_witness :
  let e := econ_row (F := Q) 80%Q 100%Q 0%Q 0%Q 80%Q 0%Q in
  (0 <= rd f0 (resource (econ_supply_shock e (1 # 4)%Q)) 0 <= 80)%Q.
Proof.
  intros e.
  pose proof (econ_supply_shock_only_removes e (1 # 4)%Q 0) as H.
  destruct H as (_ & H & _).
  - repeat constructor; simpl; lia.
  - simpl; lia.
  - vm_compute. discriminate.
  - exact H.
Defined.

(** X30.  Seeding makes chaos reproducible: after
    [engine_determinism_seed], the next [engine_chaos_event] of that
    faction draws from the seed alone, so two engines with the same
    entropy and multiplier end with the same generator state and the
    same multiplier whatever their generators held before.  The seed 0
    is replaced by 1, so the seeds 0 and 1 give the same stream. *)
Theorem engine_seed_reproducible (F : Type) (ops : FieldOps F)
    (e1 e2 : EngineSoA F) (faction seed : Z) :
  0 <= faction < engine_count e1 -> faction < engine_count e2 ->
  faction < Z.of_nat (length (rng_state e1)) ->
  faction < Z.of_nat (length (rng_state e2)) ->
  faction < Z.of_nat (length (chaos_mult e1)) ->
  faction < Z.of_nat (length (chaos_mult e2)) ->
  rd f0 (entropy e1) faction = rd f0 (entropy e2) faction ->
  rd f0 (chaos_mult e1) faction = rd f0 (chaos_mult e2) faction ->
  let a := engine_chaos_event (engine_determinism_seed e1 faction seed) faction in
  let b := engine_chaos_event (engine_determinism_seed e2 faction seed) faction in
  rd 0 (rng_state a) faction = lcg_next (if seed =? 0 then 1 else seed) /\
  rd 0 (rng_state b) faction = rd 0 (rng_state a) faction /\
  rd f0 (chaos_mult b) faction = rd f0 (chaos_mult a) faction /\
  engine_determinism_seed e1 faction 0 = engine_determinism_seed e1 faction 1.
Proof.
  intros H1 H2 Hr1 Hr2 Hc1 Hc2 Hent Hcm a b.
  assert (forall e : EngineSoA F,
    0 <= faction < engine_count e ->
    faction < Z.of_nat (length (rng_state e)) ->
    faction < Z.of_nat (length (chaos_mult e)) ->
    let s := if seed =? 0 then 1 else seed in
    let roll := fst (lcg_float (F := F) s) in
    let e' := engine_chaos_event (engine_determinism_seed e faction seed) faction in
    rd 0 (rng_state e') faction = lcg_next s /\
    rd f0 (chaos_mult e') faction
    = if flt roll (rd f0 (entropy e) faction)
      then clampf (fmul (rd f0 (chaos_mult e) faction) (fadd f1 roll)) f1 (flit 10 1)
      else clampf (fmul (rd f0 (chaos_mult e) faction) (flit 99 100)) f1 (flit 10 1))
    as Hone.
  { intros e He Hr Hc s roll e'. subst e'.
    unfold engine_determinism_seed. rewrite out_of_range_false by exact He.
    unfold engine_chaos_event. simpl engine_count.
    rewrite out_of_range_false by exact He. simpl rng_state.
    rewrite rd_wr_eq by lia. fold s.
    unfold lcg_float. fold roll. simpl.
    destruct (flt _ _); simpl; rewrite !rd_wr_eq by (rewrite ?length_wr; lia);
      split; reflexivity. }
  destruct (Hone e1 H1 Hr1 Hc1) as [Ha1 Ha2].
  destruct (Hone e2 ltac:(lia) Hr2 Hc2) as [Hb1 Hb2].
  fold a in Ha1, Ha2. fold b in Hb1, Hb2.
  split; [exact Ha1|]. split; [congruence|]. split.
  - rewrite Ha2, Hb2, Hent, Hcm. reflexivity.
  - unfold engine_determinism_seed. reflexivity.
Qed.

Lemma engine_seed_reproducible_witness :
  let e1 := engine_row (F := float32) (lit 1 2) in
  let e2 := set_rng_state e1 [77] in
  rd 0 (rng_state (engine_chaos_event (engine_determinism_seed e2 0 5) 0)) 0
  = rd 0 (rng_state (engine_chaos_event (engine_determinism_seed e1 0 5) 0)) 0.
Proof.
  intros e1 e2.
  refine (proj1 (proj2 (engine_seed_reproducible float32 Binary32.ops e1 e2 0 5
                          _ _ _ _ _ _ _ _)));
    first [reflexivity|simpl; lia].
Defined.
